(** * Novanector account backend: a shallow embedding and its properties

    The development follows the layout of the backend:
    - [Js], [Regex], [Path]: the pieces of the JavaScript runtime the code
      relies on (string methods, regular expressions, [path.extname]);
    - the upload configuration ([config/multer.js]);
    - the user schema ([models/authModel.js]);
    - the model layer (queries and [save] of the document store);
    - the request handlers ([controllers/authController.js]) and the routes.

    A JavaScript string is the sequence of its UTF-16 code units. The
    model has the strings whose code units are all below 256 (Basic Latin
    and Latin-1 Supplement): a character [c] of a Rocq string stands for
    the code unit [Js.code c], so that ["A"] is U+0041 and the character
    of code 233 is U+00E9. Strings holding other code units have no
    counterpart here. On this range [length], [trim], [toLowerCase], the
    class [\s] and the dot of regular expressions are the language's own;
    where bytes are meant (the key of bcrypt), the string is encoded in
    UTF-8 first. *)

From Stdlib Require Import ZArith Ascii String List Lia Permutation Sorted.
From stdpp Require Import base option list strings gmap pretty sorting.

Local Open Scope string_scope.
Local Open Scope Z_scope.

(** ** JavaScript strings

    A character written by its code, as ["233"%char], is the code unit
    of that value (here U+00E9). A literal typed with letters outside
    ASCII is, as Rocq reads a source file, the string of the bytes of its
    UTF-8 encoding and so another string than the one it shows: strings
    with code units from 128 on are written by their codes. *)

Module Js.

Definition code (c : ascii) : N := N_of_ascii c.

Definition is_upper (c : ascii) : bool := ((65 <=? code c) && (code c <=? 90))%N.
Definition is_lower (c : ascii) : bool := ((97 <=? code c) && (code c <=? 122))%N.
Definition is_digit (c : ascii) : bool := ((48 <=? code c) && (code c <=? 57))%N.
Definition is_alnum (c : ascii) : bool := is_upper c || is_lower c || is_digit c.

(** White space of [String.prototype.trim] and of the class [\s] (white
    space and line terminators), among the code units below 256: TAB, LF,
    VT, FF, CR, SPACE and the no-break space U+00A0. *)
Definition is_space (c : ascii) : bool :=
  ((9 <=? code c) && (code c <=? 13) || (code c =? 32) || (code c =? 160))%N.

(** Line terminators, which [.] does not match: LF and CR. *)
Definition is_line_terminator (c : ascii) : bool :=
  ((code c =? 10) || (code c =? 13))%N.

(** The upper-case letters of Latin-1 Supplement: U+00C0 to U+00DE but
    for the multiplication sign U+00D7. *)
Definition is_upper_latin1 (c : ascii) : bool :=
  ((192 <=? code c) && (code c <=? 222) && negb (code c =? 215))%N.

(** [toLowerCase] on one code unit: the upper-case letters of both blocks
    have their lower case 32 further; every other code unit below 256 is
    its own lower case. *)
Definition lower_char (c : ascii) : ascii :=
  if is_upper c || is_upper_latin1 c then ascii_of_N (code c + 32) else c.

Fixpoint toLowerCase (s : string) : string :=
  match s with
  | EmptyString => EmptyString
  | String c s' => String (lower_char c) (toLowerCase s')
  end.

Fixpoint trimStart (s : string) : string :=
  match s with
  | EmptyString => EmptyString
  | String c s' => if is_space c then trimStart s' else s
  end.

(** [trimEnd] keeps a character when it is not white space or when
    something remains after it. *)
Fixpoint trimEnd (s : string) : string :=
  match s with
  | EmptyString => EmptyString
  | String c s' =>
      match trimEnd s' with
      | EmptyString => if is_space c then EmptyString else String c EmptyString
      | r => String c r
      end
  end.

Definition trim (s : string) : string := trimEnd (trimStart s).

(** [s.length]: the number of code units. *)
Definition len (s : string) : Z := Z.of_nat (String.length s).

(** [s.substring(0, n)] *)
Fixpoint take (n : nat) (s : string) : string :=
  match n, s with
  | S n', String c s' => String c (take n' s')
  | _, _ => EmptyString
  end.

Fixpoint map_chars (f : ascii -> ascii) (s : string) : string :=
  match s with
  | EmptyString => EmptyString
  | String c s' => String (f c) (map_chars f s')
  end.

Fixpoint all_chars (p : ascii -> bool) (s : string) : bool :=
  match s with
  | EmptyString => true
  | String c s' => p c && all_chars p s'
  end.

(** Truthiness of an optional string field: [undefined] and the empty
    string are falsy. *)
Definition truthy (v : option string) : bool :=
  match v with
  | Some (String _ _) => true
  | _ => false
  end.

(** The value of a field known to be a string ([undefined] prints as
    such in a template literal). *)
Definition str (v : option string) : string :=
  match v with
  | Some s => s
  | None => "undefined"
  end.

Definition includes (l : list string) (s : string) : bool :=
  existsb (String.eqb s) l.

(** The UTF-8 encoding of a string, each byte written as the character of
    its value: a code unit below 128 is one byte, one from 128 to 255 is
    two. *)
Definition utf8_char (c : ascii) : string :=
  if (code c <? 128)%N then String c EmptyString
  else String (ascii_of_N (192 + code c / 64))
         (String (ascii_of_N (128 + code c mod 64)) EmptyString).

Fixpoint utf8 (s : string) : string :=
  match s with
  | EmptyString => EmptyString
  | String c s' => utf8_char c ++ utf8 s'
  end.

(** The first [n] bytes of [rest] followed by [period] again and again. *)
Fixpoint cycle (n : nat) (period rest : string) : string :=
  match n with
  | O => EmptyString
  | S n' =>
      match rest with
      | String c r => String c (cycle n' period r)
      | EmptyString =>
          match period with
          | String c r => String c (cycle n' period r)
          | EmptyString => EmptyString
          end
      end
  end.

(** Two hexadecimal digits of a byte, as [Buffer.toString("hex")]. *)
Definition hex_digit (n : N) : ascii :=
  ascii_of_N (if (n <? 10)%N then 48 + n else 87 + n).

Definition hex_byte (b : N) : string :=
  String (hex_digit ((b / 16) mod 16)) (String (hex_digit (b mod 16)) EmptyString).

Definition hex (bytes : list N) : string :=
  fold_right (fun b acc => hex_byte b ++ acc) EmptyString bytes.

End Js.

(** ** Regular expressions

    Anchored patterns ([/^...$/]) are matched against the whole subject
    with Brzozowski derivatives. *)

Module Regex.

Inductive re : Type :=
| Void                           (* matches nothing *)
| Eps                            (* the empty string *)
| Cls (p : ascii -> bool)        (* one character of a class *)
| Cat (r s : re)
| Alt (r s : re)
| Star (r : re).

Fixpoint nullable (r : re) : bool :=
  match r with
  | Void => false
  | Eps => true
  | Cls _ => false
  | Cat r s => nullable r && nullable s
  | Alt r s => nullable r || nullable s
  | Star _ => true
  end.

Definition cat (r s : re) : re :=
  match r, s with
  | Void, _ => Void
  | _, Void => Void
  | Eps, _ => s
  | _, _ => Cat r s
  end.

Definition alt (r s : re) : re :=
  match r, s with
  | Void, _ => s
  | _, Void => r
  | _, _ => Alt r s
  end.

Fixpoint deriv (c : ascii) (r : re) : re :=
  match r with
  | Void => Void
  | Eps => Void
  | Cls p => if p c then Eps else Void
  | Cat r s =>
      if nullable r then alt (cat (deriv c r) s) (deriv c s)
      else cat (deriv c r) s
  | Alt r s => alt (deriv c r) (deriv c s)
  | Star r => cat (deriv c r) (Star r)
  end.

(** [matches r s]: the whole of [s] is in the language of [r]. *)
Fixpoint matches (r : re) (s : string) : bool :=
  match s with
  | EmptyString => nullable r
  | String c s' => matches (deriv c r) s'
  end.

Definition Chr (c : ascii) : re := Cls (Ascii.eqb c).
(** A character under the [i] flag. *)
Definition ChrI (c : ascii) : re :=
  Cls (fun d => Ascii.eqb (Js.lower_char c) (Js.lower_char d)).
Definition Dot : re := Cls (fun c => negb (Js.is_line_terminator c)).
Definition Plus (r : re) : re := Cat r (Star r).
Definition Opt (r : re) : re := Alt Eps r.

Fixpoint Lit (s : string) : re :=
  match s with
  | EmptyString => Eps
  | String c s' => Cat (Chr c) (Lit s')
  end.

Fixpoint LitI (s : string) : re :=
  match s with
  | EmptyString => Eps
  | String c s' => Cat (ChrI c) (LitI s')
  end.

Definition OneOf (rs : list re) : re := fold_right Alt Void rs.

End Regex.

(** ** Node's [path] module (POSIX flavour) *)

Module Path.

(** Index-free helpers on the characters of a path. *)
Fixpoint rev_chars (s : string) (acc : list ascii) : list ascii :=
  match s with
  | EmptyString => acc
  | String c s' => rev_chars s' (c :: acc)
  end.

Definition of_chars (l : list ascii) : string :=
  fold_right String EmptyString l.

Definition is_slash (c : ascii) : bool := Ascii.eqb c "/".
Definition is_dot (c : ascii) : bool := Ascii.eqb c ".".

Fixpoint drop_while {A} (p : A -> bool) (l : list A) : list A :=
  match l with
  | x :: l' => if p x then drop_while p l' else l
  | [] => []
  end.

Fixpoint take_while {A} (p : A -> bool) (l : list A) : list A :=
  match l with
  | x :: l' => if p x then x :: take_while p l' else []
  | [] => []
  end.

(** The last component of a path, read from its end: trailing slashes
    are skipped, then everything up to the previous slash is kept.
    The result is reversed (last character first). *)
Definition last_component_rev (p : string) : list ascii :=
  take_while (fun c => negb (is_slash c)) (drop_while is_slash (rev_chars p [])).

(** The component split at its last dot: [(name, ext)], where [ext] is
    empty when the component has no dot, starts with its only dot, or
    is [".."]. *)
Definition split_ext (p : string) : string * string :=
  let comp := last_component_rev p in
  let ext_rev := take_while (fun c => negb (is_dot c)) comp in
  let rest := drop_while (fun c => negb (is_dot c)) comp in
  match rest with
  | [] => (of_chars (rev comp), EmptyString)                 (* no dot *)
  | _dot :: before =>
      match before with
      | [] => (of_chars (rev comp), EmptyString)             (* leading dot *)
      | _ =>
          if (forallb is_dot before && (length before =? 1)%nat
              && (length ext_rev =? 0)%nat)
          then (of_chars (rev comp), EmptyString)            (* ".." *)
          else (of_chars (rev before), of_chars (rev (ext_rev ++ ["."%char])))
      end
  end.

Definition extname (p : string) : string := snd (split_ext p).

(** [path.parse(p).name] *)
Definition parse_name (p : string) : string := fst (split_ext p).

End Path.

(** ** Values, JSON objects and the response envelope *)

(** A stored password: the result of [bcrypt.hash(plaintext, cost)] with a
    fresh salt. The digest is kept symbolic: it records the cost, the salt
    and the key material the algorithm reads, 72 bytes ([bcrypt_key]
    below). Two keys that differ are taken to give digests that differ. *)
Record Digest := mkDigest { cost : Z; salt : string; key : string }.

Inductive jsval : Type :=
| VStr (s : string)
| VNum (n : Z)
| VDate (ms : Z)
| VObjectId (oid : N)
| VDigest (h : Digest).

(** A plain JavaScript object with string keys. *)
Abbreviation Obj := (gmap string jsval).

(** A signed token, as [jwt.sign] builds it: the payload it was given plus
    the issue and expiry times (in seconds), and the key of the signature. *)
Record Token := mkToken { payload : gmap string jsval; signing_key : string }.

(** A JavaScript number that may be the result of a division. *)
Inductive num : Type :=
| Fin (z : Z)
| Infinity
| NaN.

Record Pagination := mkPagination {
  currentPage : Z;
  totalPages : num;
  totalUsers : Z;
  hasNextPage : bool;
  hasPrevPage : bool }.

(** What [res.status(s).json({success, message, ...})] sends. *)
Record Response := mkResponse {
  status : Z;
  success : bool;
  message : string;
  user : option Obj;
  users : option (list Obj);
  token : option Token;
  errors : option (list string);
  error : option string;
  pagination : option Pagination }.

(** [{success, message}] alone. *)
Definition reply (st : Z) (ok : bool) (msg : string) : Response :=
  mkResponse st ok msg None None None None None None.

(** The user records a response carries. *)
Definition returned_records (r : Response) : list Obj :=
  match user r with Some o => [o] | None => [] end ++
  match users r with Some l => l | None => [] end.

(** ** Upload configuration: [config/multer.js] *)

Definition is_empty (s : string) : bool :=
  match s with EmptyString => true | _ => false end.

(** One file part of a multipart request, as the upload middleware sees it. *)
Record FilePart := mkFilePart {
  fieldname : string;
  originalname : string;
  mimetype : string;
  size : Z }.

(** [req.file] once the middleware has stored the part. *)
Record UploadedFile := mkUploadedFile {
  part : FilePart;
  filename : string }.

(** The errors the middleware passes on: a [MulterError] with its code, or
    a plain [Error] with its message. *)
Inductive UploadError : Type :=
| MulterError (code : string)
| PlainError (msg : string).

Definition allowedMimeTypes : list string :=
  [ "image/jpeg"; "image/jpg"; "image/png"; "image/gif"; "image/webp";
    "image/bmp"; "image/tiff" ].

Definition allowedExtensions : list string :=
  [ ".jpg"; ".jpeg"; ".png"; ".gif"; ".webp"; ".bmp"; ".tiff" ].

Definition invalid_file_type : string :=
  "Invalid file type. Only JPEG, PNG, GIF, WebP, BMP, and TIFF images are allowed.".

(** [cb(null, true)] is [inr true]; [cb(new Error(..), false)] is [inl]. *)
Definition fileFilter (file : FilePart) : UploadError + bool :=
  let fileExtension := Js.toLowerCase (Path.extname (originalname file)) in
  if Js.includes allowedMimeTypes (mimetype file)
     && Js.includes allowedExtensions fileExtension
  then inr true
  else inl (PlainError invalid_file_type).

(** The [filename] callback of the disk storage. [timestamp] is
    [Date.now()] and [randomBytes] the eight bytes of
    [crypto.randomBytes(8)]. *)
Definition storage_filename (timestamp : Z) (randomBytes : list N)
    (file : FilePart) : string :=
  let randomString := Js.hex randomBytes in
  let extension := Js.toLowerCase (Path.extname (originalname file)) in
  let originalName :=
    Js.take 20
      (Js.map_chars (fun c => if Js.is_alnum c then c else "_"%char)
         (Path.parse_name (originalname file))) in
  originalName ++ "-" ++ pretty timestamp ++ "-" ++ randomString ++ extension.

(** [limits.fileSize]: 5 MB. *)
Definition fileSize : Z := 5 * 1024 * 1024.

(** [profilePictureUpload.single("profilePicture")] on a request with at
    most one file part (requests with several parts are not modelled).
    A part without a file name is no file and is skipped. Otherwise the
    field name is checked first, then the filter; the size limit is hit
    while the accepted file is written, as soon as [fileSize] bytes have
    been read: a file of exactly [fileSize] bytes is refused as well. *)
Definition uploadProfilePicture (timestamp : Z) (randomBytes : list N)
    (p : option FilePart) : UploadError + option UploadedFile :=
  match p with
  | None => inr None
  | Some file =>
      if is_empty (originalname file) then inr None
      else if negb (String.eqb (fieldname file) "profilePicture")
      then inl (MulterError "LIMIT_UNEXPECTED_FILE")
      else
        match fileFilter file with
        | inl e => inl e
        | inr _ =>
            if fileSize <=? size file
            then inl (MulterError "LIMIT_FILE_SIZE")
            else inr (Some (mkUploadedFile file
                              (storage_filename timestamp randomBytes file)))
        end
  end.

Definition upload_reply (msg : string) (code : string) : Response :=
  mkResponse 400 false msg None None None None (Some code) None.

(** The error middleware, on the error it is called with. *)
Definition handleMulterError (e : UploadError) : Response :=
  match e with
  | MulterError code =>
      if String.eqb code "LIMIT_FILE_SIZE" then
        upload_reply "File size too large. Maximum size allowed is 5MB." "FILE_TOO_LARGE"
      else if String.eqb code "LIMIT_FILE_COUNT" then
        upload_reply "Too many files. Only one file is allowed." "TOO_MANY_FILES"
      else if String.eqb code "LIMIT_UNEXPECTED_FILE" then
        upload_reply "Unexpected field name. Use 'profilePicture' as field name."
          "UNEXPECTED_FIELD"
      else upload_reply "File upload error occurred." code
  | PlainError msg =>
      upload_reply
        (match msg with EmptyString => "File upload failed." | _ => msg end)
        "UPLOAD_ERROR"
  end.

(** The part of the request [generateImageUrl] reads: [req.protocol] and
    [req.get("host")], which is [undefined] without a Host header. *)
Record Origin := mkOrigin { protocol : string; host : option string }.

(** [null] for a missing file name, else the public URL. *)
Definition generateImageUrl (filename : option string) (req : Origin)
    : option string :=
  if negb (Js.truthy filename) then None
  else Some (protocol req ++ "://" ++ Js.str (host req)
             ++ "/uploads/profile-pictures/" ++ Js.str filename).

Definition image_extensions : list string :=
  [ "png"; "jpg"; "jpeg"; "gif"; "webp"; "bmp"; "tiff" ].

(** [/^(https?:\/\/.*\.(?:png|jpg|jpeg|gif|webp|bmp|tiff))$/i] *)
Definition imageUrlRegex : Regex.re :=
  Regex.Cat (Regex.LitI "http")
    (Regex.Cat (Regex.Opt (Regex.ChrI "s"))
       (Regex.Cat (Regex.LitI "://")
          (Regex.Cat (Regex.Star Regex.Dot)
             (Regex.Cat (Regex.Chr ".")
                (Regex.OneOf (map Regex.LitI image_extensions)))))).

Definition isValidImageUrl (url : string) : bool :=
  Regex.matches imageUrlRegex url.

(** ** The user schema: [models/authModel.js] *)

(** A stored user document. [password] holds the digest computed by the
    pre-save hook, never the plaintext. *)
Record Doc := mkDoc {
  _id : N;
  username : string;
  email : string;
  password : Digest;
  profilePicture : string;
  role : string;
  createdAt : Z;
  updatedAt : Z }.

Global Instance Digest_eq_dec : EqDecision Digest.
Proof. solve_decision. Defined.

Global Instance Doc_eq_dec : EqDecision Doc.
Proof. solve_decision. Defined.

(** The schema's setters: [trim] on [username]; [trim] and [lowercase] on
    [email]. The model layer applies them to the values it stores and to
    the values of query filters on these paths alike. *)
Definition set_username (v : string) : string := Js.trim v.
Definition set_email (v : string) : string := Js.toLowerCase (Js.trim v).

Definition not_space_at : Regex.re :=
  Regex.Cls (fun c => negb (Js.is_space c || Ascii.eqb c "@")).

(** [/^[^\s@]+@[^\s@]+\.[^\s@]+$/], used by the schema and by the
    registration handler. *)
Definition emailRegex : Regex.re :=
  Regex.Cat (Regex.Plus not_space_at)
    (Regex.Cat (Regex.Chr "@")
       (Regex.Cat (Regex.Plus not_space_at)
          (Regex.Cat (Regex.Chr ".") (Regex.Plus not_space_at)))).

(** [/^(https?:\/\/.*\.(?:png|jpg|jpeg|gif|webp))$/], the validator of
    [profilePicture]: no [i] flag, and neither bmp nor tiff. *)
Definition profilePictureRegex : Regex.re :=
  Regex.Cat (Regex.Lit "http")
    (Regex.Cat (Regex.Opt (Regex.Chr "s"))
       (Regex.Cat (Regex.Lit "://")
          (Regex.Cat (Regex.Star Regex.Dot)
             (Regex.Cat (Regex.Chr ".")
                (Regex.OneOf
                   (map Regex.Lit [ "png"; "jpg"; "jpeg"; "gif"; "webp" ])))))).

Definition default_profilePicture : string :=
  "https://res.cloudinary.com/dz1qj3x8h/image/upload/v1735681234/novanector/default-profile-picture.png".

Definition role_enum : list string := [ "admin"; "instructor"; "student" ].

(** The validators of each path, in the order the schema lists them
    ([required] first); a path reports its first failure. The messages of
    the built-in validators are the templates of mongoose 8, which print
    the value and its length. *)
Definition too_short (path v : string) (n : string) : string :=
  "Path `" ++ path ++ "` (`" ++ v ++ "`, length " ++ pretty (Js.len v)
    ++ ") is shorter than the minimum allowed length (" ++ n ++ ").".

Definition too_long (path v : string) (n : string) : string :=
  "Path `" ++ path ++ "` (`" ++ v ++ "`, length " ++ pretty (Js.len v)
    ++ ") is longer than the maximum allowed length (" ++ n ++ ").".

Definition required_msg (path : string) : string :=
  "Path `" ++ path ++ "` is required.".

Definition validate_username (v : string) : option string :=
  if is_empty v then Some (required_msg "username")
  else if Js.len v <? 3 then Some (too_short "username" v "3")
  else if 20 <? Js.len v then Some (too_long "username" v "20")
  else None.

Definition validate_email (v : string) : option string :=
  if is_empty v then Some (required_msg "email")
  else if negb (Regex.matches emailRegex v) then Some (v ++ " is not a valid email!")
  else None.

Definition validate_password (v : string) : option string :=
  if is_empty v then Some (required_msg "password")
  else if Js.len v <? 9 then Some (too_short "password" v "9")
  else None.

Definition validate_profilePicture (v : string) : option string :=
  if negb (Regex.matches profilePictureRegex v)
  then Some (v ++ " is not a valid image URL!")
  else None.

Definition validate_role (v : string) : option string :=
  if negb (Js.includes role_enum v)
  then Some ("`" ++ v ++ "` is not a valid enum value for path `role`.")
  else None.

Definition collect (l : list (option string)) : list string :=
  omap id l.

(** The key material bcryptjs reads from a password: the UTF-8 bytes of
    the password followed by a NUL byte, read cyclically until the 18
    words of the Blowfish key schedule are filled, 72 bytes in all. A
    password of 72 bytes or more counts by its first 72 bytes; a shorter
    one by itself, the NUL, and itself again from the start. *)
Definition bcrypt_key (plaintext : string) : string :=
  let bytes := Js.utf8 plaintext ++ String zero EmptyString in
  Js.cycle 72 bytes bytes.

(** [bcrypt.hash(plaintext, 12)] with the salt drawn for this call. *)
Definition bcrypt_hash (salt : string) (plaintext : string) (cost : Z) : Digest :=
  mkDigest cost salt (bcrypt_key plaintext).

(** [bcrypt.compare]: the candidate is hashed with the salt and the cost
    of the digest, and the results are compared. *)
Definition bcrypt_compare (candidate : string) (h : Digest) : bool :=
  String.eqb (bcrypt_key candidate) (key h).

(** [this.toObject()] *)
Definition toObject (d : Doc) : Obj :=
  <[ "_id" := VObjectId (_id d) ]>
  (<[ "username" := VStr (username d) ]>
  (<[ "email" := VStr (email d) ]>
  (<[ "password" := VDigest (password d) ]>
  (<[ "profilePicture" := VStr (profilePicture d) ]>
  (<[ "role" := VStr (role d) ]>
  (<[ "createdAt" := VDate (createdAt d) ]>
  (<[ "updatedAt" := VDate (updatedAt d) ]>
  (<[ "__v" := VNum 0 ]> ∅)))))))).

(** The [toJSON] method: [delete userObject.password]. *)
Definition toJSON (d : Doc) : Obj :=
  let userObject := toObject d in
  delete "password" userObject.

(** ** The model layer: queries and [save] on the [Auth] collection *)

Inductive Field : Type := FUsername | FEmail | FRole.

(** Query filters: [{}], [{path: v}], [{path: {$regex: p, $options: "i"}}],
    [{$or: [a, b]}], and the conjunction of the entries of one filter
    object. *)
Inductive Query : Type :=
| Any
| Eq (f : Field) (v : string)
| RegexI (f : Field) (pattern : string)
| Or (a b : Query)
| And (a b : Query).

Inductive exn : Type :=
| ValidationError (errors : list string)
| MongoServerError (code : Z) (keyPattern : list string)
| CastError (path : string).

(** The calls a handler makes to the store and to the password hasher. *)
Inductive Op : Type :=
| OpFindOne (q : Query)
| OpFindById (id : string)
| OpFind (q : Query)
| OpCountDocuments (q : Query)
| OpSave (oid : N)
| OpFindByIdAndDelete (id : string)
| OpComparePassword (oid : N).

(** The collection, in the order the store goes through it (new documents
    come last), and the calls made so far. *)
Record World := mkWorld { db : list Doc; trace : list Op }.

(** What a request takes from outside the repository: the clock
    ([Date.now()], in milliseconds), the random bytes of the upload name,
    the identifier and the salt drawn for a new document, the
    [JWT_SECRET] variable of the process, and the store's regular
    expression engine under the [i] option ([None]: the pattern is
    rejected). *)
Record Env := mkEnv {
  now : Z;
  randomBytes : list N;
  newObjectId : N;
  bcryptSalt : string;
  JWT_SECRET : option string;
  regexI : string -> option (string -> bool) }.

Inductive Outcome (A : Type) : Type :=
| Returned (a : A)
| Thrown (e : exn).
Arguments Returned {A} a.
Arguments Thrown {A} e.

(** Handlers run in a state-and-exception monad over the [World]. *)
Definition M (A : Type) : Type := World -> Outcome A * World.

Definition ret {A} (a : A) : M A := fun w => (Returned a, w).

Definition bind {A B} (m : M A) (k : A -> M B) : M B := fun w =>
  match m w with
  | (Returned a, w') => k a w'
  | (Thrown e, w') => (Thrown e, w')
  end.

Definition throw {A} (e : exn) : M A := fun w => (Thrown e, w).

(** [try { body } catch (error) { handler }] *)
Definition try_catch {A} (body : M A) (handler : exn -> M A) : M A := fun w =>
  match body w with
  | (Returned a, w') => (Returned a, w')
  | (Thrown e, w') => handler e w'
  end.

Definition log (o : Op) : M unit := fun w =>
  (Returned tt, mkWorld (db w) (trace w ++ [o])).

Definition get_db : M (list Doc) := fun w => (Returned (db w), w).

Definition put_db (l : list Doc) : M unit := fun w =>
  (Returned tt, mkWorld l (trace w)).

Notation "'do' x <- m ; k" := (bind m (fun x => k))
  (at level 10, x name, m at level 100, k at level 200).
Notation "'run' m ; k" := (bind m (fun _ => k))
  (at level 10, m at level 100, k at level 200).

Definition get_field (f : Field) (d : Doc) : string :=
  match f with
  | FUsername => username d
  | FEmail => email d
  | FRole => role d
  end.

(** Casting of a filter value by the schema: the setters of its path. *)
Definition cast_value (f : Field) (v : string) : string :=
  match f with
  | FUsername => set_username v
  | FEmail => set_email v
  | FRole => v
  end.

Fixpoint compile (rx : string -> option (string -> bool)) (q : Query)
    : option (Doc -> bool) :=
  match q with
  | Any => Some (fun _ => true)
  | Eq f v => Some (fun d => String.eqb (get_field f d) (cast_value f v))
  | RegexI f pattern =>
      match rx pattern with
      | Some m => Some (fun d => m (get_field f d))
      | None => None
      end
  | Or a b =>
      match compile rx a, compile rx b with
      | Some pa, Some pb => Some (fun d => pa d || pb d)
      | _, _ => None
      end
  | And a b =>
      match compile rx a, compile rx b with
      | Some pa, Some pb => Some (fun d => pa d && pb d)
      | _, _ => None
      end
  end.

(** A filter the store rejects (an invalid pattern) fails the call. *)
Definition compiled (env : Env) (q : Query) : M (Doc -> bool) :=
  match compile (regexI env) q with
  | Some p => ret p
  | None => throw (MongoServerError 51091 [])
  end.

(** The first matching document, in the order of the collection. The
    store does not promise which of several matching documents it
    returns; the list stands for the order it goes through them. *)
Definition Auth_findOne (env : Env) (q : Query) : M (option Doc) :=
  run log (OpFindOne q);
  do p <- compiled env q;
  do docs <- get_db;
  ret (List.find p docs).

Definition hex_val (c : ascii) : option N :=
  let n := Js.code c in
  if Js.is_digit c then Some (n - 48)%N
  else if ((97 <=? n) && (n <=? 102))%N then Some (n - 87)%N
  else if ((65 <=? n) && (n <=? 70))%N then Some (n - 55)%N
  else None.

Fixpoint parse_hex (s : string) (acc : N) : option N :=
  match s with
  | EmptyString => Some acc
  | String c s' =>
      match hex_val c with
      | Some v => parse_hex s' (16 * acc + v)%N
      | None => None
      end
  end.

(** Casting of an identifier string: 24 hexadecimal digits, or the cast
    fails. (The 12-character form that older drivers also took is not
    modelled.) *)
Definition castObjectId (id : string) : option N :=
  if (String.length id =? 24)%nat then parse_hex id 0%N else None.

Definition has_id (oid : N) (d : Doc) : bool := (_id d =? oid)%N.

Definition Auth_findById (env : Env) (id : string) : M (option Doc) :=
  run log (OpFindById id);
  match castObjectId id with
  | None => throw (CastError "_id")
  | Some oid =>
      do docs <- get_db;
      ret (List.find (has_id oid) docs)
  end.

(** Removes the first element satisfying [p]. *)
Fixpoint remove_first {A} (p : A -> bool) (l : list A) : list A :=
  match l with
  | [] => []
  | x :: l' => if p x then l' else x :: remove_first p l'
  end.

Definition Auth_findByIdAndDelete (env : Env) (id : string) : M (option Doc) :=
  run log (OpFindByIdAndDelete id);
  match castObjectId id with
  | None => throw (CastError "_id")
  | Some oid =>
      do docs <- get_db;
      run put_db (remove_first (has_id oid) docs);
      ret (List.find (has_id oid) docs)
  end.

(** The unique indexes ([_id], [username], [email]): the key pattern of
    the first one a document would violate among [others]. *)
Definition unique_violation (d : Doc) (others : list Doc) : option string :=
  if existsb (has_id (_id d)) others then Some "_id"
  else if existsb (fun x => String.eqb (username x) (username d)) others
  then Some "username"
  else if existsb (fun x => String.eqb (email x) (email d)) others
  then Some "email"
  else None.

(** [new Auth({username, email, password, profilePicture, role})]: the
    setters have run, and an [undefined] picture took the default. The
    password is still the plaintext. *)
Record NewDoc := mkNewDoc {
  new_username : string;
  new_email : string;
  new_password : string;
  new_profilePicture : string;
  new_role : string }.

Definition new_Auth (username email password : string)
    (profilePicture : option string) (role : string) : NewDoc :=
  mkNewDoc (set_username username) (set_email email) password
    (default default_profilePicture profilePicture) role.

(** [newUser.save()]: validation, then the pre-save hook (the password is
    new, so it is hashed with cost 12), then the insert. *)
Definition save_new (env : Env) (n : NewDoc) : M Doc :=
  run log (OpSave (newObjectId env));
  match collect [ validate_username (new_username n);
                  validate_email (new_email n);
                  validate_password (new_password n);
                  validate_profilePicture (new_profilePicture n);
                  validate_role (new_role n) ] with
  | (_ :: _) as messages => throw (ValidationError messages)
  | [] =>
      let hashedPassword := bcrypt_hash (bcryptSalt env) (new_password n) 12 in
      let d := mkDoc (newObjectId env) (new_username n) (new_email n)
                 hashedPassword (new_profilePicture n) (new_role n)
                 (now env) (now env) in
      do docs <- get_db;
      match unique_violation d docs with
      | Some field => throw (MongoServerError 11000 [field])
      | None => run put_db (docs ++ [d]); ret d
      end
  end.

Definition touch (t : Z) (d : Doc) : Doc :=
  mkDoc (_id d) (username d) (email d) (password d) (profilePicture d)
    (role d) (createdAt d) t.

(** [user.save()] on a loaded document [d] whose fields were assigned:
    validation (the stored digest passes the password's validators), no
    re-hash since the password is unmodified, then the update of the
    document with this [_id]; [updatedAt] moves when something changed. *)
Definition save (env : Env) (d : Doc) : M Doc :=
  run log (OpSave (_id d));
  match collect [ validate_username (username d);
                  validate_email (email d);
                  validate_profilePicture (profilePicture d);
                  validate_role (role d) ] with
  | (_ :: _) as messages => throw (ValidationError messages)
  | [] =>
      do docs <- get_db;
      let others := List.filter (fun x => negb (has_id (_id d) x)) docs in
      match unique_violation d others with
      | Some field => throw (MongoServerError 11000 [field])
      | None =>
          let saved :=
            if bool_decide (List.find (has_id (_id d)) docs = Some d) then d
            else touch (now env) d in
          run put_db (map (fun x => if has_id (_id d) x then saved else x) docs);
          ret saved
      end
  end.

Definition newest_first (a b : Doc) : Prop := createdAt b <= createdAt a.

Global Instance newest_first_dec a b : Decision (newest_first a b).
Proof. unfold newest_first. apply _. Defined.

Global Instance newest_first_total : Total newest_first.
Proof. intros a b. unfold newest_first. lia. Qed.

Global Instance newest_first_trans : Transitive newest_first.
Proof. intros a b c. unfold newest_first. lia. Qed.

(** [limit(n)]: zero means no limit, a negative value counts as its
    absolute value. *)
Definition apply_limit {A} (n : Z) (l : list A) : list A :=
  if n =? 0 then l else take (Z.to_nat (Z.abs n)) l.

(** [Auth.find(q).skip(skip).limit(limit).sort({createdAt: -1})]: the
    matching documents are sorted, then skipped and limited, whatever the
    order of the chained calls. A negative skip is rejected by the store. *)
Definition Auth_find (env : Env) (q : Query) (skip limit : Z) : M (list Doc) :=
  run log (OpFind q);
  do p <- compiled env q;
  if skip <? 0 then throw (MongoServerError 2 [])
  else
    do docs <- get_db;
    ret (apply_limit limit
           (drop (Z.to_nat skip) (merge_sort newest_first (List.filter p docs)))).

Definition Auth_countDocuments (env : Env) (q : Query) : M Z :=
  run log (OpCountDocuments q);
  do p <- compiled env q;
  do docs <- get_db;
  ret (Z.of_nat (length (List.filter p docs))).

(** The [comparePassword] method. *)
Definition comparePassword (user : Doc) (candidatePassword : string) : M bool :=
  run log (OpComparePassword (_id user));
  ret (bcrypt_compare candidatePassword (password user)).

(** [.select("-password")] on a loaded document, and its serialisation by
    [res.json], which calls [toJSON] on what is left. *)
Definition select_minus (path : string) (d : Doc) : Obj :=
  delete path (toObject d).

Definition serialize (selected : Obj) : Obj := delete "password" selected.

(** [jwt.sign(payload, secret, {expiresIn: "24h"})] at time [now] (ms):
    the payload gains [iat] and [exp], both in seconds. *)
Definition expiresIn_24h : Z := 24 * 60 * 60.

Definition jwt_sign (now : Z) (claims : gmap string jsval) (secret : string)
    : Token :=
  let iat := now / 1000 in
  mkToken (<[ "exp" := VNum (iat + expiresIn_24h) ]>
           (<[ "iat" := VNum iat ]> claims)) secret.

(** ** The request handlers: [controllers/authController.js] *)

(** Body fields arrive as strings or are absent. *)
Record RegisterBody := mkRegisterBody {
  reg_username : option string;
  reg_email : option string;
  reg_password : option string;
  reg_role : option string }.

Record LoginBody := mkLoginBody {
  login_email : option string;
  login_password : option string }.

Record UpdateBody := mkUpdateBody {
  upd_username : option string;
  upd_email : option string;
  upd_role : option string }.


(** The query string of the listing: [page] and [limit] by the integers
    they denote (other spellings are not modelled), [role], [search].
    The handler computes with these values as JavaScript numbers: the
    arithmetic of [getAllUsers] below is the handler's where [page],
    [limit] and their product stay within [max_safe_integer], and the
    properties that read the numbers of a listing state the bound. *)

Record ListQuery := mkListQuery {
  q_page : option Z;
  q_limit : option Z;
  q_role : option string;
  q_search : option string }.

Definition internal_error : Response :=
  reply 500 false "Internal server error.".

Definition with_user (st : Z) (msg : string) (u : Doc) : Response :=
  mkResponse st true msg (Some (toJSON u)) None None None None None.

Definition validation_error (messages : list string) : Response :=
  mkResponse 400 false "Validation error." None None None (Some messages) None None.

(** The URL of an uploaded file. The names the upload middleware gives
    are never empty, so behind the routes [generateImageUrl] always yields
    a string here ([uploaded_url_of_upload] below); its [null] is taken as
    no new picture. *)
Definition uploaded_url (origin : Origin) (f : UploadedFile) : option string :=
  generateImageUrl (Some (filename f)) origin.

Definition createAuth (env : Env) (origin : Origin) (body : RegisterBody)
    (uploadedFile : option UploadedFile) : M Response :=
  try_catch
    (if negb (Js.truthy (reg_username body)) || negb (Js.truthy (reg_email body))
        || negb (Js.truthy (reg_password body))
     then ret (reply 400 false "Username, email, and password are required.")
     else if Js.len (Js.str (reg_password body)) <? 9
     then ret (reply 400 false "Password must be at least 9 characters long.")
     else if negb (Regex.matches emailRegex (Js.str (reg_email body)))
     then ret (reply 400 false "Please provide a valid email address.")
     else
       do existingUser <-
         Auth_findOne env (Or (Eq FEmail (Js.str (reg_email body)))
                              (Eq FUsername (Js.str (reg_username body))));
       match existingUser with
       | Some existingUser =>
           ret (reply 400 false
                  (if String.eqb (email existingUser) (Js.str (reg_email body))
                   then "User with this email already exists."
                   else "Username is already taken."))
       | None =>
           let profilePictureUrl :=
             match uploadedFile with
             | Some f => uploaded_url origin f
             | None => None
             end in
           let newUser :=
             new_Auth (Js.str (reg_username body)) (Js.str (reg_email body))
               (Js.str (reg_password body)) profilePictureUrl
               (if Js.truthy (reg_role body) then Js.str (reg_role body)
                else "student") in
           do saved <- save_new env newUser;
           ret (with_user 201 "User created successfully." saved)
       end)
    (fun error =>
       match error with
       | ValidationError errorMessages => ret (validation_error errorMessages)
       | MongoServerError 11000 keyPattern =>
           let field := hd "undefined" keyPattern in
           ret (reply 400 false (field ++ " already exists."))
       | _ => ret internal_error
       end).

(** [process.env.JWT_SECRET || "your_jwt_secret"] *)
Definition jwt_secret (env : Env) : string :=
  if Js.truthy (JWT_SECRET env) then Js.str (JWT_SECRET env)
  else "your_jwt_secret".

(** The payload handed to [jwt.sign] for a user. *)
Definition token_claims (user : Doc) : gmap string jsval :=
  <[ "userId" := VObjectId (_id user) ]>
  (<[ "email" := VStr (email user) ]>
  (<[ "username" := VStr (username user) ]>
  (<[ "role" := VStr (role user) ]> ∅))).

(** The answer to a successful login. *)
Definition with_token (user : Doc) (env : Env) : Response :=
  let token := jwt_sign (now env) (token_claims user) (jwt_secret env) in
  mkResponse 200 true "Login successful." (Some (toJSON user)) None (Some token)
    None None None.

Definition loginAuth (env : Env) (body : LoginBody) : M Response :=
  try_catch
    (if negb (Js.truthy (login_email body))
        || negb (Js.truthy (login_password body))
     then ret (reply 400 false "Email and password are required.")
     else
       do found <-
         Auth_findOne env (Eq FEmail (Js.toLowerCase (Js.str (login_email body))));
       match found with
       | None => ret (reply 401 false "Invalid email or password.")
       | Some user =>
           do isPasswordValid <-
             comparePassword user (Js.str (login_password body));
           if negb isPasswordValid
           then ret (reply 401 false "Invalid email or password.")
           else ret (with_token user env)
       end)
    (fun error => ret internal_error).

Definition set_profilePicture (url : option string) (d : Doc) : Doc :=
  mkDoc (_id d) (username d) (email d) (password d)
    (default (profilePicture d) url) (role d) (createdAt d) (updatedAt d).

(** [if (v) user.path = v], through the setter of the path. *)
Definition assign_username (v : option string) (d : Doc) : Doc :=
  if Js.truthy v
  then mkDoc (_id d) (set_username (Js.str v)) (email d) (password d)
         (profilePicture d) (role d) (createdAt d) (updatedAt d)
  else d.

Definition assign_email (v : option string) (d : Doc) : Doc :=
  if Js.truthy v
  then mkDoc (_id d) (username d) (set_email (Js.str v)) (password d)
         (profilePicture d) (role d) (createdAt d) (updatedAt d)
  else d.

Definition assign_role (v : option string) (d : Doc) : Doc :=
  if Js.truthy v
  then mkDoc (_id d) (username d) (email d) (password d)
         (profilePicture d) (Js.str v) (createdAt d) (updatedAt d)
  else d.

Definition not_found : Response := reply 404 false "User not found.".

(** The look-up guarding a changed identity value: whether some document
    is found for [q]. No look-up is made when the value is absent or is
    the user's current one. *)
Definition taken (env : Env) (supplied : option string) (current : string)
    (q : Query) : M bool :=
  if Js.truthy supplied && negb (String.eqb (Js.str supplied) current)
  then
    do existingUser <- Auth_findOne env q;
    ret (bool_decide (is_Some existingUser))
  else ret false.

Definition updateUserProfile (env : Env) (origin : Origin) (userId : string)
    (body : UpdateBody) (uploadedFile : option UploadedFile) : M Response :=
  try_catch
    (do found <- Auth_findById env userId;
     match found with
     | None => ret not_found
     | Some user =>
         do emailTaken <-
           taken env (upd_email body) (email user)
             (Eq FEmail (Js.str (upd_email body)));
         if emailTaken then ret (reply 400 false "Email is already taken.")
         else
           do usernameTaken <-
             taken env (upd_username body) (username user)
               (Eq FUsername (Js.str (upd_username body)));
           if usernameTaken
           then ret (reply 400 false "Username is already taken.")
           else
             let user1 :=
               match uploadedFile with
               | Some f => set_profilePicture (uploaded_url origin f) user
               | None => user
               end in
             let user2 := assign_username (upd_username body) user1 in
             let user3 := assign_email (upd_email body) user2 in
             let user4 := assign_role (upd_role body) user3 in
             do saved <- save env user4;
             ret (with_user 200 "Profile updated successfully." saved)
     end)
    (fun error =>
       match error with
       | ValidationError errorMessages => ret (validation_error errorMessages)
       | _ => ret internal_error
       end).

Definition updateProfilePicture (env : Env) (origin : Origin) (userId : string)
    (uploadedFile : option UploadedFile) : M Response :=
  try_catch
    (match uploadedFile with
     | None => ret (reply 400 false "No file uploaded.")
     | Some f =>
         do found <- Auth_findById env userId;
         match found with
         | None => ret not_found
         | Some user =>
             let newProfilePictureUrl := uploaded_url origin f in
             do saved <- save env (set_profilePicture newProfilePictureUrl user);
             ret (with_user 200 "Profile picture updated successfully." saved)
         end
     end)
    (fun error => ret internal_error).

Definition getSingleUser (env : Env) (userId : string) : M Response :=
  try_catch
    (do found <- Auth_findById env userId;
     match found with
     | None => ret not_found
     | Some user => ret (with_user 200 "User retrieved successfully." user)
     end)
    (fun error => ret internal_error).

(** [Math.ceil(a / b)] on integers: the quotient is infinite or undefined
    when [b] is zero. *)
Definition ceil_div (a b : Z) : num :=
  if b =? 0 then
    (if a =? 0 then NaN else Infinity)
  else Fin (- ((- a) / b)).

(** [x < n] on numbers. *)
Definition lt_num (x : Z) (n : num) : bool :=
  match n with
  | Fin z => x <? z
  | Infinity => true
  | NaN => false
  end.

(** The filter object the listing builds. *)
Definition list_query (role search : option string) : Query :=
  let query := Any in
  let query := if Js.truthy role then And query (Eq FRole (Js.str role)) else query in
  if Js.truthy search
  then And query (Or (RegexI FUsername (Js.str search))
                     (RegexI FEmail (Js.str search)))
  else query.

Definition getAllUsers (env : Env) (q : ListQuery) : M Response :=
  try_catch
    (let page := default 1 (q_page q) in
     let limit := default 10 (q_limit q) in
     let query := list_query (q_role q) (q_search q) in
     let skip := (page - 1) * limit in
     do found <- Auth_find env query skip limit;
     do totalUsers <- Auth_countDocuments env query;
     let totalPages := ceil_div totalUsers limit in
     ret (mkResponse 200 true "Users retrieved successfully." None
            (Some (map (fun d => serialize (select_minus "password" d)) found))
            None None None
            (Some (mkPagination page totalPages totalUsers
                     (lt_num page totalPages) (1 <? page)))))
    (fun error => ret internal_error).

Definition deleteUser (env : Env) (userId : string) : M Response :=
  try_catch
    (do found <- Auth_findByIdAndDelete env userId;
     match found with
     | None => ret not_found
     | Some user => ret (reply 200 true "User deleted successfully.")
     end)
    (fun error => ret internal_error).

(** ** The routes: [routes/authRoutes.js], with the error middleware of the
    server behind them *)

Inductive Request : Type :=
| PostRegister (origin : Origin) (body : RegisterBody) (file : option FilePart)
| PostLogin (body : LoginBody)
| GetUsers (q : ListQuery)
| GetUser (userId : string)
| PutUser (origin : Origin) (userId : string) (body : UpdateBody)
          (file : option FilePart)
| PutUserPicture (origin : Origin) (userId : string) (file : option FilePart)
| DeleteUser (userId : string).

(** A route behind [uploadProfilePicture]: an upload error goes to
    [handleMulterError], otherwise the handler runs with [req.file]. *)
Definition with_upload (env : Env) (file : option FilePart)
    (handler : option UploadedFile -> M Response) : M Response :=
  match uploadProfilePicture (now env) (randomBytes env) file with
  | inl e => ret (handleMulterError e)
  | inr uploadedFile => handler uploadedFile
  end.

Definition route (env : Env) (r : Request) : M Response :=
  match r with
  | PostRegister origin body file =>
      with_upload env file (createAuth env origin body)
  | PostLogin body => loginAuth env body
  | GetUsers q => getAllUsers env q
  | GetUser userId => getSingleUser env userId
  | PutUser origin userId body file =>
      with_upload env file (updateUserProfile env origin userId body)
  | PutUserPicture origin userId file =>
      with_upload env file (updateProfilePicture env origin userId)
  | DeleteUser userId => deleteUser env userId
  end.

(** The response a handler sends, and the world it leaves. *)
Definition response (o : Outcome Response * World) : option Response :=
  match fst o with
  | Returned r => Some r
  | Thrown _ => None
  end.

Definition world (o : Outcome Response * World) : World := snd o.

(** ** Substring search and a small pattern engine *)

(** [needle] is a prefix of [s], letters compared without case. *)
Fixpoint prefix_ci (needle s : string) : bool :=
  match needle, s with
  | EmptyString, _ => true
  | String a needle', String c s' =>
      Ascii.eqb (Js.lower_char a) (Js.lower_char c) && prefix_ci needle' s'
  | String _ _, EmptyString => false
  end.

(** Case-insensitive substring test. *)
Fixpoint includes_ci (needle s : string) : bool :=
  prefix_ci needle s ||
  match s with
  | EmptyString => false
  | String _ s' => includes_ci needle s'
  end.

(** Patterns made of letters, digits and [.]: a letter or digit stands
    for itself in either case, [.] for any character but a line
    terminator; the pattern may match anywhere in the subject. *)
Definition pattern_char (p c : ascii) : bool :=
  if Ascii.eqb p "." then negb (Js.is_line_terminator c)
  else Ascii.eqb (Js.lower_char p) (Js.lower_char c).

Fixpoint match_here (pattern s : string) : bool :=
  match pattern, s with
  | EmptyString, _ => true
  | String p pattern', String c s' => pattern_char p c && match_here pattern' s'
  | String _ _, EmptyString => false
  end.

Fixpoint search_pattern (pattern s : string) : bool :=
  match_here pattern s ||
  match s with
  | EmptyString => false
  | String _ s' => search_pattern pattern s'
  end.

Definition simple_pattern (pattern : string) : bool :=
  Js.all_chars (fun c => Js.is_alnum c || Ascii.eqb c ".") pattern.

(** An engine for these patterns; it takes no other. *)
Definition simple_engine (pattern : string) : option (string -> bool) :=
  if simple_pattern pattern then Some (search_pattern pattern) else None.

(** A search string without pattern syntax: letters and digits only. *)
Definition plain (s : string) : bool := Js.all_chars Js.is_alnum s.

(** An engine reads a plain pattern as a case-insensitive substring. *)
Definition literal_on_plain (rx : string -> option (string -> bool)) : Prop :=
  forall pattern, plain pattern = true ->
    exists m, rx pattern = Some m /\ forall s, m s = includes_ci pattern s.

(** ** Vocabulary of the properties *)

Definition no_password (o : Obj) : Prop := o !! "password" = None.

(** The records sent by a run, none if the run threw. *)
Definition sent_records (o : Outcome Response * World) : list Obj :=
  match response o with
  | Some r => returned_records r
  | None => []
  end.

(** A computation whose response, if it returns one, carries no password. *)
Definition clean (m : M Response) : Prop :=
  forall w, Forall no_password (sent_records (m w)).

(** A computation that always responds, with no password. *)
Definition responds_clean (m : M Response) : Prop :=
  forall w, exists r w',
    m w = (Returned r, w') /\ Forall no_password (returned_records r).

(** The document a login with [e] looks up: the first one whose email is
    [e] in lower case, trimmed. *)
Definition login_key (e : string) : string := set_email (Js.toLowerCase e).

Definition user_by_email (docs : list Doc) (e : string) : option Doc :=
  List.find (fun d => String.eqb (email d) (login_key e)) docs.

Definition logged (o : Op) (w : World) : World :=
  mkWorld (db w) (trace w ++ [o]).


(** ** Sample data of the examples *)


Definition sample_env : Env :=
  mkEnv 1700000000000 [1; 2; 3; 4; 5; 6; 7; 8]%N 3%N "salt" None simple_engine.

Definition sample_origin : Origin := mkOrigin "http" (Some "localhost:3000").

Definition alice : Doc :=
  mkDoc 1 "alice" "alice@x.com" (bcrypt_hash "s1" "password123" 12)
    default_profilePicture "student" 100 100.

Definition bob : Doc :=
  mkDoc 2 "bob" "bob@x.com" (bcrypt_hash "s2" "correct horse" 12)
    default_profilePicture "instructor" 200 200.

Definition sample_world : World := mkWorld [alice; bob] [].

Definition alice_id : string := "000000000000000000000001".

Definition sample_png : FilePart :=
  mkFilePart "profilePicture" "My Cat.PNG" "image/png" (4 * 1024 * 1024).

Definition sample_bmp : FilePart :=
  mkFilePart "profilePicture" "cat.bmp" "image/bmp" 1000.

Definition sample_tiff : FilePart :=
  mkFilePart "profilePicture" "scan.tiff" "image/tiff" 1000.

Definition sample_pdf : FilePart :=
  mkFilePart "profilePicture" "paper.png" "application/pdf" 1000.

Definition carol_registration : RegisterBody :=
  mkRegisterBody (Some "carol") (Some "carol@x.com") (Some "password123") None.

Definition sample_bytes : list N := [1; 2; 3; 4; 5; 6; 7; 8]%N.

Definition bmp_url : string :=
  "http://localhost:3000/uploads/profile-pictures/cat-1700000000000-0102030405060708.bmp".

Definition tiff_url : string :=
  "http://localhost:3000/uploads/profile-pictures/scan-1700000000000-0102030405060708.tiff".

Definition png_url : string :=
  "http://localhost:3000/uploads/profile-pictures/My_Cat-1700000000000-0102030405060708.png".

(** The names of the claims in a token issued at login. *)
Definition token_claim_names : gset string :=
  {[ "userId"; "email"; "username"; "role"; "iat"; "exp" ]}.

(** The record created for [carol_registration] with [sample_png]. *)
Definition carol : Doc :=
  mkDoc 3 "carol" "carol@x.com" (bcrypt_hash "salt" "password123" 12)
    png_url "student" 1700000000000 1700000000000.

(** The input checks a registration passes before the look-up: the three
    fields are present, the password has nine characters or more, the
    email has the expected shape. *)
Definition passes_input_checks (body : RegisterBody) : bool :=
  Js.truthy (reg_username body) && Js.truthy (reg_email body)
  && Js.truthy (reg_password body)
  && negb (Js.len (Js.str (reg_password body)) <? 9)
  && Regex.matches emailRegex (Js.str (reg_email body)).

(** Stored emails are in the form the setters give them. *)
Definition emails_normalised (docs : list Doc) : Prop :=
  Forall (fun d => set_email (email d) = email d) docs.

Definition email_conflict : string := "User with this email already exists.".
Definition username_conflict : string := "Username is already taken.".




(** The filter of the listing as the code builds it: the role is matched
    exactly, and the pattern is matched against the username or the
    email. *)
Definition selected (r : option string) (m : string -> bool) (d : Doc) : bool :=
  (if Js.truthy r then String.eqb (role d) (Js.str r) else true)
  && (m (username d) || m (email d)).




(** A file of exactly 5 MB, of an allowed type. *)
Definition sample_5mb : FilePart :=
  mkFilePart "profilePicture" "photo.png" "image/png" (5 * 1024 * 1024).

Definition listing_of (docs : list Doc) : list Obj :=
  map (fun d => serialize (select_minus "password" d)) docs.

(** ** Invariants of the store *)

(** A string that is empty or starts with a character that is not white
    space. *)
Definition starts_clean (s : string) : Prop :=
  match s with
  | EmptyString => True
  | String c _ => Js.is_space c = false
  end.

(** Identifiers are distinct and emails are in normal form. *)
Definition store_ok (docs : list Doc) : Prop :=
  List.NoDup (map _id docs) /\ emails_normalised docs.

(** A computation that keeps the store well formed: from a well-formed
    store satisfying [P], it leaves a well-formed store, which satisfies
    [Q a] when [a] is returned. *)
Definition keeps {A} (P : list Doc -> Prop) (m : M A) (Q : A -> list Doc -> Prop)
    : Prop :=
  forall w, store_ok (db w) -> P (db w) ->
    store_ok (db (snd (m w))) /\
    match fst (m w) with
    | Returned a => Q a (db (snd (m w)))
    | Thrown _ => True
    end.

Definition anything : list Doc -> Prop := fun _ => True.
Definition any_result {A} : A -> list Doc -> Prop := fun _ _ => True.

(** What a look-up returns is a record of the store. *)
Definition found_in (o : option Doc) (docs : list Doc) : Prop :=
  forall u, o = Some u -> In u docs.

(** ** The remaining helpers of [config/multer.js] *)

(** [s.split("/")]: the pieces between the slashes, at least one. *)
Fixpoint split_slash (s : string) : list string :=
  match s with
  | EmptyString => [EmptyString]
  | String c s' =>
      if Ascii.eqb c "/" then EmptyString :: split_slash s'
      else
        match split_slash s' with
        | piece :: pieces => String c piece :: pieces
        | [] => [String c EmptyString]
        end
  end.

(** [null] for a missing URL, else [parts[parts.length - 1]]. *)
Definition extractFilenameFromUrl (url : option string) : option string :=
  if negb (Js.truthy url) then None
  else
    let parts := split_slash (Js.str url) in
    Some (List.last parts "undefined").

(** ** How a request may change the store *)

(** The record [saved] in the place of the record with its identifier. *)
Definition replace_doc (saved : Doc) (docs : list Doc) : list Doc :=
  map (fun x => if has_id (_id saved) x then saved else x) docs.

(** A record the schema accepts: a username of 3 to 20 characters, an
    email and a picture URL of the expected shapes, a role of the
    enumeration. *)
Definition well_formed (d : Doc) : Prop :=
  3 <= Js.len (username d) <= 20 /\
  Regex.matches emailRegex (email d) = true /\
  Regex.matches profilePictureRegex (profilePicture d) = true /\
  In (role d) role_enum.

(** One write at most: nothing, a record added at the end, the record
    with an identifier removed, or a record replaced in place by one with
    the same identifier, digest and creation time. What is written is
    accepted by the schema and violates no unique index. *)
Inductive change (l : list Doc) : list Doc -> Prop :=
| unchanged : change l l
| inserted (d : Doc) :
    unique_violation d l = None ->
    well_formed d ->
    change l (l ++ [d])
| removed (oid : N) :
    existsb (has_id oid) l = true ->
    change l (remove_first (has_id oid) l)
| replaced (user saved : Doc) :
    List.find (has_id (_id user)) l = Some user ->
    _id saved = _id user ->
    password saved = password user ->
    createdAt saved = createdAt user ->
    unique_violation saved (List.filter (fun x => negb (has_id (_id saved) x)) l) = None ->
    well_formed saved ->
    change l (replace_doc saved l).

(** Usernames are pairwise distinct, and so are emails. *)
Definition unique_identities (docs : list Doc) : Prop :=
  List.NoDup (map username docs) /\ List.NoDup (map email docs).

(** A run that answered, changed the store by one write at most, and left
    it as it was if the answer reports a failure. *)
Definition single_write (l : list Doc) (o : Outcome Response * World) : Prop :=
  match fst o with
  | Returned resp =>
      change l (db (snd o)) /\ (success resp = false -> db (snd o) = l)
  | Thrown _ => False
  end.

(** The records whose identifier is not [oid], in their order. *)
Definition others (oid : N) (docs : list Doc) : list Doc :=
  List.filter (fun d => negb (has_id oid d)) docs.

(** The routes that only read: login, listing, single user. *)
Definition reads_only (r : Request) : bool :=
  match r with
  | PostLogin _ | GetUsers _ | GetUser _ => true
  | _ => false
  end.

(** ** Classes of a pattern *)

(** Every character class of [r] satisfies [P]. *)
Fixpoint classes (P : (ascii -> bool) -> Prop) (r : Regex.re) : Prop :=
  match r with
  | Regex.Void | Regex.Eps => True
  | Regex.Cls p => P p
  | Regex.Cat r s | Regex.Alt r s => classes P r /\ classes P s
  | Regex.Star r => classes P r
  end.

(** The record a successful registration stores. *)
Definition registered (env : Env) (body : RegisterBody) (picture : option string)
    : Doc :=
  mkDoc (newObjectId env)
    (set_username (Js.str (reg_username body)))
    (set_email (Js.str (reg_email body)))
    (bcrypt_hash (bcryptSalt env) (Js.str (reg_password body)) 12)
    (default default_profilePicture picture)
    (if Js.truthy (reg_role body) then Js.str (reg_role body) else "student")
    (now env) (now env).

(** The look-up a registration makes. *)
Definition register_lookup (body : RegisterBody) : Op :=
  OpFindOne (Or (Eq FEmail (Js.str (reg_email body)))
                (Eq FUsername (Js.str (reg_username body)))).

(** The test of the registration's look-up: a record with the email or
    with the username, both in the form the setters give them. *)
Definition collides (body : RegisterBody) (d : Doc) : bool :=
  String.eqb (email d) (set_email (Js.str (reg_email body)))
  || String.eqb (username d) (set_username (Js.str (reg_username body))).

(** The same listing, another page. *)
Definition with_page (p : Z) (q : ListQuery) : ListQuery :=
  mkListQuery (Some p) (q_limit q) (q_role q) (q_search q).

(** Alice after she took the username alicia. *)
Definition alicia : Doc :=
  mkDoc 1 "alicia" "alice@x.com" (bcrypt_hash "s1" "password123" 12)
    default_profilePicture "student" 100 1700000000000.

(** Alice after she uploaded [sample_png]. *)
Definition alice_with_picture : Doc :=
  mkDoc 1 "alice" "alice@x.com" (bcrypt_hash "s1" "password123" 12)
    png_url "student" 100 1700000000000.

(** The characters of a stored file name: letters, digits, [_], [-], [.]. *)
Definition name_char (c : ascii) : bool :=
  Js.is_alnum c || Ascii.eqb c "_" || Ascii.eqb c "-" || Ascii.eqb c ".".

Definition not_slash (c : ascii) : bool := negb (Ascii.eqb c "/").

(** ** Comparing patterns *)

(** [weaker r r']: [r'] has the shape of [r] with larger classes, or more
    alternatives where [r] has none. *)
Inductive weaker : Regex.re -> Regex.re -> Prop :=
| weaker_refl r : weaker r r
| weaker_void r : weaker Regex.Void r
| weaker_cls (p q : ascii -> bool) :
    (forall c, p c = true -> q c = true) -> weaker (Regex.Cls p) (Regex.Cls q)
| weaker_cat r r' s s' : weaker r r' -> weaker s s' ->
    weaker (Regex.Cat r s) (Regex.Cat r' s')
| weaker_alt r r' s s' : weaker r r' -> weaker s s' ->
    weaker (Regex.Alt r s) (Regex.Alt r' s').

(** The extensions the schema's validator of [profilePicture] knows. *)
Definition schema_extensions : list string :=
  [ ".png"; ".jpg"; ".jpeg"; ".gif"; ".webp" ].

(** A host without line terminators, as a Host header is; a request
    without the header prints as [undefined]. *)
Definition clean_host (origin : Origin) : Prop :=
  Js.all_chars (fun c => negb (Js.is_line_terminator c)) (Js.str (host origin)) = true.

Definition web_scheme (origin : Origin) : Prop :=
  protocol origin = "http" \/ protocol origin = "https".

(** The extension the upload filter and the storage read off a file. *)
Definition extension_of (file : FilePart) : string :=
  Js.toLowerCase (Path.extname (originalname file)).

(** The shape shared by the two URL patterns: [L] spells a literal, [C] a
    character, [exts] lists the extensions without their dot. *)
Definition url_pattern (L : string -> Regex.re) (C : ascii -> Regex.re)
    (exts : list string) : Regex.re :=
  Regex.Cat (L "http")
    (Regex.Cat (Regex.Opt (C "s"%char))
       (Regex.Cat (L "://")
          (Regex.Cat (Regex.Star Regex.Dot)
             (Regex.Cat (Regex.Chr ".") (Regex.OneOf (map L exts)))))).

Definition dot_char (c : ascii) : bool := negb (Js.is_line_terminator c).

(** What precedes the extension in the URL of a stored file, after the
    scheme. *)
Definition url_stem (origin : Origin) (timestamp : Z) (bytes : list N)
    (file : FilePart) : string :=
  Js.str (host origin) ++ "/uploads/profile-pictures/"
  ++ Js.take 20
       (Js.map_chars (fun c => if Js.is_alnum c then c else "_"%char)
          (Path.parse_name (originalname file)))
  ++ "-" ++ pretty timestamp ++ "-" ++ Js.hex bytes.

(** The guard of a changed identity value in the profile update: the
    value is supplied, differs from the user's current one as a string,
    and some record holds it in the form the schema's setters give it. *)
Definition held (f : Field) (supplied : option string) (current : string)
    (docs : list Doc) : Prop :=
  Js.truthy supplied = true /\
  Js.str supplied <> current /\
  exists d, In d docs /\ get_field f d = cast_value f (Js.str supplied).

(** The file part a request carries to a route behind the upload
    middleware. *)
Definition upload_part (r : Request) : option FilePart :=
  match r with
  | PostRegister _ _ file | PutUser _ _ _ file | PutUserPicture _ _ file => file
  | _ => None
  end.

(** ** Strings with code units outside ASCII *)

(** U+00E9 and U+00C9, the letter e with an acute accent in lower and in
    upper case; U+00E4 and U+00F6; the no-break space U+00A0. *)
Definition e_acute : ascii := "233"%char.
Definition E_acute : ascii := "201"%char.
Definition a_umlaut : ascii := "228"%char.
Definition o_umlaut : ascii := "246"%char.
Definition nbsp : ascii := "160"%char.

(** A password of eight characters, two of them outside ASCII (ten bytes
    in UTF-8). *)
Definition passwort : string :=
  String "p" (String a_umlaut (String "s" (String "s" (String "w"
    (String o_umlaut (String "r" (String "d" EmptyString))))))).

(** A username of eleven characters, each two bytes long in UTF-8. *)
Definition eleven_accents : string :=
  Js.map_chars (fun _ => e_acute) "12345678901".

(** An email whose first letter is U+00C9, entirely in upper case or
    entirely in lower case but for the domain. *)
Definition ECOLE : string := String E_acute "COLE@x.com".
Definition ecole : string := String e_acute "cole@x.com".

(** A record that holds this email. *)
Definition eve : Doc :=
  mkDoc 4 "eve" ecole (bcrypt_hash "s4" "password123" 12)
    default_profilePicture "student" 300 300.
(** * Properties *)

(** ** Running handlers *)

Lemma bind_returned {A B} (m : M A) (k : A -> M B) w a w' :
  m w = (Returned a, w') -> bind m k w = k a w'.
Proof. intros H. unfold bind. now rewrite H. Qed.

Lemma bind_thrown {A B} (m : M A) (k : A -> M B) w e w' :
  m w = (Thrown e, w') -> bind m k w = (Thrown e, w').
Proof. intros H. unfold bind. now rewrite H. Qed.

Lemma toJSON_no_password d : no_password (toJSON d).
Proof. unfold no_password, toJSON. apply lookup_delete_eq. Qed.

Lemma serialize_no_password o : no_password (serialize o).
Proof. unfold no_password, serialize. apply lookup_delete_eq. Qed.

Lemma clean_ret_reply st ok msg : clean (ret (reply st ok msg)).
Proof. intros w. constructor. Qed.

Lemma clean_ret_with_user st msg d : clean (ret (with_user st msg d)).
Proof.
  intros w. unfold sent_records, response, with_user, returned_records; simpl.
  constructor; [apply toJSON_no_password | constructor].
Qed.

Lemma clean_throw e : clean (throw e).
Proof. intros w. constructor. Qed.

Lemma clean_bind {A} (m : M A) (k : A -> M Response) :
  (forall a, clean (k a)) -> clean (bind m k).
Proof.
  intros Hk w. unfold bind.
  destruct (m w) as [[a|e] w'].
  - apply Hk.
  - constructor.
Qed.

Lemma responds_clean_reply st ok msg : responds_clean (ret (reply st ok msg)).
Proof. intros w. exists (reply st ok msg), w. split; [reflexivity | constructor]. Qed.

Lemma responds_clean_validation msgs : responds_clean (ret (validation_error msgs)).
Proof. intros w. exists (validation_error msgs), w. split; [reflexivity | constructor]. Qed.

Lemma responds_clean_upload e : responds_clean (ret (handleMulterError e)).
Proof.
  intros w. exists (handleMulterError e), w. split; [reflexivity |].
  destruct e as [code | msg]; simpl.
  - repeat (destruct (String.eqb _ _)); constructor.
  - constructor.
Qed.

Lemma responds_clean_try (body : M Response) (handler : exn -> M Response) :
  clean body -> (forall e, responds_clean (handler e)) ->
  responds_clean (try_catch body handler).
Proof.
  intros Hb Hh w. unfold try_catch.
  specialize (Hb w). unfold sent_records, response in Hb.
  destruct (body w) as [[r|e] w']; simpl in Hb.
  - exists r, w'. split; [reflexivity | exact Hb].
  - apply Hh.
Qed.

Create HintDb clean discriminated.
#[export] Hint Resolve clean_ret_reply clean_ret_with_user clean_throw
  responds_clean_reply responds_clean_validation responds_clean_upload
  toJSON_no_password serialize_no_password : clean.

Ltac clean_step :=
  match goal with
  | |- clean (let _ := _ in _) => cbv zeta
  | |- clean (bind _ _) => apply clean_bind; intros
  | |- clean (if ?b then _ else _) => destruct b
  | |- clean (match ?x with _ => _ end) => destruct x
  | |- clean _ => solve [auto with clean]
  end.

Lemma createAuth_responds_clean env origin body file :
  responds_clean (createAuth env origin body file).
Proof.
  apply responds_clean_try.
  - repeat clean_step.
  - intros e. unfold internal_error.
    destruct e as [msgs | c kp | p]; auto with clean.
    repeat (match goal with |- responds_clean (match ?x with _ => _ end) =>
                              destruct x end); auto with clean.
Qed.

Lemma loginAuth_responds_clean env body : responds_clean (loginAuth env body).
Proof.
  apply responds_clean_try.
  - repeat clean_step.
    intros w. unfold sent_records, response, returned_records; simpl.
    constructor; [apply toJSON_no_password | constructor].
  - intros e. unfold internal_error. auto with clean.
Qed.

Lemma updateUserProfile_responds_clean env origin userId body file :
  responds_clean (updateUserProfile env origin userId body file).
Proof.
  apply responds_clean_try.
  - unfold not_found. repeat clean_step.
  - intros e. unfold internal_error. destruct e; auto with clean.
Qed.

Lemma updateProfilePicture_responds_clean env origin userId file :
  responds_clean (updateProfilePicture env origin userId file).
Proof.
  apply responds_clean_try.
  - unfold not_found. repeat clean_step.
  - intros e. unfold internal_error. auto with clean.
Qed.

Lemma getSingleUser_responds_clean env userId :
  responds_clean (getSingleUser env userId).
Proof.
  apply responds_clean_try.
  - unfold not_found. repeat clean_step.
  - intros e. unfold internal_error. auto with clean.
Qed.

Lemma getAllUsers_responds_clean env q : responds_clean (getAllUsers env q).
Proof.
  apply responds_clean_try.
  - repeat clean_step.
    intros w. unfold sent_records, response, returned_records; simpl.
    apply Forall_forall. intros o Ho. apply list_elem_of_In, in_map_iff in Ho.
    destruct Ho as [d [<- _]]. apply serialize_no_password.
  - intros e. unfold internal_error. auto with clean.
Qed.

Lemma deleteUser_responds_clean env userId : responds_clean (deleteUser env userId).
Proof.
  apply responds_clean_try.
  - unfold not_found. repeat clean_step.
  - intros e. unfold internal_error. auto with clean.
Qed.

Lemma with_upload_responds_clean env file handler :
  (forall f, responds_clean (handler f)) ->
  responds_clean (with_upload env file handler).
Proof.
  intros H. unfold with_upload.
  destruct (uploadProfilePicture _ _ _); auto with clean.
Qed.

(** C1. Every request on every route is answered, and no user record in
    the answer has a [password] field: the records of Register, Login,
    UpdateProfile, UpdatePictureOnly and GetById pass through [toJSON],
    those of List through the [-password] selection. *)
Theorem returned_records_omit_password (env : Env) (r : Request) (w : World) :
  exists resp w',
    route env r w = (Returned resp, w') /\
    Forall (fun o : Obj => o !! "password" = None) (returned_records resp).
Proof.
  destruct r; simpl.
  - apply with_upload_responds_clean. intros f. apply createAuth_responds_clean.
  - apply loginAuth_responds_clean.
  - apply getAllUsers_responds_clean.
  - apply getSingleUser_responds_clean.
  - apply with_upload_responds_clean. intros f. apply updateUserProfile_responds_clean.
  - apply with_upload_responds_clean. intros f. apply updateProfilePicture_responds_clean.
  - apply deleteUser_responds_clean.
Qed.

(** ** Login *)

Lemma Auth_findOne_Eq env f v w :
  Auth_findOne env (Eq f v) w =
  (Returned (List.find (fun d => String.eqb (get_field f d) (cast_value f v)) (db w)),
   logged (OpFindOne (Eq f v)) w).
Proof. reflexivity. Qed.

Lemma find_none_of_Forall {A} (p : A -> bool) (l : list A) :
  Forall (fun x => p x = false) l -> List.find p l = None.
Proof.
  induction 1 as [|x l Hx _ IH]; simpl; [reflexivity|]. now rewrite Hx.
Qed.

Lemma loginAuth_unknown_email env body w :
  Js.truthy (login_email body) = true ->
  Js.truthy (login_password body) = true ->
  user_by_email (db w) (Js.str (login_email body)) = None ->
  fst (loginAuth env body w) = Returned (reply 401 false "Invalid email or password.").
Proof.
  intros He Hp Hu. unfold loginAuth, try_catch. rewrite He, Hp. simpl.
  unfold bind at 1. rewrite Auth_findOne_Eq.
  unfold user_by_email, login_key in Hu. simpl. rewrite Hu. reflexivity.
Qed.

Lemma loginAuth_wrong_password env body w user :
  Js.truthy (login_email body) = true ->
  Js.truthy (login_password body) = true ->
  user_by_email (db w) (Js.str (login_email body)) = Some user ->
  bcrypt_compare (Js.str (login_password body)) (password user) = false ->
  fst (loginAuth env body w) = Returned (reply 401 false "Invalid email or password.").
Proof.
  intros He Hp Hu Hc. unfold loginAuth, try_catch. rewrite He, Hp. simpl.
  unfold bind at 1. rewrite Auth_findOne_Eq.
  unfold user_by_email, login_key in Hu. simpl. rewrite Hu.
  unfold bind, comparePassword, log, ret; simpl. rewrite Hc. reflexivity.
Qed.

(** C2. A login whose email no record holds and a login whose password
    does not verify against the stored digest of the record found are
    answered by the same response: status 401 and the message
    "Invalid email or password.", whatever the stores and the inputs. *)
Theorem login_failures_are_uniform
    (env1 env2 : Env) (b1 b2 : LoginBody) (w1 w2 : World) (user : Doc) :
  Js.truthy (login_email b1) = true ->
  Js.truthy (login_password b1) = true ->
  Forall (fun d => email d <> login_key (Js.str (login_email b1))) (db w1) ->
  Js.truthy (login_email b2) = true ->
  Js.truthy (login_password b2) = true ->
  user_by_email (db w2) (Js.str (login_email b2)) = Some user ->
  bcrypt_compare (Js.str (login_password b2)) (password user) = false ->
  exists r,
    fst (loginAuth env1 b1 w1) = Returned r /\
    fst (loginAuth env2 b2 w2) = Returned r /\
    status r = 401 /\
    message r = "Invalid email or password." /\
    r = reply 401 false "Invalid email or password.".
Proof.
  intros He1 Hp1 Hun He2 Hp2 Hu Hc.
  exists (reply 401 false "Invalid email or password.").
  split; [| split; [| repeat split]].
  - apply loginAuth_unknown_email; try assumption.
    apply find_none_of_Forall.
    eapply Forall_impl; [exact Hun |]. simpl. intros d Hd.
    now apply String.eqb_neq.
  - eapply loginAuth_wrong_password; eassumption.
Qed.

(** C10. A login without an email or without a password (absent or
    empty) is answered 400 "Email and password are required."; the world
    is left as it was: the store is unchanged and no look-up and no
    password verification has been recorded. *)
Theorem login_requires_email_and_password (env : Env) (body : LoginBody) (w : World) :
  Js.truthy (login_email body) = false \/ Js.truthy (login_password body) = false ->
  loginAuth env body w =
    (Returned (reply 400 false "Email and password are required."), w).
Proof.
  intros H. unfold loginAuth, try_catch.
  destruct H as [H | H]; rewrite H; simpl.
  - reflexivity.
  - now rewrite orb_true_r.
Qed.

Lemma login_failures_are_uniform_witness :
  exists r,
    fst (loginAuth sample_env (mkLoginBody (Some "nobody@x.com") (Some "password123"))
           sample_world) = Returned r /\
    fst (loginAuth sample_env (mkLoginBody (Some "Alice@x.com") (Some "password124"))
           sample_world) = Returned r /\
    status r = 401 /\
    message r = "Invalid email or password." /\
    r = reply 401 false "Invalid email or password.".
Proof.
  apply (login_failures_are_uniform sample_env sample_env
           (mkLoginBody (Some "nobody@x.com") (Some "password123"))
           (mkLoginBody (Some "Alice@x.com") (Some "password124"))
           sample_world sample_world alice).
  - reflexivity.
  - reflexivity.
  - repeat constructor; vm_compute; discriminate.
  - reflexivity.
  - reflexivity.
  - reflexivity.
  - reflexivity.
Defined.

Lemma login_requires_email_and_password_witness :
  loginAuth sample_env (mkLoginBody (Some "alice@x.com") (Some EmptyString))
    sample_world =
  (Returned (reply 400 false "Email and password are required."), sample_world).
Proof.
  apply (login_requires_email_and_password sample_env
           (mkLoginBody (Some "alice@x.com") (Some EmptyString)) sample_world).
  right. reflexivity.
Defined.

(** ** Uploads *)

Lemma includes_In (l : list string) (s : string) :
  Js.includes l s = true <-> In s l.
Proof.
  unfold Js.includes. rewrite existsb_exists. split.
  - intros [x [Hx He]]. apply String.eqb_eq in He. now subst.
  - intros H. exists s. split; [assumption | apply String.eqb_refl].
Qed.

Lemma fileFilter_accepts (file : FilePart) :
  (exists b, fileFilter file = inr b) <->
  In (mimetype file) allowedMimeTypes /\
  In (Js.toLowerCase (Path.extname (originalname file))) allowedExtensions.
Proof.
  unfold fileFilter. rewrite <- !includes_In.
  destruct (Js.includes allowedMimeTypes _), (Js.includes allowedExtensions _);
    simpl; split; try (intros [b Hb]; discriminate Hb); try (intros [? ?]; discriminate);
    eauto.
Qed.

Lemma handleMulterError_structured (e : UploadError) :
  status (handleMulterError e) = 400 /\
  success (handleMulterError e) = false /\
  is_Some (error (handleMulterError e)).
Proof.
  destruct e as [code | msg]; simpl.
  - repeat (destruct (String.eqb _ _)); simpl; eauto.
  - eauto.
Qed.

Lemma storage_filename_truthy (timestamp : Z) (bytes : list N) (file : FilePart) :
  Js.truthy (Some (storage_filename timestamp bytes file)) = true.
Proof.
  unfold storage_filename. cbv zeta.
  destruct (Js.take 20 _); reflexivity.
Qed.

(** Behind the upload middleware the derived URL is always a string: the
    scheme, the host, the fixed prefix and the stored name. *)
Lemma uploaded_url_of_upload (timestamp : Z) (bytes : list N) (p : option FilePart)
    (f : UploadedFile) (origin : Origin) :
  uploadProfilePicture timestamp bytes p = inr (Some f) ->
  uploaded_url origin f =
    Some (protocol origin ++ "://" ++ Js.str (host origin)
          ++ "/uploads/profile-pictures/" ++ filename f).
Proof.
  unfold uploadProfilePicture. destruct p as [file |]; [| discriminate].
  destruct (is_empty _); [discriminate |].
  destruct (negb _); [discriminate |].
  destruct (fileFilter file); [discriminate |].
  destruct (fileSize <=? size file); [discriminate |].
  intros H. injection H as <-. unfold uploaded_url, generateImageUrl. simpl filename.
  now rewrite storage_filename_truthy.
Qed.

(** C8, as the code has it. A file sent under the upload field is accepted
    exactly when its MIME type is on the allow-list, the lower-cased
    extension of its name is on the allow-list and its size is below
    5 MB: a file of 5 * 1024 * 1024 bytes is already refused. A file of
    type application/pdf is never accepted, whatever its name, and when
    it has a name it is rejected with an error. Every rejection is
    answered by the error middleware with status 400, [success: false]
    and an error code, and the handler behind the upload does not run. *)
Theorem upload_accepts_iff (timestamp : Z) (bytes : list N) (file : FilePart) :
  fieldname file = "profilePicture" ->
  ((exists f, uploadProfilePicture timestamp bytes (Some file) = inr (Some f)) <->
   In (mimetype file) allowedMimeTypes /\
   In (Js.toLowerCase (Path.extname (originalname file))) allowedExtensions /\
   size file < 5 * 1024 * 1024) /\
  (forall any : FilePart, mimetype any = "application/pdf" ->
     (forall f, uploadProfilePicture timestamp bytes (Some any) <> inr (Some f)) /\
     (originalname any <> EmptyString ->
      exists e, uploadProfilePicture timestamp bytes (Some any) = inl e)) /\
  (forall (any : FilePart) (e : UploadError),
     uploadProfilePicture timestamp bytes (Some any) = inl e ->
     status (handleMulterError e) = 400 /\
     success (handleMulterError e) = false /\
     is_Some (error (handleMulterError e)) /\
     forall env handler w,
       now env = timestamp -> randomBytes env = bytes ->
       with_upload env (Some any) handler w = (Returned (handleMulterError e), w)).
Proof.
  intros Hfield. split; [| split].
  - unfold uploadProfilePicture.
    destruct (originalname file) as [|c name] eqn:Hname; simpl.
    { split; [intros [f Hf]; discriminate Hf |].
      intros (_ & Hx & _). vm_compute in Hx. intuition discriminate. }
    rewrite Hfield. simpl.
    pose proof (fileFilter_accepts file) as Hff. rewrite Hname in Hff.
    destruct (fileFilter file) as [e | b].
    + split.
      * intros [f Hf]. discriminate Hf.
      * intros (Hm & Hx & _). destruct Hff as [_ Hff].
        destruct (Hff (conj Hm Hx)) as [b Hb]. discriminate Hb.
    + destruct Hff as [Hff _]. destruct (Hff (ex_intro _ b eq_refl)) as [Hm Hx].
      unfold fileSize. destruct (Z.leb_spec (5 * 1024 * 1024) (size file)).
      * split; [intros [f Hf]; discriminate Hf | intros (_ & _ & Hs); lia].
      * split; [intros _; repeat split; assumption | intros _; eauto].
  - intros any Hpdf.
    assert (Hff : fileFilter any = inl (PlainError invalid_file_type)).
    { unfold fileFilter. now rewrite Hpdf. }
    unfold uploadProfilePicture. rewrite Hff. split.
    + intros f. destruct (is_empty _); [discriminate |].
      destruct (negb _); discriminate.
    + intros Hname. destruct (originalname any); [congruence |]. simpl.
      destruct (negb _); eauto.
  - intros any e He.
    destruct (handleMulterError_structured e) as (H1 & H2 & H3).
    repeat split; try assumption.
    intros env handler w Hn Hb. unfold with_upload. rewrite Hn, Hb, He. reflexivity.
Qed.

Lemma upload_accepts_iff_witness :
  (exists f, uploadProfilePicture 1700000000000 [1; 2; 3; 4; 5; 6; 7; 8]%N
               (Some sample_png) = inr (Some f)) /\
  (exists e, uploadProfilePicture 1700000000000 [1; 2; 3; 4; 5; 6; 7; 8]%N
               (Some sample_pdf) = inl e).
Proof.
  destruct (upload_accepts_iff 1700000000000 [1; 2; 3; 4; 5; 6; 7; 8]%N sample_png)
    as (Hiff & Hpdf & _).
  - reflexivity.
  - split.
    + apply Hiff. split; [| split].
      * vm_compute. tauto.
      * vm_compute. tauto.
      * vm_compute. reflexivity.
    + apply Hpdf; [reflexivity | discriminate].
Defined.

(** C8 as stated fails at the limit itself: a png of exactly 5 MB, of an
    allowed type and extension and of size at most 5 MB, is refused with
    the error of a file too large, answered 400 FILE_TOO_LARGE. *)
Lemma upload_at_the_limit_counterexample :
  fieldname sample_5mb = "profilePicture" /\
  In (mimetype sample_5mb) allowedMimeTypes /\
  In (Js.toLowerCase (Path.extname (originalname sample_5mb))) allowedExtensions /\
  size sample_5mb <= 5 * 1024 * 1024 /\
  uploadProfilePicture 1700000000000 [1; 2; 3; 4; 5; 6; 7; 8]%N (Some sample_5mb)
    = inl (MulterError "LIMIT_FILE_SIZE") /\
  handleMulterError (MulterError "LIMIT_FILE_SIZE")
    = upload_reply "File size too large. Maximum size allowed is 5MB." "FILE_TOO_LARGE".
Proof.
  split; [reflexivity |].
  split; [vm_compute; tauto |].
  split; [vm_compute; tauto |].
  split; [vm_compute; discriminate |].
  split; vm_compute; reflexivity.
Qed.

(** ** Delete *)

Lemma find_existsb {A} (p : A -> bool) (l : list A) :
  List.find p l = None <-> existsb p l = false.
Proof.
  induction l as [|x l IH]; simpl; [tauto|].
  destruct (p x); simpl; [split; discriminate | exact IH].
Qed.

Lemma find_is_Some_existsb {A} (p : A -> bool) (l : list A) :
  existsb p l = true -> exists x, List.find p l = Some x.
Proof.
  intros H. destruct (List.find p l) as [x|] eqn:E; [eauto|].
  apply find_existsb in E. congruence.
Qed.

Lemma filter_without_id (oid : N) (l : list Doc) :
  existsb (has_id oid) l = false ->
  List.filter (fun d => negb (has_id oid d)) l = l.
Proof.
  induction l as [|x l IH]; simpl; [reflexivity|].
  destruct (has_id oid x); simpl; [discriminate | intros H; f_equal; auto].
Qed.

Lemma remove_first_absent {A} (p : A -> bool) (l : list A) :
  existsb p l = false -> remove_first p l = l.
Proof.
  induction l as [|x l IH]; simpl; [reflexivity|].
  destruct (p x); simpl; [discriminate | intros H; f_equal; auto].
Qed.

Lemma existsb_has_id_In (oid : N) (l : list Doc) :
  existsb (has_id oid) l = true -> In oid (map _id l).
Proof.
  induction l as [|x l IH]; simpl; [discriminate|].
  unfold has_id at 1. destruct (N.eqb_spec (_id x) oid); simpl; auto.
Qed.

Lemma remove_first_filter (oid : N) (l : list Doc) :
  List.NoDup (map _id l) ->
  remove_first (has_id oid) l = List.filter (fun d => negb (has_id oid d)) l.
Proof.
  induction l as [|x l IH]; simpl; [reflexivity|].
  intros Hnd. inversion Hnd as [|? ? Hnotin Hnd']; subst.
  destruct (has_id oid x) eqn:Hx; simpl.
  - symmetry. apply filter_without_id.
    destruct (existsb (has_id oid) l) eqn:E; [| reflexivity].
    exfalso. apply Hnotin.
    unfold has_id in Hx. apply N.eqb_eq in Hx. rewrite Hx.
    now apply existsb_has_id_In.
  - f_equal. now apply IH.
Qed.

Lemma filter_drops_id (oid : N) (l : list Doc) :
  Forall (fun d => _id d <> oid) (List.filter (fun d => negb (has_id oid d)) l).
Proof.
  apply Forall_forall. intros d Hd. apply list_elem_of_In, filter_In in Hd.
  destruct Hd as [_ Hd]. unfold has_id in Hd.
  destruct (N.eqb_spec (_id d) oid); [discriminate | assumption].
Qed.

Lemma existsb_after_filter (oid : N) (l : list Doc) :
  existsb (has_id oid) (List.filter (fun d => negb (has_id oid d)) l) = false.
Proof.
  induction l as [|x l IH]; simpl; [reflexivity|].
  destruct (has_id oid x) eqn:Hx; simpl; [assumption | now rewrite Hx].
Qed.

Lemma deleteUser_run env id oid w :
  castObjectId id = Some oid ->
  deleteUser env id w =
    (Returned (if existsb (has_id oid) (db w)
               then reply 200 true "User deleted successfully."
               else not_found),
     mkWorld (remove_first (has_id oid) (db w))
             (trace w ++ [OpFindByIdAndDelete id])).
Proof.
  intros Hid. unfold deleteUser, try_catch, Auth_findByIdAndDelete.
  unfold bind at 1. unfold bind at 1. simpl. rewrite Hid.
  unfold bind, get_db, put_db, ret; simpl.
  destruct (existsb (has_id oid) (db w)) eqn:E.
  - destruct (find_is_Some_existsb _ _ E) as [x Hx]. rewrite Hx. reflexivity.
  - apply find_existsb in E. rewrite E. reflexivity.
Qed.

(** C9, as the code has it. An identifier that is not well formed makes
    the look-up fail: the answer is 500 and the store is unchanged. For a
    well-formed identifier, in a store whose identifiers are distinct: the
    answer is 200 when a record has it and 404 otherwise; afterwards no
    record has it, and the store is unchanged when none had it; a second
    delete is answered 404 and changes nothing. *)
Theorem deleteUser_by_id (env : Env) (id : string) (w : World) :
  List.NoDup (map _id (db w)) ->
  let op := OpFindByIdAndDelete id in
  match castObjectId id with
  | None => deleteUser env id w = (Returned internal_error, logged op w)
  | Some oid =>
      let after := List.filter (fun d => negb (has_id oid d)) (db w) in
      deleteUser env id w =
        (Returned (if existsb (has_id oid) (db w)
                   then reply 200 true "User deleted successfully."
                   else reply 404 false "User not found."),
         mkWorld after (trace w ++ [op])) /\
      Forall (fun d => _id d <> oid) after /\
      (if existsb (has_id oid) (db w) then True else after = db w) /\
      deleteUser env id (mkWorld after (trace w ++ [op])) =
        (Returned (reply 404 false "User not found."),
         mkWorld after ((trace w ++ [op]) ++ [op]))
  end.
Proof.
  intros Hnd op. destruct (castObjectId id) as [oid|] eqn:Hid.
  - cbv zeta. split; [| split; [| split]].
    + rewrite (deleteUser_run env id oid w Hid).
      now rewrite remove_first_filter.
    + apply filter_drops_id.
    + destruct (existsb (has_id oid) (db w)) eqn:E; [exact I |].
      now apply filter_without_id.
    + rewrite (deleteUser_run env id oid _ Hid). simpl.
      rewrite existsb_after_filter. f_equal. f_equal.
      apply remove_first_absent, existsb_after_filter.
  - unfold deleteUser, try_catch, Auth_findByIdAndDelete.
    unfold bind at 1. unfold bind at 1. simpl. rewrite Hid. reflexivity.
Qed.

Lemma deleteUser_by_id_witness :
  deleteUser sample_env alice_id sample_world =
    (Returned (reply 200 true "User deleted successfully."),
     mkWorld [bob] [OpFindByIdAndDelete alice_id]) /\
  deleteUser sample_env alice_id (mkWorld [bob] [OpFindByIdAndDelete alice_id]) =
    (Returned (reply 404 false "User not found."),
     mkWorld [bob] [OpFindByIdAndDelete alice_id; OpFindByIdAndDelete alice_id]).
Proof.
  assert (Hnd : List.NoDup (map _id (db sample_world))).
  { repeat constructor; simpl; intuition discriminate. }
  pose proof (deleteUser_by_id sample_env alice_id sample_world Hnd) as H.
  cbv zeta in H. simpl in H. destruct H as (H1 & _ & _ & H2).
  split; [exact H1 | exact H2].
Defined.

(** C9 as stated fails on an identifier that is not well formed: no record
    has it, yet the answer is the internal error, not the not-found one. *)
Lemma deleteUser_malformed_id_counterexample :
  Forall (fun d => castObjectId "abc" <> Some (_id d)) (db sample_world) /\
  fst (deleteUser sample_env "abc" sample_world)
    = Returned (reply 500 false "Internal server error.") /\
  fst (deleteUser sample_env "abc" sample_world)
    <> Returned (reply 404 false "User not found.").
Proof.
  split; [| split].
  - repeat constructor; vm_compute; discriminate.
  - reflexivity.
  - vm_compute. discriminate.
Qed.

(** ** Registration with an uploaded picture *)

(** C3, at the inputs where the code departs from it. A registration
    that is valid in every field and carries a small bmp (or tiff) file
    passes the upload filter, and the URL derived from the request is
    accepted by the upload module's own [isValidImageUrl]; but the
    schema's validator of [profilePicture] knows neither extension, so
    the save fails and the registration is answered 400
    "Validation error." with nothing stored. The same registration with
    a png file is created with the derived URL. *)
Theorem register_with_bmp_or_tiff_is_rejected :
  (exists f, uploadProfilePicture (now sample_env) (randomBytes sample_env)
               (Some sample_bmp) = inr (Some f)) /\
  generateImageUrl (Some (storage_filename (now sample_env) (randomBytes sample_env)
                            sample_bmp)) sample_origin = Some bmp_url /\
  isValidImageUrl bmp_url = true /\
  validate_profilePicture bmp_url = Some (bmp_url ++ " is not a valid image URL!") /\
  fst (route sample_env (PostRegister sample_origin carol_registration (Some sample_bmp))
         sample_world)
    = Returned (validation_error [bmp_url ++ " is not a valid image URL!"]) /\
  db (snd (route sample_env
             (PostRegister sample_origin carol_registration (Some sample_bmp))
             sample_world)) = db sample_world /\
  fst (route sample_env (PostRegister sample_origin carol_registration (Some sample_tiff))
         sample_world)
    = Returned (validation_error [tiff_url ++ " is not a valid image URL!"]) /\
  route sample_env (PostRegister sample_origin carol_registration (Some sample_png))
    sample_world
    = (Returned (with_user 201 "User created successfully." carol),
       mkWorld [alice; bob; carol]
         [OpFindOne (Or (Eq FEmail "carol@x.com") (Eq FUsername "carol")); OpSave 3]) /\
  profilePicture carol = png_url.
Proof.
  split; [eexists; reflexivity |].
  split; [reflexivity |].
  split; [vm_compute; reflexivity |].
  split; [vm_compute; reflexivity |].
  split; [vm_compute; reflexivity |].
  split; [vm_compute; reflexivity |].
  split; [vm_compute; reflexivity |].
  split; [vm_compute; reflexivity | reflexivity].
Qed.

(** ** Profile update *)

(** C7, at an input where the code departs from it. Alice re-supplies her
    own email in another letter case. The value differs from the stored
    one as a string, so the handler looks it up; the model layer
    lower-cases the filter value, finds Alice's own record and the handler
    answers "Email is already taken.", although no other record holds
    that email. The same happens with her own username followed by a
    space. Re-supplying the stored values themselves is accepted. *)
Theorem update_own_identity_in_other_spelling_conflicts :
  fst (updateUserProfile sample_env sample_origin alice_id
         (mkUpdateBody None (Some "Alice@X.com") None) None sample_world)
    = Returned (reply 400 false "Email is already taken.") /\
  fst (updateUserProfile sample_env sample_origin alice_id
         (mkUpdateBody (Some "alice ") None None) None sample_world)
    = Returned (reply 400 false "Username is already taken.") /\
  Forall (fun d => _id d <> _id alice ->
                   email d <> set_email "Alice@X.com" /\
                   username d <> set_username "alice ")
         (db sample_world) /\
  fst (updateUserProfile sample_env sample_origin alice_id
         (mkUpdateBody (Some "alice") (Some "alice@x.com") None) None sample_world)
    = Returned (with_user 200 "Profile updated successfully." alice).
Proof.
  split; [vm_compute; reflexivity |].
  split; [vm_compute; reflexivity |].
  split; [| vm_compute; reflexivity].
  apply Forall_cons_2.
  - intros H. exfalso. apply H. reflexivity.
  - apply Forall_cons_2; [| apply Forall_nil_2].
    intros _. split; vm_compute; discriminate.
Qed.

(** ** The token issued at login *)

Lemma find_some_In {A} (p : A -> bool) (l : list A) (x : A) :
  List.find p l = Some x -> In x l /\ p x = true.
Proof. apply find_some. Qed.

Lemma jwt_sign_names (t : Z) (user : Doc) (secret : string) :
  dom (payload (jwt_sign t (token_claims user) secret)) = token_claim_names.
Proof.
  unfold jwt_sign, token_claims, token_claim_names. simpl.
  rewrite !dom_insert_L, dom_empty_L. set_solver.
Qed.

(** C5, as the code has it. A login answered 200 found a stored record
    by the normalised email and verified the password against its digest.
    The token it carries was signed with [JWT_SECRET] when that variable
    is set and not empty, and with the built-in string
    "your_jwt_secret" otherwise. Its claims are exactly [userId],
    [email], [username], [role], [iat] and [exp]: the first four are the
    record's identifier, email, username and role, and [exp] is 24 hours
    (86400 seconds) after [iat], the time of issue in seconds. *)
Theorem login_token_claims (env : Env) (body : LoginBody) (w w' : World)
    (resp : Response) :
  loginAuth env body w = (Returned resp, w') ->
  status resp = 200 ->
  exists user tok,
    In user (db w) /\
    email user = login_key (Js.str (login_email body)) /\
    bcrypt_compare (Js.str (login_password body)) (password user) = true /\
    token resp = Some tok /\
    signing_key tok = (if Js.truthy (JWT_SECRET env) then Js.str (JWT_SECRET env)
                       else "your_jwt_secret") /\
    dom (payload tok) = token_claim_names /\
    payload tok !! "userId" = Some (VObjectId (_id user)) /\
    payload tok !! "email" = Some (VStr (email user)) /\
    payload tok !! "username" = Some (VStr (username user)) /\
    payload tok !! "role" = Some (VStr (role user)) /\
    payload tok !! "iat" = Some (VNum (now env / 1000)) /\
    payload tok !! "exp" = Some (VNum (now env / 1000 + 86400)).
Proof.
  unfold loginAuth, try_catch.
  destruct (negb (Js.truthy (login_email body)) || negb (Js.truthy (login_password body)));
    [intros H; injection H as <- _; discriminate |].
  unfold bind at 1. rewrite Auth_findOne_Eq.
  destruct (List.find _ (db w)) as [user|] eqn:Hfind;
    [| intros H; injection H as <- _; discriminate].
  unfold bind, comparePassword, log, ret; simpl.
  destruct (bcrypt_compare _ (password user)) eqn:Hcmp; simpl;
    [| intros H; injection H as <- _; discriminate].
  intros H _. injection H as <- _.
  apply find_some_In in Hfind. destruct Hfind as [Hin Heq].
  apply String.eqb_eq in Heq.
  exists user, (jwt_sign (now env) (token_claims user) (jwt_secret env)).
  split; [exact Hin |].
  split; [exact Heq |].
  split; [exact Hcmp |].
  split; [reflexivity |].
  split; [reflexivity |].
  split; [apply jwt_sign_names |].
  repeat split.
Qed.

Lemma login_token_claims_witness :
  exists user tok,
    In user (db sample_world) /\
    email user = login_key "Alice@x.com" /\
    bcrypt_compare "password123" (password user) = true /\
    token (with_token alice sample_env) = Some tok /\
    signing_key tok = "your_jwt_secret" /\
    dom (payload tok) = token_claim_names /\
    payload tok !! "userId" = Some (VObjectId (_id user)) /\
    payload tok !! "email" = Some (VStr (email user)) /\
    payload tok !! "username" = Some (VStr (username user)) /\
    payload tok !! "role" = Some (VStr (role user)) /\
    payload tok !! "iat" = Some (VNum 1700000000) /\
    payload tok !! "exp" = Some (VNum (1700000000 + 86400)).
Proof.
  apply (login_token_claims sample_env
           (mkLoginBody (Some "Alice@x.com") (Some "password123"))
           sample_world
           (logged (OpComparePassword 1)
              (logged (OpFindOne (Eq FEmail "alice@x.com")) sample_world))
           (with_token alice sample_env)).
  - reflexivity.
  - reflexivity.
Defined.

(** C5 as stated fails on the names: the token of a successful login has
    no claim called [id] (the identifier travels as [userId]), and it has
    the two time claims besides the four identity claims. *)
Lemma login_token_claims_counterexample :
  exists tok,
    fst (loginAuth sample_env (mkLoginBody (Some "alice@x.com") (Some "password123"))
           sample_world)
      = Returned (with_token alice sample_env) /\
    status (with_token alice sample_env) = 200 /\
    token (with_token alice sample_env) = Some tok /\
    payload tok !! "id" = None /\
    payload tok !! "userId" = Some (VObjectId 1) /\
    dom (payload tok) <> ({[ "id"; "email"; "username"; "role" ]} : gset string).
Proof.
  eexists. split; [reflexivity |]. split; [reflexivity |].
  split; [reflexivity |]. split; [reflexivity |]. split; [reflexivity |].
  rewrite jwt_sign_names. unfold token_claim_names.
  intros H. assert (Hin : "iat" ∈ ({[ "id"; "email"; "username"; "role" ]} : gset string)).
  { rewrite <- H. set_solver. }
  set_solver.
Qed.

(** ** Registration conflicts *)

Lemma Auth_findOne_Or env f1 v1 f2 v2 w :
  Auth_findOne env (Or (Eq f1 v1) (Eq f2 v2)) w =
  (Returned (List.find (fun d => String.eqb (get_field f1 d) (cast_value f1 v1)
                                 || String.eqb (get_field f2 d) (cast_value f2 v2))
               (db w)),
   logged (OpFindOne (Or (Eq f1 v1) (Eq f2 v2))) w).
Proof. reflexivity. Qed.


Lemma passes_input_checks_inv body :
  passes_input_checks body = true ->
  Js.truthy (reg_username body) = true /\
  Js.truthy (reg_email body) = true /\
  Js.truthy (reg_password body) = true /\
  (Js.len (Js.str (reg_password body)) <? 9) = false /\
  Regex.matches emailRegex (Js.str (reg_email body)) = true.
Proof.
  unfold passes_input_checks. rewrite !andb_true_iff, negb_true_iff. tauto.
Qed.


(** What a registration that passes the input checks is answered when the
    look-up finds a record. *)
Lemma createAuth_existing env origin body file w existing :
  passes_input_checks body = true ->
  List.find (fun d => String.eqb (email d) (set_email (Js.str (reg_email body)))
                      || String.eqb (username d)
                           (set_username (Js.str (reg_username body))))
    (db w) = Some existing ->
  createAuth env origin body file w =
    (Returned (reply 400 false
                 (if String.eqb (email existing) (Js.str (reg_email body))
                  then email_conflict else username_conflict)),
     logged (OpFindOne (Or (Eq FEmail (Js.str (reg_email body)))
                           (Eq FUsername (Js.str (reg_username body))))) w).
Proof.
  intros Hv Hfind.
  destruct (passes_input_checks_inv body Hv) as (Hu & He & Hp & Hlen & Hre).
  unfold createAuth, try_catch. rewrite Hu, He, Hp, Hlen, Hre. simpl.
  unfold bind at 1. rewrite Auth_findOne_Or. simpl. rewrite Hfind. reflexivity.
Qed.




(** ** Listing *)

Lemma getAllUsers_run env q w p :
  compile (regexI env) (list_query (q_role q) (q_search q)) = Some p ->
  0 <= (default 1 (q_page q) - 1) * default 10 (q_limit q) ->
  let page := default 1 (q_page q) in
  let limit := default 10 (q_limit q) in
  let query := list_query (q_role q) (q_search q) in
  let matching := List.filter p (db w) in
  getAllUsers env q w =
    (Returned
       (mkResponse 200 true "Users retrieved successfully." None
          (Some (listing_of
                   (apply_limit limit
                      (drop (Z.to_nat ((page - 1) * limit))
                         (merge_sort newest_first matching)))))
          None None None
          (Some (mkPagination page
                   (ceil_div (Z.of_nat (length matching)) limit)
                   (Z.of_nat (length matching))
                   (lt_num page (ceil_div (Z.of_nat (length matching)) limit))
                   (1 <? page)))),
     logged (OpCountDocuments query) (logged (OpFind query) w)).
Proof.
  intros Hc Hskip. cbv zeta.
  unfold getAllUsers, try_catch, Auth_find, Auth_countDocuments, compiled.
  cbv zeta. rewrite Hc.
  destruct (Z.ltb_spec ((default 1 (q_page q) - 1) * default 10 (q_limit q)) 0) as [Hlt | _];
    [lia |].
  unfold bind at 1. unfold bind at 1. unfold log at 1. simpl.
  destruct (Z.ltb_spec ((default 1 (q_page q) - 1) * default 10 (q_limit q)) 0) as [Hlt | _];
    [lia |].
  reflexivity.
Qed.

Lemma ceil_div_pos (a b : Z) :
  0 < b ->
  exists tp, ceil_div a b = Fin tp /\ (tp - 1) * b < a <= tp * b.
Proof.
  intros Hb. unfold ceil_div.
  destruct (Z.eqb_spec b 0) as [-> | _]; [lia |].
  exists (- (- a / b)). split; [reflexivity |].
  pose proof (Z.div_mod (- a) b ltac:(lia)) as Hdm.
  pose proof (Z.mod_pos_bound (- a) b Hb) as Hm.
  nia.
Qed.







Lemma match_here_plain (pattern s : string) :
  plain pattern = true -> match_here pattern s = prefix_ci pattern s.
Proof.
  revert s. induction pattern as [|a pattern IH]; intros s Hp; simpl.
  - now destruct s.
  - simpl in Hp. apply andb_true_iff in Hp. destruct Hp as [Ha Hp].
    destruct s as [|c s]; [reflexivity |].
    rewrite (IH s Hp). f_equal. unfold pattern_char.
    destruct (Ascii.eqb_spec a "."%char) as [-> | _]; [discriminate Ha | reflexivity].
Qed.

Lemma search_pattern_plain (pattern s : string) :
  plain pattern = true -> search_pattern pattern s = includes_ci pattern s.
Proof.
  intros Hp. induction s as [|c s IH]; simpl.
  - now rewrite match_here_plain.
  - now rewrite match_here_plain, IH.
Qed.

Lemma plain_is_simple (pattern : string) :
  plain pattern = true -> simple_pattern pattern = true.
Proof.
  unfold plain, simple_pattern. induction pattern as [|a pattern IH]; simpl;
    [reflexivity |].
  intros H. apply andb_true_iff in H. destruct H as [Ha Hp].
  now rewrite Ha, IH.
Qed.

Lemma simple_engine_literal_on_plain : literal_on_plain simple_engine.
Proof.
  intros pattern Hp. exists (search_pattern pattern). split.
  - unfold simple_engine. now rewrite plain_is_simple.
  - intros s. now apply search_pattern_plain.
Qed.



(** ** The store stays well formed *)

Lemma lower_char_idem (c : ascii) : Js.lower_char (Js.lower_char c) = Js.lower_char c.
Proof. destruct c as [[] [] [] [] [] [] [] []]; reflexivity. Qed.

Lemma is_space_lower_char (c : ascii) : Js.is_space (Js.lower_char c) = Js.is_space c.
Proof. destruct c as [[] [] [] [] [] [] [] []]; reflexivity. Qed.

Lemma toLowerCase_idem (s : string) : Js.toLowerCase (Js.toLowerCase s) = Js.toLowerCase s.
Proof.
  induction s as [|c s IH]; simpl; [reflexivity |]. now rewrite lower_char_idem, IH.
Qed.

Lemma trimStart_toLowerCase (s : string) :
  Js.trimStart (Js.toLowerCase s) = Js.toLowerCase (Js.trimStart s).
Proof.
  induction s as [|c s IH]; simpl; [reflexivity |].
  rewrite is_space_lower_char. destruct (Js.is_space c); [exact IH | reflexivity].
Qed.

Lemma trimEnd_toLowerCase (s : string) :
  Js.trimEnd (Js.toLowerCase s) = Js.toLowerCase (Js.trimEnd s).
Proof.
  induction s as [|c s IH]; simpl; [reflexivity |].
  rewrite IH, is_space_lower_char.
  destruct (Js.trimEnd s); simpl; [destruct (Js.is_space c) |]; reflexivity.
Qed.

Lemma trim_toLowerCase (s : string) :
  Js.trim (Js.toLowerCase s) = Js.toLowerCase (Js.trim s).
Proof. unfold Js.trim. now rewrite trimStart_toLowerCase, trimEnd_toLowerCase. Qed.

Lemma trimStart_starts_clean (s : string) : starts_clean (Js.trimStart s).
Proof.
  induction s as [|c s IH]; simpl; [exact I |].
  destruct (Js.is_space c) eqn:E; [exact IH | exact E].
Qed.

Lemma trimStart_of_clean (s : string) : starts_clean s -> Js.trimStart s = s.
Proof. destruct s as [|c s]; simpl; [reflexivity |]. now intros ->. Qed.

Lemma trimEnd_starts_clean (s : string) : starts_clean s -> starts_clean (Js.trimEnd s).
Proof.
  destruct s as [|c s]; simpl; [trivial |]. intros Hc.
  destruct (Js.trimEnd s); simpl; [now rewrite Hc | exact Hc].
Qed.

Lemma trimEnd_idem (s : string) : Js.trimEnd (Js.trimEnd s) = Js.trimEnd s.
Proof.
  induction s as [|c s IH]; simpl; [reflexivity |].
  destruct (Js.trimEnd s) as [|d r] eqn:E.
  - destruct (Js.is_space c) eqn:Hc; simpl; [reflexivity | now rewrite Hc].
  - simpl. simpl in IH. now rewrite IH.
Qed.

Lemma trim_idem (s : string) : Js.trim (Js.trim s) = Js.trim s.
Proof.
  unfold Js.trim.
  rewrite (trimStart_of_clean (Js.trimEnd (Js.trimStart s))).
  - apply trimEnd_idem.
  - apply trimEnd_starts_clean, trimStart_starts_clean.
Qed.

Lemma set_email_idem (v : string) : set_email (set_email v) = set_email v.
Proof.
  unfold set_email. now rewrite trim_toLowerCase, trim_idem, toLowerCase_idem.
Qed.

Lemma keeps_ret {A} (P : list Doc -> Prop) (a : A) (Q : A -> list Doc -> Prop) :
  (forall docs, store_ok docs -> P docs -> Q a docs) -> keeps P (ret a) Q.
Proof. intros H w Hok HP. simpl. auto. Qed.

Lemma keeps_throw {A} (P : list Doc -> Prop) (e : exn) (Q : A -> list Doc -> Prop) :
  keeps P (throw e) Q.
Proof. intros w Hok HP. simpl. auto. Qed.

Lemma keeps_bind {A B} (P : list Doc -> Prop) (m : M A) (Q : A -> list Doc -> Prop)
    (k : A -> M B) (R : B -> list Doc -> Prop) :
  keeps P m Q -> (forall a, keeps (Q a) (k a) R) -> keeps P (bind m k) R.
Proof.
  intros Hm Hk w Hok HP. specialize (Hm w Hok HP). unfold bind.
  destruct (m w) as [[a | e] w1]; simpl in *.
  - destruct Hm as [Hok1 HQ]. exact (Hk a w1 Hok1 HQ).
  - tauto.
Qed.

Lemma keeps_try {A} (P : list Doc -> Prop) (body : M A) (handler : exn -> M A)
    (R : A -> list Doc -> Prop) :
  keeps P body R -> (forall e, keeps anything (handler e) R) ->
  keeps P (try_catch body handler) R.
Proof.
  intros Hb Hh w Hok HP. specialize (Hb w Hok HP). unfold try_catch.
  destruct (body w) as [[a | e] w1]; simpl in *.
  - exact Hb.
  - destruct Hb as [Hok1 _]. exact (Hh e w1 Hok1 I).
Qed.

Lemma keeps_weaken {A} (P P' : list Doc -> Prop) (m : M A)
    (Q Q' : A -> list Doc -> Prop) :
  keeps P' m Q' ->
  (forall docs, store_ok docs -> P docs -> P' docs) ->
  (forall a docs, store_ok docs -> Q' a docs -> Q a docs) ->
  keeps P m Q.
Proof.
  intros Hm HP HQ w Hok Hp. destruct (Hm w Hok (HP _ Hok Hp)) as [Hok1 Hq].
  split; [exact Hok1 |]. destruct (fst (m w)); auto.
Qed.

(** A computation that reads the store without changing it. *)
Lemma keeps_reader {A} (P : list Doc -> Prop) (m : M A) (Q : A -> list Doc -> Prop) :
  (forall w, db (snd (m w)) = db w) ->
  (forall w a, fst (m w) = Returned a -> Q a (db w)) ->
  keeps P m (fun a docs => P docs /\ Q a docs).
Proof.
  intros Hdb HQ w Hok HP. rewrite Hdb. split; [exact Hok |].
  destruct (fst (m w)) eqn:E; [| exact I]. split; [exact HP | now apply HQ].
Qed.

Lemma Auth_findOne_db env q w : db (snd (Auth_findOne env q w)) = db w.
Proof.
  unfold Auth_findOne, compiled, bind, log, get_db, ret, throw; simpl.
  destruct (compile (regexI env) q); reflexivity.
Qed.

Lemma Auth_findById_db env id w : db (snd (Auth_findById env id w)) = db w.
Proof.
  unfold Auth_findById, bind, log, get_db, ret, throw; simpl.
  destruct (castObjectId id); reflexivity.
Qed.

Lemma Auth_findById_found env id w o :
  fst (Auth_findById env id w) = Returned o -> found_in o (db w).
Proof.
  unfold Auth_findById, bind, log, get_db, ret, throw; simpl.
  destruct (castObjectId id); simpl; [| discriminate].
  intros H. injection H as <-. intros u Hu. now apply find_some_In in Hu.
Qed.

Lemma keeps_findById env id (P : list Doc -> Prop) :
  keeps P (Auth_findById env id) (fun o docs => P docs /\ found_in o docs).
Proof.
  apply keeps_reader; [apply Auth_findById_db | apply Auth_findById_found].
Qed.

Lemma keeps_findOne env q (P : list Doc -> Prop) :
  keeps P (Auth_findOne env q) (fun _ docs => P docs /\ True).
Proof. apply keeps_reader; [apply Auth_findOne_db | trivial]. Qed.

Lemma keeps_taken env supplied current q (P : list Doc -> Prop) :
  keeps P (taken env supplied current q) (fun _ docs => P docs).
Proof.
  unfold taken. destruct (_ && _).
  - eapply keeps_bind; [apply keeps_findOne |].
    intros o. apply keeps_ret. tauto.
  - apply keeps_ret. trivial.
Qed.

Lemma keeps_comparePassword user candidate (P : list Doc -> Prop) :
  keeps P (comparePassword user candidate) (fun _ docs => P docs).
Proof. intros w Hok HP. simpl. auto. Qed.

Lemma keeps_find env q skip limit (P : list Doc -> Prop) :
  keeps P (Auth_find env q skip limit) (fun _ docs => P docs).
Proof.
  intros w Hok HP.
  unfold Auth_find, compiled, bind, log, get_db, ret, throw; simpl.
  destruct (compile (regexI env) q); simpl; [| auto].
  destruct (skip <? 0); simpl; auto.
Qed.

Lemma keeps_countDocuments env q (P : list Doc -> Prop) :
  keeps P (Auth_countDocuments env q) (fun _ docs => P docs).
Proof.
  intros w Hok HP.
  unfold Auth_countDocuments, compiled, bind, log, get_db, ret, throw; simpl.
  destruct (compile (regexI env) q); simpl; auto.
Qed.

Lemma In_remove_first {A} (p : A -> bool) (l : list A) (x : A) :
  In x (remove_first p l) -> In x l.
Proof.
  induction l as [|y l IH]; simpl; [trivial |].
  destruct (p y); simpl; tauto.
Qed.

Lemma store_ok_remove_first (p : Doc -> bool) (l : list Doc) :
  store_ok l -> store_ok (remove_first p l).
Proof.
  intros [Hnd Hnorm]. split.
  - induction l as [|y l IH]; simpl in *; [constructor |].
    inversion Hnd as [|? ? Hnotin Hnd2]; subst.
    inversion Hnorm as [|? ? _ Hnorm2]; subst.
    destruct (p y); [exact Hnd2 |]. simpl. constructor; [| now apply IH].
    intros Hin. apply Hnotin. apply in_map_iff in Hin.
    destruct Hin as (z & Hz & Hin). apply in_map_iff. exists z.
    split; [exact Hz | now apply In_remove_first in Hin].
  - unfold emails_normalised in *. rewrite Forall_forall in *.
    intros d Hd. apply Hnorm. apply list_elem_of_In.
    apply list_elem_of_In in Hd. now apply In_remove_first in Hd.
Qed.

Lemma keeps_findByIdAndDelete env id (P : list Doc -> Prop) :
  keeps P (Auth_findByIdAndDelete env id) any_result.
Proof.
  intros w Hok HP.
  unfold Auth_findByIdAndDelete, bind, log, get_db, put_db, ret, throw; simpl.
  destruct (castObjectId id); simpl; [| auto].
  split; [now apply store_ok_remove_first | exact I].
Qed.

Lemma unique_violation_fresh_id (d : Doc) (docs : list Doc) :
  unique_violation d docs = None -> ~ In (_id d) (map _id docs).
Proof.
  unfold unique_violation.
  destruct (existsb (has_id (_id d)) docs) eqn:E; [discriminate |].
  intros _ Hin. apply in_map_iff in Hin. destruct Hin as (x & Hx & Hin).
  assert (existsb (has_id (_id d)) docs = true); [| congruence].
  apply existsb_exists. exists x. split; [exact Hin |].
  unfold has_id. now apply N.eqb_eq.
Qed.

Lemma store_ok_snoc (docs : list Doc) (d : Doc) :
  store_ok docs -> ~ In (_id d) (map _id docs) -> set_email (email d) = email d ->
  store_ok (docs ++ [d]).
Proof.
  intros [Hnd Hnorm] Hfresh He. split.
  - rewrite map_app. simpl. apply NoDup_ListNoDup, NoDup_app.
    split; [now apply NoDup_ListNoDup |]. split.
    + intros x Hx Hx2. apply list_elem_of_singleton in Hx2. subst x.
      apply Hfresh. now apply list_elem_of_In.
    + apply NoDup_singleton.
  - apply Forall_app. split; [exact Hnorm |]. now constructor.
Qed.

Lemma keeps_save_new env username email password picture role (P : list Doc -> Prop) :
  keeps P (save_new env (new_Auth username email password picture role)) any_result.
Proof.
  intros w Hok HP. unfold save_new.
  unfold bind at 1. unfold log at 1. cbv beta iota.
  destruct (collect _) as [| m ms]; [| simpl; auto].
  unfold bind, get_db, put_db, ret, throw; simpl.
  destruct (unique_violation _ (db w)) eqn:E; simpl; [auto |].
  split; [| exact I]. apply store_ok_snoc; [exact Hok | |].
  - apply unique_violation_fresh_id in E. exact E.
  - simpl. apply set_email_idem.
Qed.

Lemma store_ok_replace (docs : list Doc) (d saved : Doc) :
  store_ok docs -> _id saved = _id d -> set_email (email saved) = email saved ->
  store_ok (map (fun x => if has_id (_id d) x then saved else x) docs).
Proof.
  intros [Hnd Hnorm] Hid He. split.
  - rewrite map_map.
    erewrite map_ext; [exact Hnd |]. intros x. simpl.
    unfold has_id. destruct (N.eqb_spec (_id x) (_id d)); congruence.
  - unfold emails_normalised in *. rewrite Forall_forall in *.
    intros x Hx. apply list_elem_of_In, in_map_iff in Hx.
    destruct Hx as (y & Hy & Hin). destruct (has_id (_id d) y); subst x.
    + exact He.
    + apply Hnorm. now apply list_elem_of_In.
Qed.

Lemma keeps_save env d :
  keeps (fun _ => set_email (email d) = email d) (save env d) any_result.
Proof.
  intros w Hok He. unfold save.
  unfold bind at 1. unfold log at 1. cbv beta iota.
  destruct (collect _) as [| m ms]; [| simpl; auto].
  unfold bind, get_db, put_db, ret, throw; simpl.
  destruct (unique_violation _ _); simpl; [auto |].
  split; [| exact I]. apply store_ok_replace; [exact Hok | |];
    destruct (bool_decide _); simpl; auto.
Qed.

Lemma keeps_reply {A} (P : list Doc -> Prop) (a : A) : keeps P (ret a) any_result.
Proof. apply keeps_ret. intros; exact I. Qed.

Lemma keeps_forget {A} (P : list Doc -> Prop) (m : M A) (Q : A -> list Doc -> Prop) :
  keeps P m Q -> keeps P m any_result.
Proof. intros H. eapply keeps_weaken; [exact H | auto | intros; exact I]. Qed.

Ltac keeps_step :=
  match goal with
  | |- keeps _ (let _ := _ in _) _ => cbv zeta
  | |- keeps _ (ret _) any_result => apply keeps_reply
  | |- keeps _ (throw _) _ => apply keeps_throw
  | |- keeps _ (bind (Auth_findOne _ _) _) _ =>
      eapply keeps_bind; [apply keeps_findOne | intros]
  | |- keeps _ (bind (Auth_findById _ _) _) _ =>
      eapply keeps_bind; [apply keeps_findById | intros]
  | |- keeps _ (bind (taken _ _ _ _) _) _ =>
      eapply keeps_bind; [apply keeps_taken | intros]
  | |- keeps _ (bind (comparePassword _ _) _) _ =>
      eapply keeps_bind; [apply keeps_comparePassword | intros]
  | |- keeps _ (bind (Auth_find _ _ _ _) _) _ =>
      eapply keeps_bind; [apply keeps_find | intros]
  | |- keeps _ (bind (Auth_countDocuments _ _) _) _ =>
      eapply keeps_bind; [apply keeps_countDocuments | intros]
  | |- keeps _ (bind (Auth_findByIdAndDelete _ _) _) _ =>
      eapply keeps_bind; [apply keeps_findByIdAndDelete | intros]
  | |- keeps _ (bind (save_new _ _) _) _ =>
      eapply keeps_bind; [apply keeps_save_new | intros]
  | |- keeps _ (if ?b then _ else _) _ => destruct b
  | |- keeps _ (match ?x with _ => _ end) _ => destruct x
  end.

Lemma email_after_assignments (user : Doc) (u e r : option string)
    (picture : option string) :
  set_email (email user) = email user ->
  let d := assign_role r (assign_email e (assign_username u
             (set_profilePicture picture user))) in
  set_email (email d) = email d.
Proof.
  intros H. unfold assign_role, assign_email, assign_username, set_profilePicture.
  destruct (Js.truthy r), (Js.truthy e), (Js.truthy u); simpl;
    try exact H; apply set_email_idem.
Qed.

Lemma found_is_normalised (user : Doc) (docs : list Doc) :
  store_ok docs -> found_in (Some user) docs -> set_email (email user) = email user.
Proof.
  intros [_ Hnorm] Hfound. unfold emails_normalised in Hnorm.
  rewrite Forall_forall in Hnorm. apply Hnorm, list_elem_of_In, Hfound. reflexivity.
Qed.

Lemma set_profilePicture_None (d : Doc) : set_profilePicture None d = d.
Proof. now destruct d. Qed.

Lemma keeps_createAuth env origin body file :
  keeps anything (createAuth env origin body file) any_result.
Proof.
  unfold createAuth. apply keeps_try.
  - repeat keeps_step.
  - intros e. repeat keeps_step.
Qed.

Lemma keeps_loginAuth env body : keeps anything (loginAuth env body) any_result.
Proof.
  unfold loginAuth. apply keeps_try.
  - repeat keeps_step.
  - intros e. repeat keeps_step.
Qed.

Lemma keeps_updateUserProfile env origin userId body file :
  keeps anything (updateUserProfile env origin userId body file) any_result.
Proof.
  unfold updateUserProfile. apply keeps_try.
  - keeps_step. destruct a as [user |]; [| keeps_step].
    do 2 (keeps_step; keeps_step; [keeps_step |]).
    cbv zeta. eapply keeps_bind; [| intros; apply keeps_reply].
    eapply keeps_weaken; [apply keeps_save | | intros; exact I].
    intros docs Hok [_ Hfound]. simpl.
    pose proof (found_is_normalised user docs Hok Hfound) as Hn.
    destruct file as [f |].
    + now apply email_after_assignments.
    + rewrite <- (set_profilePicture_None user) at 1 2.
      now apply email_after_assignments.
  - intros e. repeat keeps_step.
Qed.

Lemma keeps_updateProfilePicture env origin userId file :
  keeps anything (updateProfilePicture env origin userId file) any_result.
Proof.
  unfold updateProfilePicture. apply keeps_try.
  - destruct file as [f |]; [| keeps_step].
    keeps_step. destruct a as [user |]; [| keeps_step].
    cbv zeta. eapply keeps_bind; [| intros; apply keeps_reply].
    eapply keeps_weaken; [apply keeps_save | | intros; exact I].
    intros docs Hok [_ Hfound]. simpl.
    exact (found_is_normalised user docs Hok Hfound).
  - intros e. repeat keeps_step.
Qed.

Lemma keeps_getSingleUser env userId :
  keeps anything (getSingleUser env userId) any_result.
Proof.
  unfold getSingleUser. apply keeps_try.
  - repeat keeps_step.
  - intros e. repeat keeps_step.
Qed.

Lemma keeps_getAllUsers env q : keeps anything (getAllUsers env q) any_result.
Proof.
  unfold getAllUsers. apply keeps_try.
  - repeat keeps_step.
  - intros e. repeat keeps_step.
Qed.

Lemma keeps_deleteUser env userId : keeps anything (deleteUser env userId) any_result.
Proof.
  unfold deleteUser. apply keeps_try.
  - repeat keeps_step.
  - intros e. repeat keeps_step.
Qed.

Lemma keeps_with_upload env file handler :
  (forall f, keeps anything (handler f) any_result) ->
  keeps anything (with_upload env file handler) any_result.
Proof.
  intros H. unfold with_upload.
  destruct (uploadProfilePicture _ _ _); [apply keeps_reply | apply H].
Qed.

(** X1. Every request leaves a well-formed store well formed: identifiers
    stay distinct and emails stay in normal form. *)
Theorem route_keeps_store_ok (env : Env) (r : Request) (w : World) :
  store_ok (db w) -> store_ok (db (snd (route env r w))).
Proof.
  intros Hok.
  assert (H : keeps anything (route env r) any_result).
  { destruct r; simpl.
    - apply keeps_with_upload. intros f. apply keeps_createAuth.
    - apply keeps_loginAuth.
    - apply keeps_getAllUsers.
    - apply keeps_getSingleUser.
    - apply keeps_with_upload. intros f. apply keeps_updateUserProfile.
    - apply keeps_with_upload. intros f. apply keeps_updateProfilePicture.
    - apply keeps_deleteUser. }
  exact (proj1 (H w Hok I)).
Qed.

Lemma store_ok_empty : store_ok [].
Proof. split; constructor. Qed.

(** * Further properties of the handlers and of the upload helpers *)

(** ** What the model operations do to the world *)

Lemma Auth_findById_run env id w :
  Auth_findById env id w =
  (match castObjectId id with
   | Some oid => Returned (List.find (has_id oid) (db w))
   | None => Thrown (CastError "_id")
   end, logged (OpFindById id) w).
Proof.
  unfold Auth_findById, bind, log, get_db, ret, throw, logged; simpl.
  destruct (castObjectId id); reflexivity.
Qed.

Lemma find_has_id (oid : N) (l : list Doc) (user : Doc) :
  List.find (has_id oid) l = Some user -> _id user = oid /\ In user l.
Proof.
  intros H. apply find_some in H. destruct H as [Hin H].
  unfold has_id in H. apply N.eqb_eq in H. auto.
Qed.

Lemma save_new_run env n w :
  save_new env n w =
  match collect [ validate_username (new_username n);
                  validate_email (new_email n);
                  validate_password (new_password n);
                  validate_profilePicture (new_profilePicture n);
                  validate_role (new_role n) ] with
  | [] =>
      let d := mkDoc (newObjectId env) (new_username n) (new_email n)
                 (bcrypt_hash (bcryptSalt env) (new_password n) 12)
                 (new_profilePicture n) (new_role n) (now env) (now env) in
      match unique_violation d (db w) with
      | Some field =>
          (Thrown (MongoServerError 11000 [field]), logged (OpSave (newObjectId env)) w)
      | None =>
          (Returned d, mkWorld (db w ++ [d]) (trace w ++ [OpSave (newObjectId env)]))
      end
  | m :: ms => (Thrown (ValidationError (m :: ms)), logged (OpSave (newObjectId env)) w)
  end.
Proof.
  unfold save_new. unfold bind at 1. unfold log at 1. cbv beta iota.
  destruct (collect _); [| reflexivity].
  unfold bind, get_db, put_db, ret, throw, logged; simpl.
  destruct (unique_violation _ _); reflexivity.
Qed.

Lemma save_run env d w :
  save env d w =
  match collect [ validate_username (username d);
                  validate_email (email d);
                  validate_profilePicture (profilePicture d);
                  validate_role (role d) ] with
  | [] =>
      match unique_violation d
              (List.filter (fun x => negb (has_id (_id d) x)) (db w)) with
      | Some field =>
          (Thrown (MongoServerError 11000 [field]), logged (OpSave (_id d)) w)
      | None =>
          let saved :=
            if bool_decide (List.find (has_id (_id d)) (db w) = Some d) then d
            else touch (now env) d in
          (Returned saved,
           mkWorld (map (fun x => if has_id (_id d) x then saved else x) (db w))
                   (trace w ++ [OpSave (_id d)]))
      end
  | m :: ms => (Thrown (ValidationError (m :: ms)), logged (OpSave (_id d)) w)
  end.
Proof.
  unfold save. unfold bind at 1. unfold log at 1. cbv beta iota.
  destruct (collect _); [| reflexivity].
  unfold bind, get_db, put_db, ret, throw, logged; simpl.
  destruct (unique_violation _ _); reflexivity.
Qed.

Lemma taken_db env supplied current q w :
  db (snd (taken env supplied current q w)) = db w.
Proof.
  unfold taken. destruct (_ && _); [| reflexivity].
  unfold bind. pose proof (Auth_findOne_db env q w) as H.
  destruct (Auth_findOne env q w) as [[o | e] w1]; simpl in *; exact H.
Qed.

Lemma taken_returns env supplied current f v w :
  exists b, fst (taken env supplied current (Eq f v) w) = Returned b.
Proof.
  unfold taken. destruct (_ && _); [| eexists; reflexivity].
  unfold bind. rewrite Auth_findOne_Eq. eexists; reflexivity.
Qed.

(** ** What the validators accept *)

Lemma validate_username_None (v : string) :
  validate_username v = None -> 3 <= Js.len v <= 20.
Proof.
  unfold validate_username. destruct (is_empty v); [discriminate |].
  destruct (Z.ltb_spec (Js.len v) 3); [discriminate |].
  destruct (Z.ltb_spec 20 (Js.len v)); [discriminate | lia].
Qed.

Lemma validate_email_None (v : string) :
  validate_email v = None -> Regex.matches emailRegex v = true.
Proof.
  unfold validate_email. destruct (is_empty v); [discriminate |].
  destruct (Regex.matches emailRegex v); [reflexivity | discriminate].
Qed.

Lemma validate_profilePicture_None (v : string) :
  validate_profilePicture v = None -> Regex.matches profilePictureRegex v = true.
Proof.
  unfold validate_profilePicture.
  destruct (Regex.matches profilePictureRegex v); [reflexivity | discriminate].
Qed.

Lemma validate_role_None (v : string) : validate_role v = None -> In v role_enum.
Proof.
  unfold validate_role. destruct (Js.includes role_enum v) eqn:E; [| discriminate].
  intros _. now apply includes_In.
Qed.

Lemma collect_nil_cons (o : option string) (l : list (option string)) :
  collect (o :: l) = [] -> o = None /\ collect l = [].
Proof. destruct o; [discriminate | auto]. Qed.

Lemma well_formed_of_validators (d : Doc) :
  collect [ validate_username (username d); validate_email (email d);
            validate_profilePicture (profilePicture d); validate_role (role d) ] = [] ->
  well_formed d.
Proof.
  intros H. apply collect_nil_cons in H. destruct H as [H1 H].
  apply collect_nil_cons in H. destruct H as [H2 H].
  apply collect_nil_cons in H. destruct H as [H3 H].
  apply collect_nil_cons in H. destruct H as [H4 _].
  repeat split.
  - now apply validate_username_None.
  - now apply validate_username_None.
  - now apply validate_email_None.
  - now apply validate_profilePicture_None.
  - now apply validate_role_None.
Qed.

(** ** One write at most, none on failure *)

Lemma single_write_unchanged (l : list Doc) (resp : Response) (w : World) :
  db w = l -> single_write l (Returned resp, w).
Proof. intros <-. split; [constructor | reflexivity]. Qed.

Lemma createAuth_single_write env origin body file w :
  single_write (db w) (createAuth env origin body file w).
Proof.
  unfold createAuth, try_catch.
  destruct (_ || _); [now apply single_write_unchanged |].
  destruct (_ <? 9); [now apply single_write_unchanged |].
  destruct (negb _); [now apply single_write_unchanged |].
  unfold bind at 1. rewrite Auth_findOne_Or.
  destruct (List.find _ _) as [existing |]; [now apply single_write_unchanged |].
  cbv zeta. unfold bind. rewrite save_new_run.
  destruct (collect _) as [| m ms] eqn:Hcol; [| now apply single_write_unchanged].
  cbv zeta.
  match goal with |- context [unique_violation ?d ?l] =>
    destruct (unique_violation d l) as [field |] eqn:Hu end.
  - simpl. destruct field; now apply single_write_unchanged.
  - split; [| discriminate]. simpl. constructor; [exact Hu |].
    apply collect_nil_cons in Hcol. destruct Hcol as [H1 Hcol].
    apply collect_nil_cons in Hcol. destruct Hcol as [H2 Hcol].
    apply collect_nil_cons in Hcol. destruct Hcol as [_ Hcol].
    apply collect_nil_cons in Hcol. destruct Hcol as [H4 Hcol].
    apply collect_nil_cons in Hcol. destruct Hcol as [H5 _].
    unfold well_formed. cbn [username email profilePicture role].
    split; [now apply validate_username_None |].
    split; [now apply validate_email_None |].
    split; [now apply validate_profilePicture_None | now apply validate_role_None].
Qed.

Lemma loginAuth_reads env body w :
  exists resp w', loginAuth env body w = (Returned resp, w') /\ db w' = db w.
Proof.
  unfold loginAuth, try_catch.
  destruct (negb (Js.truthy (login_email body))
            || negb (Js.truthy (login_password body)));
    [do 2 eexists; split; reflexivity |].
  unfold bind at 1. rewrite Auth_findOne_Eq.
  destruct (List.find _ (db w)) as [user |]; [| do 2 eexists; split; reflexivity].
  unfold bind, comparePassword, log, ret; simpl.
  destruct (bcrypt_compare _ _); do 2 eexists; split; reflexivity.
Qed.

Lemma getSingleUser_reads env userId w :
  exists resp w', getSingleUser env userId w = (Returned resp, w') /\ db w' = db w.
Proof.
  unfold getSingleUser, try_catch, bind. rewrite Auth_findById_run.
  destruct (castObjectId userId); [| do 2 eexists; split; reflexivity].
  destruct (List.find _ _); do 2 eexists; split; reflexivity.
Qed.

Lemma getAllUsers_reads env q w :
  exists resp w', getAllUsers env q w = (Returned resp, w') /\ db w' = db w.
Proof.
  unfold getAllUsers, try_catch, Auth_find, Auth_countDocuments, compiled.
  cbv zeta.
  destruct (compile (regexI env) _) as [p |]; [| do 2 eexists; split; reflexivity].
  unfold bind, log, get_db, ret, throw; simpl.
  destruct (_ <? 0); do 2 eexists; split; reflexivity.
Qed.

Lemma single_write_of_read (o : Outcome Response * World) (l : list Doc) :
  (exists resp w', o = (Returned resp, w') /\ db w' = l) -> single_write l o.
Proof.
  intros (resp & w' & -> & <-). now apply single_write_unchanged.
Qed.

Lemma deleteUser_single_write env userId w :
  single_write (db w) (deleteUser env userId w).
Proof.
  destruct (castObjectId userId) as [oid |] eqn:Hid.
  - rewrite (deleteUser_run env userId oid w Hid). unfold single_write. simpl.
    destruct (existsb (has_id oid) (db w)) eqn:E.
    + split; [now constructor | discriminate].
    + rewrite (remove_first_absent _ _ E). split; [constructor | reflexivity].
  - unfold deleteUser, try_catch, Auth_findByIdAndDelete.
    unfold bind at 1. unfold bind at 1. simpl. rewrite Hid.
    now apply single_write_unchanged.
Qed.

Lemma assignments_keep (user : Doc) (u e r : option string) (picture : option string) :
  let d := assign_role r (assign_email e (assign_username u
             (set_profilePicture picture user))) in
  _id d = _id user /\ password d = password user /\ createdAt d = createdAt user.
Proof.
  unfold assign_role, assign_email, assign_username, set_profilePicture.
  destruct (Js.truthy r), (Js.truthy e), (Js.truthy u); simpl; auto.
Qed.

Lemma save_single_write env (user d : Doc) (resp : Doc -> Response) w :
  List.find (has_id (_id user)) (db w) = Some user ->
  _id d = _id user -> password d = password user -> createdAt d = createdAt user ->
  (forall e, success (resp e) = true) ->
  forall l, db w = l ->
  forall handler,
    (forall e w1, exists r, handler e w1 = (Returned r, w1)) ->
    single_write l
      (try_catch (bind (save env d) (fun saved => ret (resp saved))) handler w).
Proof.
  intros Hfind Hid Hpw Hcr Hok l <- handler Hh.
  unfold try_catch, bind. rewrite save_run.
  destruct (collect _) as [| m ms] eqn:Hcol.
  - apply well_formed_of_validators in Hcol.
    destruct (unique_violation _ _) as [field |] eqn:Hu.
    + destruct (Hh (MongoServerError 11000 [field]) (logged (OpSave (_id d)) w))
        as [r Hr]. rewrite Hr. now apply single_write_unchanged.
    + cbv zeta. unfold single_write, ret. simpl. split; [| rewrite Hok; discriminate].
      set (saved := if bool_decide _ then d else touch (now env) d).
      assert (Hs : _id saved = _id d /\ password saved = password d
                   /\ createdAt saved = createdAt d
                   /\ username saved = username d /\ email saved = email d
                   /\ well_formed saved).
      { subst saved. destruct (bool_decide _); simpl; auto 10. }
      destruct Hs as (Hs1 & Hs2 & Hs3 & Hs4 & Hs5 & Hs6).
      replace (map _ (db w)) with (replace_doc saved (db w)).
      * apply (replaced (db w) user saved); try congruence.
        rewrite Hs1. unfold unique_violation in *.
        rewrite Hs1, Hs4, Hs5. exact Hu.
      * unfold replace_doc. now rewrite Hs1.
  - destruct (Hh (ValidationError (m :: ms)) (logged (OpSave (_id d)) w)) as [r Hr].
    rewrite Hr. now apply single_write_unchanged.
Qed.

Lemma try_catch_bind {A B} (m : M A) (k : A -> M B) (h : exn -> M B) w a w1 :
  m w = (Returned a, w1) -> try_catch (bind m k) h w = try_catch (k a) h w1.
Proof. intros H. unfold try_catch, bind. now rewrite H. Qed.

Lemma taken_run env supplied current f v w :
  exists b w1, taken env supplied current (Eq f v) w = (Returned b, w1) /\ db w1 = db w.
Proof.
  unfold taken. destruct (_ && _); [| do 2 eexists; split; reflexivity].
  unfold bind. rewrite Auth_findOne_Eq. do 2 eexists; split; reflexivity.
Qed.

Lemma find_has_id_self (oid : N) (l : list Doc) (user : Doc) :
  List.find (has_id oid) l = Some user -> List.find (has_id (_id user)) l = Some user.
Proof. intros H. destruct (find_has_id oid l user H) as [-> _]. exact H. Qed.

Lemma updateUserProfile_single_write env origin userId body file w :
  single_write (db w) (updateUserProfile env origin userId body file w).
Proof.
  unfold updateUserProfile.
  destruct (castObjectId userId) as [oid |] eqn:Hid.
  2: { unfold try_catch, bind. rewrite Auth_findById_run, Hid.
       now apply single_write_unchanged. }
  erewrite try_catch_bind; [| rewrite Auth_findById_run, Hid; reflexivity].
  destruct (List.find (has_id oid) (db w)) as [user |] eqn:Hfind;
    [| now apply single_write_unchanged].
  destruct (taken_run env (upd_email body) (email user) FEmail
              (Js.str (upd_email body)) (logged (OpFindById userId) w))
    as (b1 & w1 & Ht1 & Hdb1).
  erewrite try_catch_bind; [| exact Ht1].
  destruct b1; [now apply single_write_unchanged |].
  destruct (taken_run env (upd_username body) (username user) FUsername
              (Js.str (upd_username body)) w1) as (b2 & w2 & Ht2 & Hdb2).
  erewrite try_catch_bind; [| exact Ht2].
  assert (Hdb : db w2 = db w) by (simpl in Hdb1; congruence).
  destruct b2; [now apply single_write_unchanged |].
  cbv zeta.
  assert (Hf : List.find (has_id (_id user)) (db w2) = Some user).
  { rewrite Hdb. now apply find_has_id_self in Hfind. }
  destruct file as [f |].
  - destruct (assignments_keep user (upd_username body) (upd_email body)
                (upd_role body) (uploaded_url origin f)) as (H1 & H2 & H3).
    apply (save_single_write env user); auto.
    intros e w0. destruct e; eexists; reflexivity.
  - destruct (assignments_keep user (upd_username body) (upd_email body)
                (upd_role body) None) as (H1 & H2 & H3).
    rewrite set_profilePicture_None in H1, H2, H3.
    apply (save_single_write env user); auto.
    intros e w0. destruct e; eexists; reflexivity.
Qed.

Lemma updateProfilePicture_single_write env origin userId file w :
  single_write (db w) (updateProfilePicture env origin userId file w).
Proof.
  unfold updateProfilePicture.
  destruct file as [f |]; [| now apply single_write_unchanged].
  destruct (castObjectId userId) as [oid |] eqn:Hid.
  2: { unfold try_catch, bind. rewrite Auth_findById_run, Hid.
       now apply single_write_unchanged. }
  erewrite try_catch_bind; [| rewrite Auth_findById_run, Hid; reflexivity].
  destruct (List.find (has_id oid) (db w)) as [user |] eqn:Hfind;
    [| now apply single_write_unchanged].
  cbv zeta. apply (save_single_write env user); auto.
  - simpl. now apply find_has_id_self in Hfind.
  - intros e w0. eexists; reflexivity.
Qed.

Lemma with_upload_single_write env file handler w :
  (forall f, single_write (db w) (handler f w)) ->
  single_write (db w) (with_upload env file handler w).
Proof.
  intros H. unfold with_upload.
  destruct (uploadProfilePicture _ _ _); [now apply single_write_unchanged | apply H].
Qed.

Lemma route_single_write env r w : single_write (db w) (route env r w).
Proof.
  destruct r; simpl.
  - apply with_upload_single_write. intros f. apply createAuth_single_write.
  - apply single_write_of_read, loginAuth_reads.
  - apply single_write_of_read, getAllUsers_reads.
  - apply single_write_of_read, getSingleUser_reads.
  - apply with_upload_single_write. intros f. apply updateUserProfile_single_write.
  - apply with_upload_single_write. intros f. apply updateProfilePicture_single_write.
  - apply deleteUser_single_write.
Qed.

Lemma others_all (oid : N) (l : list Doc) :
  existsb (has_id oid) l = false -> others oid l = l.
Proof. apply filter_without_id. Qed.

Lemma unique_violation_no_id (d : Doc) (l : list Doc) :
  unique_violation d l = None -> existsb (has_id (_id d)) l = false.
Proof.
  unfold unique_violation. destruct (existsb (has_id (_id d)) l); [discriminate | trivial].
Qed.

Lemma others_remove_first (oid : N) (l : list Doc) :
  others oid (remove_first (has_id oid) l) = others oid l.
Proof.
  unfold others. induction l as [|x l IH]; simpl; [reflexivity |].
  destruct (has_id oid x) eqn:Hx; simpl; [reflexivity | now rewrite Hx, IH].
Qed.

Lemma others_replace (saved : Doc) (l : list Doc) :
  others (_id saved) (replace_doc saved l) = others (_id saved) l.
Proof.
  unfold others, replace_doc. induction l as [|x l IH]; simpl; [reflexivity |].
  destruct (has_id (_id saved) x) eqn:Hx; simpl.
  - unfold has_id at 1. rewrite N.eqb_refl. simpl. exact IH.
  - now rewrite Hx, IH.
Qed.

Lemma change_others (l l' : list Doc) :
  change l l' -> exists oid, others oid l' = others oid l.
Proof.
  intros [| d Hu _ | oid _ | user saved _ _ _ _ _ _].
  - exists 0%N. reflexivity.
  - exists (_id d). unfold others. rewrite List.filter_app. simpl.
    unfold has_id at 2. rewrite N.eqb_refl. simpl. apply app_nil_r.
  - exists oid. apply others_remove_first.
  - exists (_id saved). apply others_replace.
Qed.

(** X4. Whatever the request, there is one identifier such that the
    records with any other identifier are after the request exactly what
    they were before, in the same order: a request never alters, adds,
    removes or reorders the records of more than one user. *)
Theorem route_touches_one_identifier (env : Env) (r : Request) (w : World) :
  exists oid,
    others oid (db (snd (route env r w))) = others oid (db w).
Proof.
  pose proof (route_single_write env r w) as H. unfold single_write in H.
  destruct (fst (route env r w)); [| contradiction].
  destruct H as [H _]. now apply change_others.
Qed.

(** X3. A request that is answered with [success: false] has written
    nothing: the store is as it was before the request, on every route
    and for every kind of failure (validation, conflict, not found,
    upload error, internal error). *)
Theorem failure_leaves_store (env : Env) (r : Request) (w w' : World)
    (resp : Response) :
  route env r w = (Returned resp, w') ->
  success resp = false ->
  db w' = db w.
Proof.
  intros Hrun Hfail.
  pose proof (route_single_write env r w) as H. unfold single_write in H.
  rewrite Hrun in H. simpl in H. now apply H.
Qed.

Lemma failure_leaves_store_witness :
  db (snd (route sample_env
             (PostRegister sample_origin carol_registration (Some sample_bmp))
             sample_world)) = db sample_world.
Proof.
  apply (failure_leaves_store sample_env
           (PostRegister sample_origin carol_registration (Some sample_bmp))
           sample_world _
           (validation_error [bmp_url ++ " is not a valid image URL!"])).
  - vm_compute. reflexivity.
  - reflexivity.
Defined.

(** X6. Login, the listing and the look-up of one user never write: the
    store after the request is the store before it, whatever the answer. *)
Theorem read_routes_leave_store (env : Env) (r : Request) (w : World) :
  reads_only r = true ->
  db (snd (route env r w)) = db w.
Proof.
  destruct r; simpl; try discriminate; intros _.
  - destruct (loginAuth_reads env body w) as (resp & w' & -> & H). exact H.
  - destruct (getAllUsers_reads env q w) as (resp & w' & -> & H). exact H.
  - destruct (getSingleUser_reads env userId w) as (resp & w' & -> & H). exact H.
Qed.

Lemma read_routes_leave_store_witness :
  db (snd (route sample_env
             (PostLogin (mkLoginBody (Some "alice@x.com") (Some "password123")))
             sample_world)) = db sample_world.
Proof.
  apply (read_routes_leave_store sample_env
           (PostLogin (mkLoginBody (Some "alice@x.com") (Some "password123")))
           sample_world).
  reflexivity.
Defined.

(** ** Identities stay unique, digests are never rewritten *)

Lemma same_id_same_doc (l : list Doc) (d d' : Doc) :
  List.NoDup (map _id l) -> In d l -> In d' l -> _id d' = _id d -> d' = d.
Proof.
  induction l as [|x l IH]; simpl; [tauto |].
  intros Hnd Hd Hd' Hid. inversion Hnd as [|? ? Hnotin Hnd']; subst.
  destruct Hd as [-> | Hd], Hd' as [-> | Hd']; auto.
  - exfalso. apply Hnotin. rewrite <- Hid. now apply in_map.
  - exfalso. apply Hnotin. rewrite Hid. now apply in_map.
Qed.

Lemma In_replace_doc (saved : Doc) (l : list Doc) (x : Doc) :
  In x (replace_doc saved l) ->
  x = saved \/ (In x l /\ has_id (_id saved) x = false).
Proof.
  unfold replace_doc. intros H. apply in_map_iff in H.
  destruct H as (y & Hy & Hin). destruct (has_id (_id saved) y) eqn:E; subst; auto.
Qed.

Lemma existsb_has_id_false (oid : N) (l : list Doc) (d : Doc) :
  existsb (has_id oid) l = false -> In d l -> _id d <> oid.
Proof.
  intros He Hin Hid. assert (existsb (has_id oid) l = true); [| congruence].
  apply existsb_exists. exists d. split; [exact Hin |].
  unfold has_id. now apply N.eqb_eq.
Qed.

Lemma change_keeps_digest (l l' : list Doc) :
  change l l' -> List.NoDup (map _id l) ->
  forall d d', In d l -> In d' l' -> _id d' = _id d ->
    password d' = password d /\ createdAt d' = createdAt d.
Proof.
  intros Hc Hnd d d' Hd Hd' Hid.
  destruct Hc as [| n Hu _ | oid _ | user saved Hfind Hsid Hpw Hcr _ _].
  - now rewrite (same_id_same_doc l d d' Hnd Hd Hd' Hid).
  - apply in_app_or in Hd'. destruct Hd' as [Hd' | [<- | []]].
    + now rewrite (same_id_same_doc l d d' Hnd Hd Hd' Hid).
    + exfalso. apply unique_violation_no_id in Hu.
      apply (existsb_has_id_false _ _ d Hu Hd). now symmetry.
  - apply In_remove_first in Hd'.
    now rewrite (same_id_same_doc l d d' Hnd Hd Hd' Hid).
  - apply In_replace_doc in Hd'. destruct Hd' as [-> | [Hd' _]].
    + apply find_has_id in Hfind. destruct Hfind as [_ Huser].
      assert (d = user) as ->.
      { apply (same_id_same_doc l user d Hnd Huser Hd). congruence. }
      auto.
    + now rewrite (same_id_same_doc l d d' Hnd Hd Hd' Hid).
Qed.

(** X5. No request rewrites a stored password digest or a creation time:
    in a store with distinct identifiers, a record found after the request
    under the identifier of a record that was there before has the same
    digest and the same creation time. *)
Theorem route_never_changes_digest (env : Env) (r : Request) (w : World) (d d' : Doc) :
  List.NoDup (map _id (db w)) ->
  In d (db w) ->
  In d' (db (snd (route env r w))) ->
  _id d' = _id d ->
  password d' = password d /\ createdAt d' = createdAt d.
Proof.
  intros Hnd Hd Hd' Hid.
  pose proof (route_single_write env r w) as H. unfold single_write in H.
  destruct (fst (route env r w)); [| contradiction].
  destruct H as [H _]. exact (change_keeps_digest _ _ H Hnd d d' Hd Hd' Hid).
Qed.

Lemma NoDup_map_remove_first {B} (f : Doc -> B) (p : Doc -> bool) (l : list Doc) :
  List.NoDup (map f l) -> List.NoDup (map f (remove_first p l)).
Proof.
  induction l as [|x l IH]; simpl; [trivial |].
  intros Hnd. inversion Hnd as [|? ? Hnotin Hnd']; subst.
  destruct (p x); [exact Hnd' |]. simpl. constructor; [| now apply IH].
  intros Hin. apply Hnotin. apply in_map_iff in Hin.
  destruct Hin as (z & Hz & Hin). apply in_map_iff. exists z.
  split; [exact Hz | now apply In_remove_first in Hin].
Qed.

Lemma NoDup_map_snoc {B} (f : Doc -> B) (l : list Doc) (d : Doc) :
  List.NoDup (map f l) -> ~ In (f d) (map f l) -> List.NoDup (map f (l ++ [d])).
Proof.
  intros Hnd Hfresh. rewrite map_app. simpl.
  apply NoDup_ListNoDup, NoDup_app.
  split; [now apply NoDup_ListNoDup |]. split.
  - intros x Hx Hx2. apply list_elem_of_singleton in Hx2. subst x.
    apply Hfresh. now apply list_elem_of_In.
  - apply NoDup_singleton.
Qed.

Lemma replace_doc_absent (saved : Doc) (l : list Doc) :
  existsb (has_id (_id saved)) l = false -> replace_doc saved l = l.
Proof.
  unfold replace_doc. induction l as [|x l IH]; simpl; [reflexivity |].
  destruct (has_id (_id saved) x); simpl; [discriminate |].
  intros H. f_equal. now apply IH.
Qed.

Lemma NoDup_map_replace {B} (f : Doc -> B) (saved : Doc) (l : list Doc) :
  List.NoDup (map _id l) -> List.NoDup (map f l) ->
  ~ In (f saved) (map f (others (_id saved) l)) ->
  List.NoDup (map f (replace_doc saved l)).
Proof.
  induction l as [|x l IH]; simpl; [trivial |].
  intros Hid Hnd Hfresh.
  inversion Hid as [|? ? Hidnotin Hid']; subst.
  inversion Hnd as [|? ? Hnotin Hnd']; subst.
  unfold others in Hfresh. simpl in Hfresh.
  destruct (has_id (_id saved) x) eqn:Hx; simpl in *.
  - assert (Habs : existsb (has_id (_id saved)) l = false).
    { destruct (existsb (has_id (_id saved)) l) eqn:E; [| reflexivity].
      exfalso. apply Hidnotin. unfold has_id in Hx. apply N.eqb_eq in Hx.
      rewrite Hx. now apply existsb_has_id_In. }
    fold (replace_doc saved l). rewrite (replace_doc_absent saved l Habs).
    fold (others (_id saved) l) in Hfresh. rewrite (others_all _ _ Habs) in Hfresh.
    now constructor.
  - fold (replace_doc saved l). constructor.
    + intros Hin. apply in_map_iff in Hin. destruct Hin as (y & Hy & Hin).
      apply In_replace_doc in Hin. destruct Hin as [-> | [Hin _]].
      * apply Hfresh. left. now symmetry.
      * apply Hnotin. rewrite <- Hy. now apply in_map.
    + apply IH; auto.
Qed.

Lemma unique_violation_fresh (d : Doc) (l : list Doc) :
  unique_violation d l = None ->
  ~ In (username d) (map username l) /\ ~ In (email d) (map email l).
Proof.
  unfold unique_violation.
  destruct (existsb (has_id (_id d)) l); [discriminate |].
  destruct (existsb (fun x => String.eqb (username x) (username d)) l) eqn:Eu;
    [discriminate |].
  destruct (existsb (fun x => String.eqb (email x) (email d)) l) eqn:Ee;
    [discriminate |].
  intros _. split; intros Hin; apply in_map_iff in Hin; destruct Hin as (x & Hx & Hin).
  - assert (existsb (fun x => String.eqb (username x) (username d)) l = true);
      [| congruence].
    apply existsb_exists. exists x. split; [exact Hin | now apply String.eqb_eq].
  - assert (existsb (fun x => String.eqb (email x) (email d)) l = true);
      [| congruence].
    apply existsb_exists. exists x. split; [exact Hin | now apply String.eqb_eq].
Qed.

Lemma change_keeps_unique (l l' : list Doc) :
  change l l' -> List.NoDup (map _id l) -> unique_identities l -> unique_identities l'.
Proof.
  intros Hc Hid [Hu He].
  destruct Hc as [| n Hv _ | oid _ | user saved _ _ _ _ Hv _].
  - split; assumption.
  - apply unique_violation_fresh in Hv. destruct Hv as [Hfu Hfe].
    split; now apply NoDup_map_snoc.
  - split; now apply NoDup_map_remove_first.
  - apply unique_violation_fresh in Hv. destruct Hv as [Hfu Hfe].
    split; now apply NoDup_map_replace.
Qed.

(** X2. Usernames and emails stay unique: in a store with distinct
    identifiers where no two records share a username or an email, no
    request produces two records with the same username or the same
    email. *)
Theorem route_keeps_unique_identities (env : Env) (r : Request) (w : World) :
  List.NoDup (map _id (db w)) ->
  unique_identities (db w) ->
  unique_identities (db (snd (route env r w))).
Proof.
  intros Hid Hu.
  pose proof (route_single_write env r w) as H. unfold single_write in H.
  destruct (fst (route env r w)); [| contradiction].
  destruct H as [H _]. exact (change_keeps_unique _ _ H Hid Hu).
Qed.

(** ** Patterns and their character classes *)

Lemma classes_cat P r s : classes P r -> classes P s -> classes P (Regex.cat r s).
Proof. destruct r, s; simpl; tauto. Qed.

Lemma classes_alt P r s : classes P r -> classes P s -> classes P (Regex.alt r s).
Proof. destruct r, s; simpl; tauto. Qed.

Lemma classes_deriv P c r : classes P r -> classes P (Regex.deriv c r).
Proof.
  induction r as [| | p | r IHr s IHs | r IHr s IHs | r IHr]; simpl; intros H.
  - exact I.
  - exact I.
  - destruct (p c); exact I.
  - destruct H as [Hr Hs]. destruct (Regex.nullable r).
    + apply classes_alt; [apply classes_cat |]; auto.
    + apply classes_cat; auto.
  - destruct H as [Hr Hs]. apply classes_alt; auto.
  - apply classes_cat; auto.
Qed.

Lemma matches_Void s : Regex.matches Regex.Void s = false.
Proof. induction s as [|c s IH]; simpl; auto. Qed.

(** A character that no class of [r] takes kills the match. *)
Lemma deriv_rejected c r :
  classes (fun p => p c = false) r -> Regex.deriv c r = Regex.Void.
Proof.
  induction r as [| | p | r IHr s IHs | r IHr s IHs | r IHr]; simpl; intros H.
  - reflexivity.
  - reflexivity.
  - now rewrite H.
  - destruct H as [Hr Hs]. rewrite (IHr Hr), (IHs Hs).
    destruct (Regex.nullable r); reflexivity.
  - destruct H as [Hr Hs]. now rewrite (IHr Hr), (IHs Hs).
  - now rewrite (IHr H).
Qed.

Lemma classes_weaken (P Q : (ascii -> bool) -> Prop) r :
  (forall p, P p -> Q p) -> classes P r -> classes Q r.
Proof. intros HPQ. induction r; simpl; intuition auto. Qed.

(** If every class of [r] lies within [q], a matched string is made of
    characters of [q]. *)
Lemma matches_all_chars (q : ascii -> bool) r s :
  classes (fun p => forall c, p c = true -> q c = true) r ->
  Regex.matches r s = true -> Js.all_chars q s = true.
Proof.
  revert r. induction s as [|c s IH]; intros r Hr Hm; simpl in *; [reflexivity |].
  destruct (q c) eqn:Hq; simpl.
  - apply (IH (Regex.deriv c r)); [now apply classes_deriv | exact Hm].
  - rewrite deriv_rejected, matches_Void in Hm; [discriminate |].
    eapply classes_weaken; [| exact Hr]. intros p Hp. simpl.
    destruct (p c) eqn:Hpc; [| reflexivity]. rewrite (Hp c Hpc) in Hq. discriminate.
Qed.

(** If no class of [r] tells [c] from [f c], matching is the same on a
    string and on its image under [f]. *)
Lemma deriv_invariant (f : ascii -> ascii) c r :
  classes (fun p => forall c, p (f c) = p c) r ->
  Regex.deriv (f c) r = Regex.deriv c r.
Proof.
  induction r as [| | p | r IHr s IHs | r IHr s IHs | r IHr]; simpl; intros H.
  - reflexivity.
  - reflexivity.
  - now rewrite H.
  - destruct H as [Hr Hs]. now rewrite (IHr Hr), (IHs Hs).
  - destruct H as [Hr Hs]. now rewrite (IHr Hr), (IHs Hs).
  - now rewrite (IHr H).
Qed.

Lemma matches_invariant (f : ascii -> ascii) r s :
  classes (fun p => forall c, p (f c) = p c) r ->
  Regex.matches r (Js.map_chars f s) = Regex.matches r s.
Proof.
  revert r. induction s as [|c s IH]; intros r Hr; simpl; [reflexivity |].
  rewrite (deriv_invariant f c r Hr). apply IH. now apply classes_deriv.
Qed.

Lemma toLowerCase_map_chars s : Js.toLowerCase s = Js.map_chars Js.lower_char s.
Proof. induction s as [|c s IH]; simpl; [reflexivity | now rewrite IH]. Qed.

Lemma trimEnd_no_space s : Js.all_chars (fun c => negb (Js.is_space c)) s = true ->
  Js.trimEnd s = s.
Proof.
  induction s as [|c s IH]; simpl; [reflexivity |].
  intros H. apply andb_true_iff in H. destruct H as [Hc Hs].
  rewrite (IH Hs). apply negb_true_iff in Hc. destruct s; [now rewrite Hc | reflexivity].
Qed.

Lemma trim_no_space s : Js.all_chars (fun c => negb (Js.is_space c)) s = true ->
  Js.trim s = s.
Proof.
  intros H. unfold Js.trim.
  assert (Hs : Js.trimStart s = s).
  { destruct s as [|c s]; [reflexivity |]. simpl in *.
    apply andb_true_iff in H. destruct H as [Hc _].
    apply negb_true_iff in Hc. now rewrite Hc. }
  rewrite Hs. now apply trimEnd_no_space.
Qed.

Lemma emailRegex_classes_no_space :
  classes (fun p => forall c, p c = true -> negb (Js.is_space c) = true) emailRegex.
Proof.
  assert (Hn : forall c, negb (Js.is_space c || Ascii.eqb c "@") = true ->
                         negb (Js.is_space c) = true).
  { intros c H. apply negb_true_iff in H. apply orb_false_iff in H.
    apply negb_true_iff. tauto. }
  assert (Hat : forall c, Ascii.eqb "@" c = true -> negb (Js.is_space c) = true).
  { intros c H. apply Ascii.eqb_eq in H. now subst c. }
  assert (Hdot : forall c, Ascii.eqb "." c = true -> negb (Js.is_space c) = true).
  { intros c H. apply Ascii.eqb_eq in H. now subst c. }
  simpl. unfold Regex.Chr. simpl. tauto.
Qed.

Lemma emailRegex_classes_case :
  classes (fun p => forall c, p (Js.lower_char c) = p c) emailRegex.
Proof.
  assert (Hn : forall c, negb (Js.is_space (Js.lower_char c)
                               || Ascii.eqb (Js.lower_char c) "@")
                         = negb (Js.is_space c || Ascii.eqb c "@")).
  { intros c. destruct c as [[] [] [] [] [] [] [] []]; reflexivity. }
  assert (Hat : forall c, Ascii.eqb "@" (Js.lower_char c) = Ascii.eqb "@" c).
  { intros c. destruct c as [[] [] [] [] [] [] [] []]; reflexivity. }
  assert (Hdot : forall c, Ascii.eqb "." (Js.lower_char c) = Ascii.eqb "." c).
  { intros c. destruct c as [[] [] [] [] [] [] [] []]; reflexivity. }
  simpl. unfold Regex.Chr. simpl. tauto.
Qed.

(** An email the handler's pattern accepts has no white space, so the
    setters only lower its case, and the schema's validator accepts the
    result. *)
Lemma set_email_of_checked (e : string) :
  Regex.matches emailRegex e = true ->
  set_email e = Js.toLowerCase e /\
  Regex.matches emailRegex (set_email e) = true.
Proof.
  intros Hm.
  pose proof (matches_all_chars _ _ _ emailRegex_classes_no_space Hm) as Hns.
  assert (Hset : set_email e = Js.toLowerCase e).
  { unfold set_email. now rewrite (trim_no_space e Hns). }
  split; [exact Hset |]. rewrite Hset, toLowerCase_map_chars.
  now rewrite (matches_invariant _ _ _ emailRegex_classes_case).
Qed.

(** ** Registration *)

Lemma find_app {A} (p : A -> bool) (l : list A) (x : A) :
  List.find p (l ++ [x]) =
  match List.find p l with
  | Some y => Some y
  | None => if p x then Some x else None
  end.
Proof.
  induction l as [|y l IH]; simpl; [reflexivity |].
  destruct (p y); [reflexivity | exact IH].
Qed.

Lemma login_key_set_email (e : string) : login_key e = set_email e.
Proof.
  unfold login_key, set_email.
  now rewrite trim_toLowerCase, toLowerCase_idem.
Qed.

Lemma validate_email_of_checked (e : string) :
  Regex.matches emailRegex e = true -> validate_email (set_email e) = None.
Proof.
  intros Hm. destruct (set_email_of_checked e Hm) as [_ Hs].
  unfold validate_email. rewrite Hs. simpl.
  destruct (set_email e); [discriminate Hs | reflexivity].
Qed.

Lemma validate_password_of_checked (p : option string) :
  Js.truthy p = true -> (Js.len (Js.str p) <? 9) = false ->
  validate_password (Js.str p) = None.
Proof.
  intros Ht Hl. unfold validate_password. rewrite Hl.
  destruct p as [[| c s] |]; try discriminate Ht. reflexivity.
Qed.

(** The run of a registration that passes the input checks and finds no
    record. *)
Lemma createAuth_after_lookup env origin body file w :
  passes_input_checks body = true ->
  List.find (collides body) (db w) = None ->
  createAuth env origin body file w =
  try_catch
    (bind (save_new env
             (new_Auth (Js.str (reg_username body)) (Js.str (reg_email body))
                (Js.str (reg_password body))
                match file with
                | Some f => uploaded_url origin f
                | None => None
                end
                (if Js.truthy (reg_role body) then Js.str (reg_role body)
                 else "student")))
       (fun saved => ret (with_user 201 "User created successfully." saved)))
    (fun error =>
       match error with
       | ValidationError errorMessages => ret (validation_error errorMessages)
       | MongoServerError 11000 keyPattern =>
           ret (reply 400 false (hd "undefined" keyPattern ++ " already exists."))
       | _ => ret internal_error
       end)
    (logged (register_lookup body) w).
Proof.
  intros Hv Hfind.
  destruct (passes_input_checks_inv body Hv) as (Hu & He & Hp & Hlen & Hre).
  unfold createAuth. unfold try_catch at 1. rewrite Hu, He, Hp, Hlen, Hre. simpl.
  unfold bind at 1. rewrite Auth_findOne_Or. simpl.
  unfold collides in Hfind. rewrite Hfind. reflexivity.
Qed.

Lemma createAuth_created env origin body file w :
  passes_input_checks body = true ->
  List.find (collides body) (db w) = None ->
  let picture := match file with Some f => uploaded_url origin f | None => None end in
  let d := registered env body picture in
  validate_username (username d) = None ->
  validate_profilePicture (profilePicture d) = None ->
  validate_role (role d) = None ->
  unique_violation d (db w) = None ->
  createAuth env origin body file w =
    (Returned (with_user 201 "User created successfully." d),
     mkWorld (db w ++ [d])
       (trace w ++ [register_lookup body; OpSave (newObjectId env)])).
Proof.
  intros Hv Hfind picture d Hvu Hvp Hvr Huniq.
  rewrite (createAuth_after_lookup env origin body file w Hv Hfind).
  destruct (passes_input_checks_inv body Hv) as (Hu & He & Hp & Hlen & Hre).
  unfold try_catch, bind. rewrite save_new_run. unfold new_Auth. simpl.
  fold picture. unfold d, registered in Hvu, Hvp, Hvr, Huniq. simpl in Hvu, Hvp, Hvr.
  rewrite Hvu, (validate_email_of_checked _ Hre),
    (validate_password_of_checked _ Hp Hlen), Hvp, Hvr. simpl.
  unfold d, registered. rewrite Huniq. simpl.
  unfold ret. rewrite <- app_assoc. reflexivity.
Qed.

Lemma default_profilePicture_valid :
  validate_profilePicture default_profilePicture = None.
Proof. vm_compute. reflexivity. Qed.

Lemma find_none_Forall {A} (p : A -> bool) (l : list A) :
  List.find p l = None <-> Forall (fun x => p x = false) l.
Proof.
  split; [| apply find_none_of_Forall].
  induction l as [|x l IH]; simpl; [constructor |].
  destruct (p x) eqn:E; [discriminate |]. intros H. constructor; auto.
Qed.

Lemma existsb_false_of_Forall {A} (p : A -> bool) (l : list A) :
  Forall (fun x => p x = false) l -> existsb p l = false.
Proof.
  induction 1 as [|x l Hx _ IH]; simpl; [reflexivity |]. now rewrite Hx.
Qed.

Lemma createAuth_creates (env : Env) (origin : Origin) (body : RegisterBody)
    (file : option UploadedFile) (w : World) :
  passes_input_checks body = true ->
  3 <= Js.len (Js.trim (Js.str (reg_username body))) <= 20 ->
  (Js.truthy (reg_role body) = false \/ In (Js.str (reg_role body)) role_enum) ->
  Forall (fun d => email d <> Js.toLowerCase (Js.str (reg_email body)) /\
                   username d <> Js.trim (Js.str (reg_username body))) (db w) ->
  Forall (fun d => _id d <> newObjectId env) (db w) ->
  let picture :=
    default default_profilePicture
      match file with Some f => uploaded_url origin f | None => None end in
  validate_profilePicture picture = None ->
  let d :=
    mkDoc (newObjectId env)
      (Js.trim (Js.str (reg_username body)))
      (Js.toLowerCase (Js.str (reg_email body)))
      (bcrypt_hash (bcryptSalt env) (Js.str (reg_password body)) 12)
      picture
      (if Js.truthy (reg_role body) then Js.str (reg_role body) else "student")
      (now env) (now env) in
  createAuth env origin body file w =
    (Returned (with_user 201 "User created successfully." d),
     mkWorld (db w ++ [d])
       (trace w ++ [register_lookup body; OpSave (newObjectId env)])).
Proof.
  intros Hv Hlen Hrole Hfree Hfresh picture Hpic d.
  destruct (passes_input_checks_inv body Hv) as (Hu & He & Hp & Hplen & Hre).
  destruct (set_email_of_checked _ Hre) as [Hset _].
  assert (Hd : d = registered env body
                     match file with Some f => uploaded_url origin f | None => None end).
  { unfold d, registered, set_username. now rewrite Hset. }
  rewrite Hd.
  apply (createAuth_created env origin body file w Hv).
  - apply find_none_Forall. eapply Forall_impl; [exact Hfree |].
    intros x [Hx1 Hx2]. unfold collides, set_username. rewrite Hset.
    apply orb_false_iff. split; now apply String.eqb_neq.
  - simpl. unfold validate_username, set_username.
    destruct (Js.trim (Js.str (reg_username body))) as [|c s] eqn:Ht.
    + simpl in Hlen. unfold Js.len in Hlen. simpl in Hlen. lia.
    + simpl is_empty. cbv iota.
      destruct (Z.ltb_spec (Js.len (String c s)) 3); [lia |].
      destruct (Z.ltb_spec 20 (Js.len (String c s))); [lia | reflexivity].
  - exact Hpic.
  - simpl. unfold validate_role.
    destruct Hrole as [Hr | Hr].
    + rewrite Hr. reflexivity.
    + destruct (Js.truthy (reg_role body)); [| reflexivity].
      apply includes_In in Hr. now rewrite Hr.
  - assert (H1 : existsb (has_id (newObjectId env)) (db w) = false).
    { apply existsb_false_of_Forall. eapply Forall_impl; [exact Hfresh |].
      intros x Hx. unfold has_id. now apply N.eqb_neq. }
    assert (H2 : existsb (fun x => String.eqb (username x)
                            (set_username (Js.str (reg_username body)))) (db w) = false).
    { apply existsb_false_of_Forall. eapply Forall_impl; [exact Hfree |].
      intros x [_ Hx]. now apply String.eqb_neq. }
    assert (H3 : existsb (fun x => String.eqb (email x)
                            (set_email (Js.str (reg_email body)))) (db w) = false).
    { apply existsb_false_of_Forall. eapply Forall_impl; [exact Hfree |].
      intros x [Hx _]. rewrite Hset. now apply String.eqb_neq. }
    unfold unique_violation. simpl. now rewrite H1, H2, H3.
Qed.


(** X7. A registration without a file is created when it passes the input
    checks, its trimmed username has 3 to 20 characters, its role is
    absent or one of admin, instructor and student, no record holds its
    email (in lower case) or its trimmed username, and the identifier
    drawn is new. The answer is 201 with the new record, which is added
    at the end of the store: its email is the submitted one in lower
    case, its username the trimmed one, its password the digest of the
    submitted one at cost 12, its picture the default one, its role the
    submitted one or student. *)
Theorem register_creates_record (env : Env) (origin : Origin) (body : RegisterBody)
    (w : World) :
  passes_input_checks body = true ->
  3 <= Js.len (Js.trim (Js.str (reg_username body))) <= 20 ->
  (Js.truthy (reg_role body) = false \/ In (Js.str (reg_role body)) role_enum) ->
  Forall (fun d => email d <> Js.toLowerCase (Js.str (reg_email body)) /\
                   username d <> Js.trim (Js.str (reg_username body))) (db w) ->
  Forall (fun d => _id d <> newObjectId env) (db w) ->
  let d :=
    mkDoc (newObjectId env)
      (Js.trim (Js.str (reg_username body)))
      (Js.toLowerCase (Js.str (reg_email body)))
      (bcrypt_hash (bcryptSalt env) (Js.str (reg_password body)) 12)
      default_profilePicture
      (if Js.truthy (reg_role body) then Js.str (reg_role body) else "student")
      (now env) (now env) in
  createAuth env origin body None w =
    (Returned (with_user 201 "User created successfully." d),
     mkWorld (db w ++ [d])
       (trace w ++ [register_lookup body; OpSave (newObjectId env)])).
Proof.
  intros Hv Hlen Hrole Hfree Hfresh.
  exact (createAuth_creates env origin body None w Hv Hlen Hrole Hfree Hfresh
           default_profilePicture_valid).
Qed.

Lemma register_creates_record_witness :
  let d :=
    mkDoc (newObjectId sample_env)
      (Js.trim (Js.str (reg_username carol_registration)))
      (Js.toLowerCase (Js.str (reg_email carol_registration)))
      (bcrypt_hash (bcryptSalt sample_env) (Js.str (reg_password carol_registration)) 12)
      default_profilePicture
      (if Js.truthy (reg_role carol_registration)
       then Js.str (reg_role carol_registration) else "student")
      (now sample_env) (now sample_env) in
  createAuth sample_env sample_origin carol_registration None sample_world =
    (Returned (with_user 201 "User created successfully." d),
     mkWorld (db sample_world ++ [d])
       (trace sample_world
        ++ [register_lookup carol_registration; OpSave (newObjectId sample_env)])).
Proof.
  apply (register_creates_record sample_env sample_origin carol_registration
           sample_world).
  - vm_compute. reflexivity.
  - vm_compute. split; discriminate.
  - left. reflexivity.
  - repeat (constructor; [split; discriminate |]). constructor.
  - repeat (constructor; [discriminate |]). constructor.
Defined.

Lemma createAuth_created_inv env origin body file w resp w' :
  createAuth env origin body file w = (Returned resp, w') ->
  status resp = 201 ->
  passes_input_checks body = true /\
  List.find (collides body) (db w) = None /\
  exists picture,
    resp = with_user 201 "User created successfully." (registered env body picture) /\
    db w' = (db w ++ [registered env body picture])%list.
Proof.
  intros Hrun Hst.
  destruct (passes_input_checks body) eqn:Hv.
  - destruct (List.find (collides body) (db w)) as [existing |] eqn:Hfind.
    + rewrite (createAuth_existing env origin body file w existing Hv Hfind) in Hrun.
      injection Hrun as <- _. discriminate Hst.
    + split; [reflexivity |]. split; [reflexivity |].
      rewrite (createAuth_after_lookup env origin body file w Hv Hfind) in Hrun.
      unfold try_catch, bind in Hrun. rewrite save_new_run in Hrun.
      destruct (collect _) as [| m ms].
      * cbv zeta in Hrun.
        destruct (unique_violation _ _) as [field |].
        -- simpl in Hrun. injection Hrun as <- _. discriminate Hst.
        -- unfold ret in Hrun. injection Hrun as <- <-. simpl.
           eexists. split; reflexivity.
      * simpl in Hrun. injection Hrun as <- _. discriminate Hst.
  - exfalso. unfold createAuth, try_catch in Hrun. unfold passes_input_checks in Hv.
    destruct (Js.truthy (reg_username body)), (Js.truthy (reg_email body)),
      (Js.truthy (reg_password body)); simpl in *;
      try (injection Hrun as <- _; discriminate Hst).
    destruct (Js.len (Js.str (reg_password body)) <? 9); simpl in *;
      try (injection Hrun as <- _; discriminate Hst).
    rewrite Hv in Hrun. simpl in Hrun. injection Hrun as <- _. discriminate Hst.
Qed.

Lemma loginAuth_verified env body w user :
  Js.truthy (login_email body) = true ->
  Js.truthy (login_password body) = true ->
  user_by_email (db w) (Js.str (login_email body)) = Some user ->
  bcrypt_compare (Js.str (login_password body)) (password user) = true ->
  loginAuth env body w =
    (Returned (with_token user env),
     logged (OpComparePassword (_id user))
       (logged (OpFindOne (Eq FEmail (Js.toLowerCase (Js.str (login_email body))))) w)).
Proof.
  intros He Hp Hu Hc. unfold loginAuth, try_catch. rewrite He, Hp. simpl.
  unfold bind at 1. rewrite Auth_findOne_Eq.
  unfold user_by_email, login_key in Hu. simpl. rewrite Hu.
  unfold bind, comparePassword, log, ret; simpl. rewrite Hc. reflexivity.
Qed.

(** X8. Register, then log in. After a registration answered 201, a login
    with the same email and password is answered 200 with the record just
    created and a token for it; a login with the same email and a password
    from which bcrypt reads another key (the 72 bytes of [bcrypt_key]) is
    answered 401. Passwords that differ only after their first 72 bytes,
    or as [p] and [p], NUL, [p], have the same key and are not told
    apart. *)
Theorem register_then_login (env env' : Env) (origin : Origin) (body : RegisterBody)
    (file : option UploadedFile) (w w' : World) (resp : Response) :
  createAuth env origin body file w = (Returned resp, w') ->
  status resp = 201 ->
  exists d,
    user resp = Some (toJSON d) /\
    In d (db w') /\
    fst (loginAuth env' (mkLoginBody (reg_email body) (reg_password body)) w')
      = Returned (with_token d env') /\
    forall other : string,
      other <> EmptyString ->
      bcrypt_key other <> bcrypt_key (Js.str (reg_password body)) ->
      fst (loginAuth env' (mkLoginBody (reg_email body) (Some other)) w')
        = Returned (reply 401 false "Invalid email or password.").
Proof.
  intros Hrun Hst.
  destruct (createAuth_created_inv env origin body file w resp w' Hrun Hst)
    as (Hv & Hfind & picture & -> & Hdb).
  destruct (passes_input_checks_inv body Hv) as (Hu & He & Hp & Hlen & Hre).
  set (d := registered env body picture) in *.
  assert (Hlookup : user_by_email (db w') (Js.str (reg_email body)) = Some d).
  { unfold user_by_email. rewrite Hdb, find_app, login_key_set_email.
    assert (Hnone : List.find (fun x => String.eqb (email x)
                      (set_email (Js.str (reg_email body)))) (db w) = None).
    { apply find_none_Forall. apply find_none_Forall in Hfind.
      eapply Forall_impl; [exact Hfind |]. intros x Hx.
      unfold collides in Hx. apply orb_false_iff in Hx. tauto. }
    rewrite Hnone. simpl. now rewrite String.eqb_refl. }
  exists d. split; [reflexivity |]. split.
  { rewrite Hdb. apply in_or_app. right. now left. }
  split.
  - rewrite (loginAuth_verified env' _ w' d); simpl; auto.
    unfold bcrypt_compare. simpl. apply String.eqb_refl.
  - intros other Hne Hdiff.
    apply (loginAuth_wrong_password env' _ w' d); simpl; auto.
    + destruct other; [congruence | reflexivity].
    + unfold bcrypt_compare. simpl. now apply String.eqb_neq.
Qed.

Lemma register_then_login_witness :
  let created := registered sample_env carol_registration None in
  let w' := mkWorld (db sample_world ++ [created])
              (trace sample_world
               ++ [register_lookup carol_registration;
                   OpSave (newObjectId sample_env)]) in
  exists d,
    user (with_user 201 "User created successfully." created) = Some (toJSON d) /\
    In d (db w') /\
    fst (loginAuth sample_env
           (mkLoginBody (reg_email carol_registration)
              (reg_password carol_registration)) w')
      = Returned (with_token d sample_env) /\
    forall other : string,
      other <> EmptyString ->
      bcrypt_key other <> bcrypt_key (Js.str (reg_password carol_registration)) ->
      fst (loginAuth sample_env
             (mkLoginBody (reg_email carol_registration) (Some other)) w')
        = Returned (reply 401 false "Invalid email or password.").
Proof.
  intros created w'.
  apply (register_then_login sample_env sample_env sample_origin carol_registration
           None sample_world w'
           (with_user 201 "User created successfully." created)).
  - vm_compute. reflexivity.
  - reflexivity.
Defined.

Lemma collect_cons (o : option string) (l : list (option string)) :
  collect (o :: l) = match o with Some m => m :: collect l | None => collect l end.
Proof. destruct o; reflexivity. Qed.

Lemma collect_nonempty (l : list (option string)) (m : string) :
  In (Some m) l -> collect l <> [].
Proof.
  induction l as [|o l IH]; [intros [] |].
  intros H. rewrite collect_cons. destruct H as [-> | H]; [discriminate |].
  destruct o; [discriminate | now apply IH].
Qed.

Lemma validate_username_length (v : string) :
  Js.len v < 3 \/ 20 < Js.len v -> exists m, validate_username v = Some m.
Proof.
  intros H. unfold validate_username.
  destruct (is_empty v); [eauto |].
  destruct (Z.ltb_spec (Js.len v) 3); [eauto |].
  destruct (Z.ltb_spec 20 (Js.len v)); [eauto | lia].
Qed.

(** X9. A registration that passes the input checks and collides with no
    record, but whose trimmed username is shorter than 3 or longer than
    20 characters, or whose role is given and is not admin, instructor or
    student, is rejected by the schema: the answer is 400
    "Validation error." with at least one message, and nothing is stored.
    A username of white space only is such a case. *)
Theorem register_rejected_by_schema (env : Env) (origin : Origin)
    (body : RegisterBody) (file : option UploadedFile) (w : World) :
  passes_input_checks body = true ->
  Forall (fun d => email d <> Js.toLowerCase (Js.str (reg_email body)) /\
                   username d <> Js.trim (Js.str (reg_username body))) (db w) ->
  (Js.len (Js.trim (Js.str (reg_username body))) < 3 \/
   20 < Js.len (Js.trim (Js.str (reg_username body))) \/
   (Js.truthy (reg_role body) = true /\ ~ In (Js.str (reg_role body)) role_enum)) ->
  exists messages,
    messages <> [] /\
    createAuth env origin body file w =
      (Returned (validation_error messages),
       mkWorld (db w) (trace w ++ [register_lookup body; OpSave (newObjectId env)])).
Proof.
  intros Hv Hfree Hbad.
  destruct (passes_input_checks_inv body Hv) as (Hu & He & Hp & Hplen & Hre).
  destruct (set_email_of_checked _ Hre) as [Hset _].
  assert (Hfind : List.find (collides body) (db w) = None).
  { apply find_none_Forall. eapply Forall_impl; [exact Hfree |].
    intros x [Hx1 Hx2]. unfold collides, set_username. rewrite Hset.
    apply orb_false_iff. split; now apply String.eqb_neq. }
  rewrite (createAuth_after_lookup env origin body file w Hv Hfind).
  unfold try_catch, bind. rewrite save_new_run.
  match goal with |- context [collect ?l] =>
    assert (Hne : collect l <> []); [| destruct (collect l) as [| m ms] eqn:Hc] end.
  - destruct Hbad as [Hb | [Hb | [Hr Hb]]].
    + destruct (validate_username_length _ (or_introl Hb)) as [m Hm].
      apply (collect_nonempty _ m). left. exact Hm.
    + destruct (validate_username_length _ (or_intror Hb)) as [m Hm].
      apply (collect_nonempty _ m). left. exact Hm.
    + eapply collect_nonempty. do 4 right. left.
      unfold new_Auth. simpl. rewrite Hr. unfold validate_role.
      destruct (Js.includes role_enum (Js.str (reg_role body))) eqn:Hi.
      * exfalso. apply Hb. now apply includes_In.
      * reflexivity.
  - congruence.
  - exists (m :: ms). split; [discriminate |]. simpl. unfold ret, logged. simpl.
    now rewrite <- app_assoc.
Qed.

Lemma register_rejected_by_schema_witness :
  exists messages,
    messages <> [] /\
    createAuth sample_env sample_origin
      (mkRegisterBody (Some "  ab  ") (Some "carol@x.com") (Some "password123") None)
      None sample_world =
      (Returned (validation_error messages),
       mkWorld (db sample_world)
         (trace sample_world
          ++ [register_lookup
                (mkRegisterBody (Some "  ab  ") (Some "carol@x.com")
                   (Some "password123") None);
              OpSave (newObjectId sample_env)])).
Proof.
  apply (register_rejected_by_schema sample_env sample_origin
           (mkRegisterBody (Some "  ab  ") (Some "carol@x.com") (Some "password123")
              None)
           None sample_world).
  - vm_compute. reflexivity.
  - repeat (constructor; [split; discriminate |]). constructor.
  - left. vm_compute. reflexivity.
Defined.

(** ** Stored records satisfy the schema *)

Lemma change_keeps_well_formed (l l' : list Doc) :
  change l l' -> Forall well_formed l -> Forall well_formed l'.
Proof.
  intros Hc Hl. destruct Hc as [| n _ Hn | oid _ | user saved _ _ _ _ _ Hs].
  - exact Hl.
  - apply Forall_app. split; [exact Hl | now constructor].
  - rewrite Forall_forall in *. intros x Hx. apply Hl.
    apply list_elem_of_In. apply list_elem_of_In in Hx.
    now apply In_remove_first in Hx.
  - rewrite Forall_forall in *. intros x Hx.
    apply list_elem_of_In, In_replace_doc in Hx.
    destruct Hx as [-> | [Hx _]]; [exact Hs | now apply Hl, list_elem_of_In].
Qed.

(** X10. Every stored record satisfies the schema, request after request:
    if the usernames have 3 to 20 characters, the emails and the picture
    URLs have the shapes the schema asks for and the roles are admin,
    instructor or student before a request, the same holds after it. *)
Theorem route_keeps_well_formed (env : Env) (r : Request) (w : World) :
  Forall well_formed (db w) ->
  Forall well_formed (db (snd (route env r w))).
Proof.
  intros Hw.
  pose proof (route_single_write env r w) as H. unfold single_write in H.
  destruct (fst (route env r w)); [| contradiction].
  destruct H as [H _]. exact (change_keeps_well_formed _ _ H Hw).
Qed.

Lemma sample_ids_distinct : List.NoDup (map _id (db sample_world)).
Proof. repeat constructor; simpl; intuition discriminate. Qed.

Lemma sample_identities_unique : unique_identities (db sample_world).
Proof. split; repeat constructor; simpl; intuition discriminate. Qed.

Lemma sample_well_formed : Forall well_formed (db sample_world).
Proof.
  repeat constructor; try (vm_compute; reflexivity); try (vm_compute; discriminate);
    simpl; tauto.
Qed.

Lemma route_keeps_well_formed_witness :
  Forall well_formed
    (db (snd (route sample_env
                (PostRegister sample_origin carol_registration (Some sample_png))
                sample_world))).
Proof.
  apply (route_keeps_well_formed sample_env
           (PostRegister sample_origin carol_registration (Some sample_png))
           sample_world).
  exact sample_well_formed.
Defined.

Lemma route_keeps_unique_identities_witness :
  unique_identities
    (db (snd (route sample_env
                (PutUser sample_origin alice_id
                   (mkUpdateBody (Some "alicia") None None) None)
                sample_world))).
Proof.
  apply (route_keeps_unique_identities sample_env
           (PutUser sample_origin alice_id (mkUpdateBody (Some "alicia") None None) None)
           sample_world).
  - exact sample_ids_distinct.
  - exact sample_identities_unique.
Defined.

Lemma route_keeps_store_ok_witness :
  store_ok
    (db (snd (route sample_env
                (PostRegister sample_origin carol_registration (Some sample_png))
                sample_world))).
Proof.
  apply (route_keeps_store_ok sample_env
           (PostRegister sample_origin carol_registration (Some sample_png))
           sample_world).
  split; [exact sample_ids_distinct | repeat constructor].
Defined.

Lemma route_never_changes_digest_witness :
  password (mkDoc 1 "alicia" "alice@x.com" (bcrypt_hash "s1" "password123" 12)
              default_profilePicture "student" 100 1700000000000)
    = password alice /\
  createdAt (mkDoc 1 "alicia" "alice@x.com" (bcrypt_hash "s1" "password123" 12)
               default_profilePicture "student" 100 1700000000000)
    = createdAt alice.
Proof.
  apply (route_never_changes_digest sample_env
           (PutUser sample_origin alice_id (mkUpdateBody (Some "alicia") None None) None)
           sample_world).
  - exact sample_ids_distinct.
  - left. reflexivity.
  - vm_compute. left. reflexivity.
  - reflexivity.
Defined.

(** ** Look-up of one user *)

(** X11. The look-up of one user is answered 500 when the identifier is
    not well formed, 404 when it is well formed and no record has it, and
    otherwise 200 with a record of the store that has this identifier,
    serialised by [toJSON]. The store is not changed; the only call made
    is the look-up. *)
Theorem getSingleUser_by_id (env : Env) (userId : string) (w : World) :
  exists resp,
    getSingleUser env userId w = (Returned resp, logged (OpFindById userId) w) /\
    match castObjectId userId with
    | None => resp = reply 500 false "Internal server error."
    | Some oid =>
        (Forall (fun d => _id d <> oid) (db w) /\
         resp = reply 404 false "User not found.")
        \/
        (exists d, In d (db w) /\ _id d = oid /\
                   resp = with_user 200 "User retrieved successfully." d /\
                   user resp = Some (toJSON d))
    end.
Proof.
  unfold getSingleUser, try_catch, bind. rewrite Auth_findById_run.
  destruct (castObjectId userId) as [oid |]; [| eexists; split; reflexivity].
  destruct (List.find (has_id oid) (db w)) as [d |] eqn:Hfind.
  - eexists. split; [reflexivity |]. right. exists d.
    destruct (find_has_id _ _ _ Hfind) as [Hid Hin]. auto.
  - eexists. split; [reflexivity |]. left. split; [| reflexivity].
    apply find_none_Forall in Hfind. eapply Forall_impl; [exact Hfind |].
    intros x Hx. unfold has_id in Hx. now apply N.eqb_neq.
Qed.

(** ** Updates *)

Lemma save_returned env d w saved w1 :
  save env d w = (Returned saved, w1) ->
  db w1 = replace_doc saved (db w) /\
  _id saved = _id d /\ username saved = username d /\ email saved = email d /\
  password saved = password d /\ profilePicture saved = profilePicture d /\
  role saved = role d /\ createdAt saved = createdAt d /\
  (updatedAt saved = updatedAt d \/ updatedAt saved = now env) /\
  well_formed saved.
Proof.
  rewrite save_run. destruct (collect _) as [| m ms] eqn:Hcol; [| discriminate].
  apply well_formed_of_validators in Hcol.
  destruct (unique_violation _ _); [discriminate |].
  cbv zeta. intros H. injection H as <- <-. simpl.
  destruct (bool_decide _); simpl; unfold replace_doc; simpl; auto 12.
Qed.

Lemma save_thrown env d w e w1 :
  save env d w = (Thrown e, w1) -> db w1 = db w.
Proof.
  rewrite save_run. destruct (collect _) as [| m ms].
  - destruct (unique_violation _ _); [| discriminate].
    intros H. injection H as _ <-. reflexivity.
  - intros H. injection H as _ <-. reflexivity.
Qed.

(** X12. What a successful profile update means. When a request to update
    a profile is answered 200, the identifier is that of a record [old] of
    the store, and the record [saved] returned took its place there. It
    has the identifier, the password digest and the creation time of
    [old]; its username, email and role are the submitted ones (trimmed;
    trimmed and in lower case; as given) where the body has them and
    those of [old] otherwise; its picture is the URL of the uploaded file
    when there is one and that of [old] otherwise; and it satisfies the
    schema. *)
Theorem profile_update_success (env : Env) (origin : Origin) (userId : string)
    (body : UpdateBody) (file : option FilePart) (w w' : World) (resp : Response) :
  route env (PutUser origin userId body file) w = (Returned resp, w') ->
  status resp = 200 ->
  exists (old saved : Doc) (uploaded : option UploadedFile),
    uploadProfilePicture (now env) (randomBytes env) file = inr uploaded /\
    In old (db w) /\
    castObjectId userId = Some (_id old) /\
    resp = with_user 200 "Profile updated successfully." saved /\
    db w' = replace_doc saved (db w) /\
    _id saved = _id old /\
    password saved = password old /\
    createdAt saved = createdAt old /\
    username saved = (if Js.truthy (upd_username body)
                      then Js.trim (Js.str (upd_username body)) else username old) /\
    email saved = (if Js.truthy (upd_email body)
                   then Js.toLowerCase (Js.trim (Js.str (upd_email body)))
                   else email old) /\
    role saved = (if Js.truthy (upd_role body)
                  then Js.str (upd_role body) else role old) /\
    profilePicture saved =
      match uploaded with
      | Some f => protocol origin ++ "://" ++ Js.str (host origin)
                  ++ "/uploads/profile-pictures/" ++ filename f
      | None => profilePicture old
      end /\
    well_formed saved.
Proof.
  simpl. unfold with_upload.
  destruct (uploadProfilePicture (now env) (randomBytes env) file)
    as [e | uploaded] eqn:Hup.
  { intros H. injection H as <- _. intros Hst.
    destruct (handleMulterError_structured e) as [H400 _]. congruence. }
  unfold updateUserProfile.
  destruct (castObjectId userId) as [oid |] eqn:Hid.
  2: { unfold try_catch, bind. rewrite Auth_findById_run, Hid.
       intros H. injection H as <- _. discriminate. }
  erewrite try_catch_bind; [| rewrite Auth_findById_run, Hid; reflexivity].
  destruct (List.find (has_id oid) (db w)) as [old |] eqn:Hfind.
  2: { intros H. injection H as <- _. discriminate. }
  destruct (taken_run env (upd_email body) (email old) FEmail
              (Js.str (upd_email body)) (logged (OpFindById userId) w))
    as (b1 & w1 & Ht1 & Hdb1).
  erewrite try_catch_bind; [| exact Ht1].
  destruct b1; [intros H; injection H as <- _; discriminate |].
  destruct (taken_run env (upd_username body) (username old) FUsername
              (Js.str (upd_username body)) w1) as (b2 & w2 & Ht2 & Hdb2).
  erewrite try_catch_bind; [| exact Ht2].
  assert (Hdb : db w2 = db w) by (simpl in Hdb1; congruence).
  destruct b2; [intros H; injection H as <- _; discriminate |].
  cbv zeta. unfold try_catch, bind.
  match goal with |- context [save env ?x w2] => set (d := x) end.
  destruct (save env d w2) as [[saved | e] w3] eqn:Hsave.
  - intros H _. unfold ret in H. injection H as <- <-.
    destruct (save_returned env d w2 saved w3 Hsave)
      as (Hs0 & Hs1 & Hs2 & Hs3 & Hs4 & Hs5 & Hs6 & Hs7 & _ & Hs9).
    destruct (find_has_id _ _ _ Hfind) as [Hoid Hin].
    exists old, saved, uploaded.
    split; [reflexivity |]. split; [exact Hin |].
    split; [now rewrite Hoid |]. split; [reflexivity |].
    split; [now rewrite Hs0, Hdb |].
    subst d.
    unfold assign_role, assign_email, assign_username, set_profilePicture
      in Hs1, Hs2, Hs3, Hs4, Hs5, Hs6, Hs7.
    rewrite Hs1, Hs2, Hs3, Hs4, Hs5, Hs6, Hs7.
    destruct uploaded as [f |].
    + rewrite (uploaded_url_of_upload _ _ _ _ origin Hup).
      destruct (Js.truthy (upd_role body)), (Js.truthy (upd_email body)),
        (Js.truthy (upd_username body)); simpl; auto 12.
    + destruct (Js.truthy (upd_role body)), (Js.truthy (upd_email body)),
        (Js.truthy (upd_username body)); simpl; auto 12.
  - intros H. destruct e; simpl in H; injection H as <- _; discriminate.
Qed.

Lemma profile_update_success_witness :
  exists (old saved : Doc) (uploaded : option UploadedFile),
    uploadProfilePicture (now sample_env) (randomBytes sample_env) None = inr uploaded /\
    In old (db sample_world) /\
    castObjectId alice_id = Some (_id old) /\
    with_user 200 "Profile updated successfully." alicia
      = with_user 200 "Profile updated successfully." saved /\
    [alicia; bob] = replace_doc saved (db sample_world) /\
    _id saved = _id old /\
    password saved = password old /\
    createdAt saved = createdAt old /\
    username saved = "alicia" /\
    email saved = email old /\
    role saved = role old /\
    profilePicture saved =
      match uploaded with
      | Some f => protocol sample_origin ++ "://" ++ Js.str (host sample_origin)
                  ++ "/uploads/profile-pictures/" ++ filename f
      | None => profilePicture old
      end /\
    well_formed saved.
Proof.
  apply (profile_update_success sample_env sample_origin alice_id
           (mkUpdateBody (Some "alicia") None None) None sample_world
           (mkWorld [alicia; bob] [OpFindById alice_id;
                                   OpFindOne (Eq FUsername "alicia"); OpSave 1])
           (with_user 200 "Profile updated successfully." alicia)).
  - vm_compute. reflexivity.
  - reflexivity.
Defined.

(** X13. What a successful picture update means. When a request to
    replace a picture is answered 200, a file was uploaded and accepted,
    the identifier is that of a record [old] of the store, and the record
    [saved] returned took its place there: its picture is the URL of the
    uploaded file, and its identifier, username, email, role, password
    digest and creation time are those of [old]. *)
Theorem picture_update_success (env : Env) (origin : Origin) (userId : string)
    (file : option FilePart) (w w' : World) (resp : Response) :
  route env (PutUserPicture origin userId file) w = (Returned resp, w') ->
  status resp = 200 ->
  exists (old saved : Doc) (f : UploadedFile),
    uploadProfilePicture (now env) (randomBytes env) file = inr (Some f) /\
    In old (db w) /\
    castObjectId userId = Some (_id old) /\
    resp = with_user 200 "Profile picture updated successfully." saved /\
    db w' = replace_doc saved (db w) /\
    profilePicture saved =
      protocol origin ++ "://" ++ Js.str (host origin)
      ++ "/uploads/profile-pictures/" ++ filename f /\
    _id saved = _id old /\ username saved = username old /\
    email saved = email old /\ role saved = role old /\
    password saved = password old /\ createdAt saved = createdAt old /\
    well_formed saved.
Proof.
  simpl. unfold with_upload.
  destruct (uploadProfilePicture (now env) (randomBytes env) file)
    as [e | uploaded] eqn:Hup.
  { intros H. injection H as <- _. intros Hst.
    destruct (handleMulterError_structured e) as [H400 _]. congruence. }
  unfold updateProfilePicture.
  destruct uploaded as [f |]; [| intros H; injection H as <- _; discriminate].
  destruct (castObjectId userId) as [oid |] eqn:Hid.
  2: { unfold try_catch, bind. rewrite Auth_findById_run, Hid.
       intros H. injection H as <- _. discriminate. }
  erewrite try_catch_bind; [| rewrite Auth_findById_run, Hid; reflexivity].
  destruct (List.find (has_id oid) (db w)) as [old |] eqn:Hfind.
  2: { intros H. injection H as <- _. discriminate. }
  cbv zeta. unfold try_catch, bind.
  match goal with |- context [save env ?x ?w0] => set (d := x); set (w2 := w0) end.
  destruct (save env d w2) as [[saved | e] w3] eqn:Hsave.
  - intros H _. unfold ret in H. injection H as <- <-.
    destruct (save_returned env d w2 saved w3 Hsave)
      as (Hs0 & Hs1 & Hs2 & Hs3 & Hs4 & Hs5 & Hs6 & Hs7 & _ & Hs9).
    destruct (find_has_id _ _ _ Hfind) as [Hoid Hin].
    exists old, saved, f.
    split; [reflexivity |]. split; [exact Hin |].
    split; [now rewrite Hoid |]. split; [reflexivity |].
    split; [now rewrite Hs0 |].
    subst d. unfold set_profilePicture in Hs1, Hs2, Hs3, Hs4, Hs5, Hs6, Hs7.
    rewrite (uploaded_url_of_upload _ _ _ _ origin Hup) in Hs5.
    simpl in Hs1, Hs2, Hs3, Hs4, Hs5, Hs6, Hs7. auto 12.
  - intros H. simpl in H. injection H as <- _. discriminate.
Qed.

Lemma picture_update_success_witness :
  exists (old saved : Doc) (f : UploadedFile),
    uploadProfilePicture (now sample_env) (randomBytes sample_env) (Some sample_png)
      = inr (Some f) /\
    In old (db sample_world) /\
    castObjectId alice_id = Some (_id old) /\
    with_user 200 "Profile picture updated successfully." alice_with_picture
      = with_user 200 "Profile picture updated successfully." saved /\
    [alice_with_picture; bob] = replace_doc saved (db sample_world) /\
    profilePicture saved =
      protocol sample_origin ++ "://" ++ Js.str (host sample_origin)
      ++ "/uploads/profile-pictures/" ++ filename f /\
    _id saved = _id old /\ username saved = username old /\
    email saved = email old /\ role saved = role old /\
    password saved = password old /\ createdAt saved = createdAt old /\
    well_formed saved.
Proof.
  apply (picture_update_success sample_env sample_origin alice_id
           (Some sample_png) sample_world
           (mkWorld [alice_with_picture; bob] [OpFindById alice_id; OpSave 1])
           (with_user 200 "Profile picture updated successfully." alice_with_picture)).
  - vm_compute. reflexivity.
  - reflexivity.
Defined.

(** ** More on the listing *)

Lemma getAllUsers_ok_compiles env q w resp :
  fst (getAllUsers env q w) = Returned resp -> status resp = 200 ->
  exists p, compile (regexI env) (list_query (q_role q) (q_search q)) = Some p /\
            0 <= (default 1 (q_page q) - 1) * default 10 (q_limit q).
Proof.
  unfold getAllUsers, try_catch, Auth_find, Auth_countDocuments, compiled. cbv zeta.
  destruct (compile (regexI env) _) as [p |].
  - unfold bind at 1. unfold bind at 1. unfold log at 1. simpl.
    destruct (Z.ltb_spec ((default 1 (q_page q) - 1) * default 10 (q_limit q)) 0).
    + simpl. intros Hr. injection Hr as <-. discriminate.
    + intros _ _. eauto.
  - simpl. intros Hr. injection Hr as <-. discriminate.
Qed.

Lemma listing_nonempty (docs : list Doc) (limit : Z) (k : nat) :
  1 <= limit ->
  (listing_of (apply_limit limit (drop k docs)) <> [] <-> (k < length docs)%nat).
Proof.
  intros Hl. unfold listing_of, apply_limit.
  destruct (Z.eqb_spec limit 0); [lia |].
  rewrite Z.abs_eq by lia.
  assert (Hlen : length (map (fun d => serialize (select_minus "password" d))
                           (take (Z.to_nat limit) (drop k docs)))
                 = Nat.min (Z.to_nat limit) (length docs - k)).
  { now rewrite length_map, length_take, length_drop. }
  split.
  - intros Hne. destruct (map _ _) eqn:E; [congruence |]. simpl in Hlen. lia.
  - intros Hk Hnil. rewrite Hnil in Hlen. simpl in Hlen. lia.
Qed.

(** X14. [hasNextPage] tells the truth. For a listing answered 200 with
    [page] and [limit] at least 1, the flag [hasNextPage] is true exactly
    when the same listing asked for the next page returns at least one
    record; and [hasPrevPage] is true exactly when the page is not the
    first. *)
Theorem hasNextPage_iff_next_page (env : Env) (q : ListQuery) (w : World)
    (resp : Response) :
  1 <= default 1 (q_page q) ->
  1 <= default 10 (q_limit q) ->
  fst (getAllUsers env q w) = Returned resp ->
  status resp = 200 ->
  exists (pg : Pagination) (next : list Obj) (resp' : Response),
    pagination resp = Some pg /\
    fst (getAllUsers env (with_page (default 1 (q_page q) + 1) q) w) = Returned resp' /\
    status resp' = 200 /\
    users resp' = Some next /\
    (hasNextPage pg = true <-> next <> []) /\
    (hasPrevPage pg = true <-> 1 < default 1 (q_page q)).
Proof.
  intros Hpage Hlimit Hrun Hst.
  destruct (getAllUsers_ok_compiles env q w resp Hrun Hst) as (p & Hc & Hskip).
  set (page := default 1 (q_page q)) in *.
  set (limit := default 10 (q_limit q)) in *.
  pose proof (getAllUsers_run env q w p Hc Hskip) as H1. cbv zeta in H1.
  fold page limit in H1.
  rewrite H1 in Hrun. simpl in Hrun. injection Hrun as <-.
  assert (Hskip' : 0 <= (default 1 (q_page (with_page (page + 1) q)) - 1)
                        * default 10 (q_limit (with_page (page + 1) q))).
  { simpl. fold limit. nia. }
  pose proof (getAllUsers_run env (with_page (page + 1) q) w p Hc Hskip') as H2.
  cbv zeta in H2. simpl in H2. fold limit in H2.
  set (docs := merge_sort newest_first (List.filter p (db w))) in *.
  assert (Hlen : length (List.filter p (db w)) = length docs).
  { symmetry. apply Permutation_length, merge_sort_Permutation. }
  rewrite Hlen in *.
  destruct (ceil_div_pos (Z.of_nat (length docs)) limit ltac:(lia)) as (tp & Htp & Hb).
  do 3 eexists. split; [reflexivity |].
  split; [rewrite H2; reflexivity |]. split; [reflexivity |].
  split; [reflexivity |]. simpl. rewrite Htp. simpl. split.
  - rewrite listing_nonempty by exact Hlimit.
    replace (page + 1 - 1) with page by lia.
    rewrite Z.ltb_lt. split; intros H.
    + apply Nat2Z.inj_lt. rewrite Z2Nat.id by nia. nia.
    + apply Nat2Z.inj_lt in H. rewrite Z2Nat.id in H by nia. nia.
  - apply Z.ltb_lt.
Qed.

Lemma hasNextPage_iff_next_page_witness :
  exists (pg : Pagination) (next : list Obj) (resp' : Response),
    pagination (mkResponse 200 true "Users retrieved successfully." None
                  (Some (listing_of [bob])) None None None
                  (Some (mkPagination 1 (Fin 2) 2 true false))) = Some pg /\
    fst (getAllUsers sample_env
           (with_page (1 + 1) (mkListQuery (Some 1) (Some 1) None None))
           sample_world) = Returned resp' /\
    status resp' = 200 /\
    users resp' = Some next /\
    (hasNextPage pg = true <-> next <> []) /\
    (hasPrevPage pg = true <-> 1 < 1).
Proof.
  apply (hasNextPage_iff_next_page sample_env
           (mkListQuery (Some 1) (Some 1) None None) sample_world).
  - simpl. lia.
  - simpl. lia.
  - vm_compute. reflexivity.
  - reflexivity.
Defined.

(** X15. A listing whose skip [(page - 1) * limit] is negative, as for
    page 0 with the default limit, is answered 500: the store refuses the
    query, nothing is counted and nothing is changed. *)
Theorem listing_with_negative_skip (env : Env) (q : ListQuery) (w : World) :
  (default 1 (q_page q) - 1) * default 10 (q_limit q) < 0 ->
  getAllUsers env q w =
    (Returned (reply 500 false "Internal server error."),
     logged (OpFind (list_query (q_role q) (q_search q))) w).
Proof.
  intros Hneg.
  unfold getAllUsers, try_catch, Auth_find, Auth_countDocuments, compiled. cbv zeta.
  destruct (compile (regexI env) _) as [p |].
  - unfold bind at 1. unfold bind at 1. unfold log at 1. simpl.
    destruct (Z.ltb_spec ((default 1 (q_page q) - 1) * default 10 (q_limit q)) 0);
      [reflexivity | lia].
  - reflexivity.
Qed.

Lemma listing_with_negative_skip_witness :
  getAllUsers sample_env (mkListQuery (Some 0) None None None) sample_world =
    (Returned (reply 500 false "Internal server error."),
     logged (OpFind (list_query None None)) sample_world).
Proof.
  apply (listing_with_negative_skip sample_env
           (mkListQuery (Some 0) None None None) sample_world).
  simpl. lia.
Defined.

(** ** Stored file names *)

Lemma all_chars_app (p : ascii -> bool) (a b : string) :
  Js.all_chars p (a ++ b) = Js.all_chars p a && Js.all_chars p b.
Proof.
  induction a as [|c a IH]; simpl; [reflexivity |]. now rewrite IH, andb_assoc.
Qed.

Lemma all_chars_impl (p q : ascii -> bool) (s : string) :
  (forall c, p c = true -> q c = true) ->
  Js.all_chars p s = true -> Js.all_chars q s = true.
Proof.
  intros Hpq. induction s as [|c s IH]; simpl; [reflexivity |].
  intros H. apply andb_true_iff in H. destruct H as [Hc Hs].
  now rewrite (Hpq c Hc), IH.
Qed.

Lemma all_chars_take (p : ascii -> bool) (n : nat) (s : string) :
  Js.all_chars p s = true -> Js.all_chars p (Js.take n s) = true.
Proof.
  revert s. induction n as [|n IH]; intros [|c s]; simpl; try reflexivity.
  intros H. apply andb_true_iff in H. destruct H as [Hc Hs].
  now rewrite Hc, IH.
Qed.

Lemma all_chars_sanitized (s : string) :
  Js.all_chars name_char
    (Js.map_chars (fun c => if Js.is_alnum c then c else "_"%char) s) = true.
Proof.
  induction s as [|c s IH]; simpl; [reflexivity |]. rewrite IH, andb_true_r.
  unfold name_char. destruct (Js.is_alnum c) eqn:E; [now rewrite E | reflexivity].
Qed.

Lemma pretty_N_char_digit (x : N) : name_char (pretty_N_char x) = true.
Proof.
  unfold pretty_N_char.
  repeat (match goal with |- context [match ?y with _ => _ end] => destruct y end;
          try reflexivity).
Qed.

Lemma pretty_N_go_chars (x : N) (s : string) :
  Js.all_chars name_char s = true ->
  Js.all_chars name_char (pretty_N_go x s) = true.
Proof.
  revert s. induction x as [x IH] using (well_founded_induction N.lt_wf_0).
  intros s Hs. destruct (N.eq_dec x 0%N) as [-> | Hx].
  - now rewrite pretty_N_go_0.
  - rewrite pretty_N_go_step by lia. apply IH.
    + apply N.div_lt; lia.
    + simpl. now rewrite pretty_N_char_digit, Hs.
Qed.

Lemma pretty_N_chars (x : N) : Js.all_chars name_char (pretty x) = true.
Proof.
  unfold pretty, pretty_N. destruct (decide (x = 0%N)); [reflexivity |].
  now apply pretty_N_go_chars.
Qed.

Lemma pretty_Z_chars (x : Z) : Js.all_chars name_char (pretty x) = true.
Proof.
  destruct x as [| p | p]; [reflexivity | apply (pretty_N_chars (Npos p)) |].
  change (pretty (Zneg p)) with ("-" +:+ pretty (Npos p)).
  simpl. apply (pretty_N_chars (Npos p)).
Qed.

Lemma hex_digit_char (n : N) : (n < 16)%N -> name_char (Js.hex_digit n) = true.
Proof.
  intros H. destruct n as [| p]; [reflexivity |].
  do 5 (try destruct p as [p | p |]); try reflexivity; lia.
Qed.

Lemma hex_chars (bytes : list N) : Js.all_chars name_char (Js.hex bytes) = true.
Proof.
  induction bytes as [|b bytes IH]; [reflexivity |].
  change (Js.hex (b :: bytes)) with (Js.hex_byte b ++ Js.hex bytes).
  rewrite all_chars_app, IH, andb_true_r. unfold Js.hex_byte. simpl.
  rewrite !hex_digit_char; [reflexivity | |]; apply N.mod_lt; lia.
Qed.

Lemma allowed_extension_chars (ext : string) :
  In ext allowedExtensions -> Js.all_chars name_char ext = true.
Proof.
  unfold allowedExtensions. simpl.
  intros H. repeat (destruct H as [<- | H]; [reflexivity |]). contradiction.
Qed.

Lemma upload_accepted_inv timestamp bytes p f :
  uploadProfilePicture timestamp bytes p = inr (Some f) ->
  exists file,
    p = Some file /\
    f = mkUploadedFile file (storage_filename timestamp bytes file) /\
    fieldname file = "profilePicture" /\
    In (mimetype file) allowedMimeTypes /\
    In (Js.toLowerCase (Path.extname (originalname file))) allowedExtensions /\
    size file < fileSize.
Proof.
  unfold uploadProfilePicture. destruct p as [file |]; [| discriminate].
  destruct (is_empty _); [discriminate |].
  destruct (String.eqb_spec (fieldname file) "profilePicture") as [Hf | _];
    [| discriminate]. simpl.
  pose proof (fileFilter_accepts file) as Hff.
  destruct (fileFilter file) as [e | b]; [discriminate |].
  destruct (Z.leb_spec fileSize (size file)) as [| Hsize]; [discriminate |].
  intros Hr. injection Hr as <-. exists file.
  destruct Hff as [Hff _]. destruct (Hff (ex_intro _ b eq_refl)) as [Hm Hx].
  auto 10.
Qed.

Lemma storage_filename_chars timestamp bytes file :
  In (Js.toLowerCase (Path.extname (originalname file))) allowedExtensions ->
  Js.all_chars name_char (storage_filename timestamp bytes file) = true.
Proof.
  intros Hx. unfold storage_filename. cbv zeta.
  rewrite !all_chars_app.
  rewrite all_chars_take by apply all_chars_sanitized.
  rewrite pretty_Z_chars, hex_chars, (allowed_extension_chars _ Hx). reflexivity.
Qed.

(** X16. The name under which an accepted file is stored is made of
    letters, digits, [_], [-] and [.] only, whatever the name it was
    uploaded with: it contains no path separator, no white space and no
    control character. *)
Theorem stored_name_is_safe (timestamp : Z) (bytes : list N) (p : option FilePart)
    (f : UploadedFile) :
  uploadProfilePicture timestamp bytes p = inr (Some f) ->
  Js.all_chars name_char (filename f) = true /\
  Js.all_chars not_slash (filename f) = true.
Proof.
  intros Hup.
  destruct (upload_accepted_inv _ _ _ _ Hup) as (file & _ & -> & _ & _ & Hx & _).
  simpl. pose proof (storage_filename_chars timestamp bytes file Hx) as H.
  split; [exact H |].
  eapply all_chars_impl; [| exact H].
  intros c Hc. destruct (Ascii.eqb_spec c "/"%char) as [-> | Hn].
  - discriminate Hc.
  - unfold not_slash. now apply negb_true_iff, Ascii.eqb_neq.
Qed.

Lemma stored_name_is_safe_witness :
  Js.all_chars name_char "My_Cat-1700000000000-0102030405060708.png" = true /\
  Js.all_chars not_slash "My_Cat-1700000000000-0102030405060708.png" = true.
Proof.
  apply (stored_name_is_safe 1700000000000 sample_bytes (Some sample_png)
           (mkUploadedFile sample_png "My_Cat-1700000000000-0102030405060708.png")).
  vm_compute. reflexivity.
Defined.

(** ** From the URL back to the file name *)

Lemma append_assoc (a b c : string) : (a ++ b) ++ c = a ++ (b ++ c).
Proof.
  induction a as [|x a IH]; [reflexivity |].
  change (String x ((a ++ b) ++ c) = String x (a ++ (b ++ c))). now f_equal.
Qed.

Lemma split_slash_not_nil (s : string) : split_slash s <> [].
Proof.
  induction s as [|c s IH]; simpl; [discriminate |].
  destruct (Ascii.eqb c "/"); [discriminate |].
  destruct (split_slash s); discriminate.
Qed.

Lemma split_slash_app (a b : string) :
  split_slash (a ++ String "/" b) = (split_slash a ++ split_slash b)%list.
Proof.
  induction a as [|c a IH]; simpl; [reflexivity |].
  destruct (Ascii.eqb c "/"); [now rewrite IH |].
  rewrite IH. pose proof (split_slash_not_nil a) as Hne.
  destruct (split_slash a); [congruence | reflexivity].
Qed.

Lemma split_slash_single (s : string) :
  Js.all_chars not_slash s = true -> split_slash s = [s].
Proof.
  induction s as [|c s IH]; simpl; [reflexivity |].
  intros H. apply andb_true_iff in H. destruct H as [Hc Hs].
  unfold not_slash in Hc. apply negb_true_iff in Hc. rewrite Hc, (IH Hs). reflexivity.
Qed.

Lemma last_segment (a b : string) :
  Js.all_chars not_slash b = true ->
  List.last (split_slash (a ++ String "/" b)) "undefined" = b.
Proof.
  intros Hb. rewrite split_slash_app, (split_slash_single b Hb).
  apply last_last.
Qed.

Lemma generateImageUrl_shape (name : string) (origin : Origin) :
  name <> EmptyString ->
  generateImageUrl (Some name) origin =
    Some ((protocol origin ++ "://" ++ Js.str (host origin)
           ++ "/uploads/profile-pictures") ++ String "/" name).
Proof.
  intros Hne. unfold generateImageUrl.
  destruct name as [|c name]; [congruence |]. simpl Js.truthy. cbv iota. simpl negb.
  cbv iota. f_equal. simpl Js.str.
  rewrite !append_assoc. reflexivity.
Qed.

(** X17. From the URL back to the name. For a file name that is not empty
    and has no slash, [extractFilenameFromUrl] applied to the URL that
    [generateImageUrl] builds for it gives the name back, whatever the
    scheme and the host; a missing name gives no URL, and a missing URL
    gives no name. *)
Theorem extractFilename_of_generated (name : string) (origin : Origin) :
  name <> EmptyString ->
  Js.all_chars not_slash name = true ->
  extractFilenameFromUrl (generateImageUrl (Some name) origin) = Some name /\
  generateImageUrl None origin = None /\
  generateImageUrl (Some EmptyString) origin = None /\
  extractFilenameFromUrl None = None /\
  extractFilenameFromUrl (Some EmptyString) = None.
Proof.
  intros Hne Hns. split; [| repeat split].
  rewrite (generateImageUrl_shape name origin Hne).
  unfold extractFilenameFromUrl.
  match goal with |- context [Js.truthy (Some ?u)] =>
    assert (Ht : Js.truthy (Some u) = true) end.
  { destruct (protocol origin); reflexivity. }
  rewrite Ht. simpl negb. cbv iota zeta. f_equal.
  simpl Js.str. now apply last_segment.
Qed.

Lemma extractFilename_of_generated_witness :
  extractFilenameFromUrl
    (generateImageUrl (Some "My_Cat-1700000000000-0102030405060708.png") sample_origin)
    = Some "My_Cat-1700000000000-0102030405060708.png" /\
  generateImageUrl None sample_origin = None /\
  generateImageUrl (Some EmptyString) sample_origin = None /\
  extractFilenameFromUrl None = None /\
  extractFilenameFromUrl (Some EmptyString) = None.
Proof.
  apply (extractFilename_of_generated "My_Cat-1700000000000-0102030405060708.png"
           sample_origin).
  - discriminate.
  - reflexivity.
Defined.

(** X18. For every accepted upload, the name recovered from the URL stored
    as the picture is the name of the stored file: the URL of an upload
    always leads back to its file. *)
Theorem extractFilename_of_upload (timestamp : Z) (bytes : list N)
    (p : option FilePart) (f : UploadedFile) (origin : Origin) :
  uploadProfilePicture timestamp bytes p = inr (Some f) ->
  extractFilenameFromUrl (uploaded_url origin f) = Some (filename f).
Proof.
  intros Hup.
  destruct (upload_accepted_inv _ _ _ _ Hup) as (file & _ & -> & _ & _ & Hx & _).
  simpl filename. unfold uploaded_url. simpl filename.
  pose proof (storage_filename_chars timestamp bytes file Hx) as Hc.
  pose proof (storage_filename_truthy timestamp bytes file) as Ht.
  assert (Hne : storage_filename timestamp bytes file <> EmptyString).
  { intros E. rewrite E in Ht. discriminate. }
  rewrite (generateImageUrl_shape _ origin Hne).
  unfold extractFilenameFromUrl.
  match goal with |- context [Js.truthy (Some ?u)] =>
    assert (Hu : Js.truthy (Some u) = true) end.
  { destruct (protocol origin); reflexivity. }
  rewrite Hu. simpl negb. cbv iota zeta. f_equal. simpl Js.str.
  apply last_segment.
  eapply all_chars_impl; [| exact Hc].
  intros c Hcc. destruct (Ascii.eqb_spec c "/"%char) as [-> | Hn].
  - discriminate Hcc.
  - unfold not_slash. now apply negb_true_iff, Ascii.eqb_neq.
Qed.

Lemma extractFilename_of_upload_witness :
  extractFilenameFromUrl
    (uploaded_url sample_origin
       (mkUploadedFile sample_png "My_Cat-1700000000000-0102030405060708.png"))
    = Some "My_Cat-1700000000000-0102030405060708.png".
Proof.
  apply (extractFilename_of_upload 1700000000000 sample_bytes (Some sample_png)
           (mkUploadedFile sample_png "My_Cat-1700000000000-0102030405060708.png")
           sample_origin).
  vm_compute. reflexivity.
Defined.

(** ** What the patterns match *)

Lemma nullable_alt r s :
  Regex.nullable (Regex.alt r s) = Regex.nullable r || Regex.nullable s.
Proof. destruct r, s; simpl; auto using orb_true_r, orb_false_r. Qed.

Lemma matches_alt r s x :
  Regex.matches (Regex.alt r s) x = Regex.matches r x || Regex.matches s x.
Proof.
  revert r s. induction x as [|c x IH]; intros r s; simpl.
  - apply nullable_alt.
  - assert (Hgen : Regex.matches (Regex.deriv c (Regex.Alt r s)) x
                   = Regex.matches (Regex.deriv c r) x
                     || Regex.matches (Regex.deriv c s) x) by apply IH.
    destruct r; try (destruct s; try exact Hgen;
                     simpl; now rewrite ?matches_Void, ?orb_false_r).
    all: simpl; now rewrite ?matches_Void.
Qed.

Lemma matches_Alt r s x :
  Regex.matches (Regex.Alt r s) x = Regex.matches r x || Regex.matches s x.
Proof. destruct x as [|c x]; simpl; [reflexivity | apply matches_alt]. Qed.

Lemma matches_Cat_Void_r r x : Regex.matches (Regex.Cat r Regex.Void) x = false.
Proof.
  revert r. induction x as [|c x IH]; intros r; simpl.
  - apply andb_false_r.
  - destruct (Regex.nullable r).
    + rewrite matches_alt, matches_Void, orb_false_r.
      destruct (Regex.deriv c r); simpl; apply matches_Void.
    + destruct (Regex.deriv c r); simpl; apply matches_Void.
Qed.

Lemma matches_cat r s x :
  Regex.matches (Regex.cat r s) x = Regex.matches (Regex.Cat r s) x.
Proof.
  destruct r; try (destruct s; try reflexivity; simpl Regex.cat;
                   now rewrite matches_Void, matches_Cat_Void_r).
  - (* Void *) simpl Regex.cat. rewrite matches_Void.
    destruct x as [|c x]; simpl; [reflexivity | now rewrite matches_Void].
  - (* Eps *)
    assert (He : Regex.matches (Regex.Cat Regex.Eps s) x = Regex.matches s x).
    { destruct x as [|c x]; simpl; reflexivity. }
    rewrite He. destruct s; reflexivity.
Qed.

Lemma matches_deriv_Cat c r s x :
  Regex.matches (Regex.deriv c (Regex.Cat r s)) x =
  Regex.matches (Regex.Cat (Regex.deriv c r) s) x
  || (Regex.nullable r && Regex.matches (Regex.deriv c s) x).
Proof.
  simpl. destruct (Regex.nullable r); simpl.
  - now rewrite matches_alt, matches_cat.
  - now rewrite matches_cat, orb_false_r.
Qed.

Lemma matches_Cat_intro r s a b :
  Regex.matches r a = true -> Regex.matches s b = true ->
  Regex.matches (Regex.Cat r s) (a ++ b) = true.
Proof.
  revert r. induction a as [|c a IH]; intros r Ha Hb.
  - simpl in Ha. change (EmptyString ++ b) with b.
    destruct b as [|d b]; simpl in *.
    + now rewrite Ha, Hb.
    + change (Regex.matches (Regex.deriv d (Regex.Cat r s)) b = true).
      rewrite matches_deriv_Cat, Ha, Hb. apply orb_true_r.
  - change (Regex.matches (Regex.deriv c (Regex.Cat r s)) (a ++ b) = true).
    rewrite matches_deriv_Cat. simpl in Ha. now rewrite (IH _ Ha Hb).
Qed.

Lemma matches_Cat_inv r s x :
  Regex.matches (Regex.Cat r s) x = true ->
  exists a b, x = a ++ b /\ Regex.matches r a = true /\ Regex.matches s b = true.
Proof.
  revert r. induction x as [|c x IH]; intros r H.
  - simpl in H. apply andb_true_iff in H. exists EmptyString, EmptyString. tauto.
  - change (Regex.matches (Regex.deriv c (Regex.Cat r s)) x = true) in H.
    rewrite matches_deriv_Cat in H. apply orb_true_iff in H. destruct H as [H | H].
    + destruct (IH _ H) as (a & b & -> & Ha & Hb).
      exists (String c a), b. auto.
    + apply andb_true_iff in H. destruct H as [Hn Hs].
      exists EmptyString, (String c x). auto.
Qed.

Lemma matches_Cls_inv p x :
  Regex.matches (Regex.Cls p) x = true ->
  exists c, x = String c EmptyString /\ p c = true.
Proof.
  destruct x as [|c x]; simpl; [discriminate |].
  destruct (p c) eqn:E; [| now rewrite matches_Void].
  destruct x as [|d x]; simpl; [eauto | now rewrite matches_Void].
Qed.

Lemma matches_Cls_intro (p : ascii -> bool) c :
  p c = true -> Regex.matches (Regex.Cls p) (String c EmptyString) = true.
Proof. intros H. simpl. now rewrite H. Qed.

Lemma matches_weaker r r' :
  weaker r r' -> forall x, Regex.matches r x = true -> Regex.matches r' x = true.
Proof.
  induction 1 as [r | r | p q Hpq | r r' s s' _ IHr _ IHs | r r' s s' _ IHr _ IHs];
    intros x Hx.
  - exact Hx.
  - now rewrite matches_Void in Hx.
  - destruct (matches_Cls_inv p x Hx) as (c & -> & Hc).
    apply matches_Cls_intro. auto.
  - destruct (matches_Cat_inv r s x Hx) as (a & b & -> & Ha & Hb).
    apply matches_Cat_intro; auto.
  - rewrite matches_Alt in *. apply orb_true_iff in Hx. apply orb_true_iff.
    destruct Hx; auto.
Qed.

Lemma weaker_Lit_LitI s : weaker (Regex.Lit s) (Regex.LitI s).
Proof.
  induction s as [|c s IH]; simpl; [constructor |].
  apply weaker_cat; [| exact IH]. apply weaker_cls.
  intros d Hd. apply Ascii.eqb_eq in Hd. subst d. apply Ascii.eqb_refl.
Qed.

Lemma schema_pattern_weaker : weaker profilePictureRegex imageUrlRegex.
Proof.
  unfold profilePictureRegex, imageUrlRegex.
  apply weaker_cat; [apply weaker_Lit_LitI |].
  apply weaker_cat.
  { apply weaker_alt; [constructor |]. apply weaker_cls.
    intros d Hd. apply Ascii.eqb_eq in Hd. subst d. reflexivity. }
  apply weaker_cat; [apply weaker_Lit_LitI |].
  apply weaker_cat; [constructor |].
  apply weaker_cat; [constructor |].
  unfold image_extensions, Regex.OneOf. cbn [map fold_right].
  repeat (apply weaker_alt; [apply weaker_Lit_LitI |]). apply weaker_void.
Qed.

(** X19. Every picture URL the schema accepts is an image URL for the
    upload module: what [profilePicture]'s validator lets through,
    [isValidImageUrl] lets through as well. The converse fails, as the
    upload module also takes bmp and tiff, and upper case. *)
Theorem schema_url_is_valid_image_url (url : string) :
  validate_profilePicture url = None -> isValidImageUrl url = true.
Proof.
  intros H. apply validate_profilePicture_None in H.
  exact (matches_weaker _ _ schema_pattern_weaker url H).
Qed.

Lemma schema_url_is_valid_image_url_witness :
  isValidImageUrl default_profilePicture = true.
Proof.
  apply (schema_url_is_valid_image_url default_profilePicture).
  vm_compute. reflexivity.
Defined.

Lemma profilePictureRegex_shape :
  profilePictureRegex
  = url_pattern Regex.Lit Regex.Chr [ "png"; "jpg"; "jpeg"; "gif"; "webp" ].
Proof. reflexivity. Qed.

Lemma imageUrlRegex_shape :
  imageUrlRegex = url_pattern Regex.LitI Regex.ChrI image_extensions.
Proof. reflexivity. Qed.

Lemma matches_Star_Dot x :
  Js.all_chars dot_char x = true -> Regex.matches (Regex.Star Regex.Dot) x = true.
Proof.
  induction x as [|c x IH]; simpl; [reflexivity |].
  intros H. apply andb_true_iff in H. destruct H as [Hc Hx].
  unfold dot_char in Hc. rewrite Hc. simpl. now apply IH.
Qed.

Lemma matches_Lit s : Regex.matches (Regex.Lit s) s = true.
Proof.
  induction s as [|c s IH]; [reflexivity |].
  change (String c s) with (String c EmptyString ++ s).
  apply matches_Cat_intro; [| exact IH].
  apply matches_Cls_intro, Ascii.eqb_refl.
Qed.

Lemma matches_LitI s : Regex.matches (Regex.LitI s) s = true.
Proof. exact (matches_weaker _ _ (weaker_Lit_LitI s) s (matches_Lit s)). Qed.

Lemma matches_Eps_inv x : Regex.matches Regex.Eps x = true -> x = EmptyString.
Proof. destruct x; simpl; [reflexivity | now rewrite matches_Void]. Qed.

Lemma matches_Lit_inv s x : Regex.matches (Regex.Lit s) x = true -> x = s.
Proof.
  revert x. induction s as [|c s IH]; intros x H.
  - now apply matches_Eps_inv.
  - simpl Regex.Lit in H.
    destruct (matches_Cat_inv _ _ _ H) as (a & b & -> & Ha & Hb).
    destruct (matches_Cls_inv _ _ Ha) as (d & -> & Hd).
    apply Ascii.eqb_eq in Hd. subst d. now rewrite (IH b Hb).
Qed.

Lemma OneOf_cons r (rs : list Regex.re) :
  Regex.OneOf (r :: rs) = Regex.Alt r (Regex.OneOf rs).
Proof. reflexivity. Qed.

Lemma matches_OneOf_intro (rs : list Regex.re) r x :
  In r rs -> Regex.matches r x = true -> Regex.matches (Regex.OneOf rs) x = true.
Proof.
  induction rs as [|r0 rs IH]; [intros [] |].
  intros [-> | Hin] Hx; rewrite OneOf_cons, matches_Alt.
  - now rewrite Hx.
  - rewrite (IH Hin Hx). apply orb_true_r.
Qed.

Lemma matches_OneOf_inv (rs : list Regex.re) x :
  Regex.matches (Regex.OneOf rs) x = true ->
  exists r, In r rs /\ Regex.matches r x = true.
Proof.
  induction rs as [|r0 rs IH].
  - change (Regex.OneOf []) with Regex.Void. now rewrite matches_Void.
  - rewrite OneOf_cons, matches_Alt. intros H.
    apply orb_true_iff in H. destruct H as [H | H].
    + exists r0. split; [now left | exact H].
    + destruct (IH H) as (r & Hr & Hx). exists r. split; [now right | exact Hx].
Qed.

(** A URL made of a web scheme, a stem without line terminators, a dot
    and a listed extension matches the pattern. *)
Lemma url_pattern_intro (L : string -> Regex.re) (C : ascii -> Regex.re)
    (exts : list string) (scheme stem e : string) :
  (forall s, Regex.matches (L s) s = true) ->
  Regex.matches (C "s"%char) "s" = true ->
  scheme = "http" \/ scheme = "https" ->
  Js.all_chars dot_char stem = true ->
  In e exts ->
  Regex.matches (url_pattern L C exts) (scheme ++ "://" ++ stem ++ "." ++ e) = true.
Proof.
  intros HL HC Hscheme Hstem He.
  assert (Hsplit : exists opt, Regex.matches (Regex.Opt (C "s"%char)) opt = true /\
                     scheme ++ "://" ++ stem ++ "." ++ e
                     = "http" ++ opt ++ "://" ++ stem ++ "." ++ e).
  { destruct Hscheme as [-> | ->].
    - exists EmptyString. split; reflexivity.
    - exists "s". split; [| reflexivity].
      unfold Regex.Opt. rewrite matches_Alt, HC. apply orb_true_r. }
  destruct Hsplit as (opt & Hopt & ->).
  unfold url_pattern.
  apply matches_Cat_intro; [apply HL |].
  apply matches_Cat_intro; [exact Hopt |].
  apply matches_Cat_intro; [apply HL |].
  apply matches_Cat_intro; [now apply matches_Star_Dot |].
  apply matches_Cat_intro; [reflexivity |].
  apply (matches_OneOf_intro _ (L e)); [now apply in_map | apply HL].
Qed.

(** A string the schema's pattern matches ends with a dot and one of its
    five extensions. *)
Lemma profilePictureRegex_inv x :
  Regex.matches profilePictureRegex x = true ->
  exists y e, x = y ++ "." ++ e /\ In e [ "png"; "jpg"; "jpeg"; "gif"; "webp" ].
Proof.
  rewrite profilePictureRegex_shape. unfold url_pattern. intros H.
  destruct (matches_Cat_inv _ _ _ H) as (a1 & x1 & -> & _ & H1).
  destruct (matches_Cat_inv _ _ _ H1) as (a2 & x2 & -> & _ & H2).
  destruct (matches_Cat_inv _ _ _ H2) as (a3 & x3 & -> & _ & H3).
  destruct (matches_Cat_inv _ _ _ H3) as (a4 & x4 & -> & _ & H4).
  destruct (matches_Cat_inv _ _ _ H4) as (a5 & a6 & -> & H5 & H6).
  destruct (matches_Cls_inv _ _ H5) as (d & -> & Hd).
  apply Ascii.eqb_eq in Hd. subst d.
  destruct (matches_OneOf_inv _ _ H6) as (r & Hr & Hx).
  apply in_map_iff in Hr. destruct Hr as (e & <- & He).
  apply matches_Lit_inv in Hx. subst a6.
  exists (a1 ++ a2 ++ a3 ++ a4), e. split; [| exact He].
  now rewrite !append_assoc.
Qed.

Lemma rev_chars_app (a b : string) (acc : list ascii) :
  Path.rev_chars (a ++ b) acc = Path.rev_chars b (Path.rev_chars a acc).
Proof.
  revert acc. induction a as [|c a IH]; intros acc; [reflexivity |].
  change (Path.rev_chars (a ++ b) (c :: acc)
          = Path.rev_chars b (Path.rev_chars a (c :: acc))). apply IH.
Qed.

(** No string ends both with [.bmp] or [.tiff] and with a dot and an
    extension of the schema. *)
Lemma unknown_extension_mismatch (y z e ext : string) :
  In e [ "png"; "jpg"; "jpeg"; "gif"; "webp" ] ->
  ext = ".bmp" \/ ext = ".tiff" ->
  y ++ "." ++ e <> z ++ ext.
Proof.
  intros He Hext Heq.
  apply (f_equal (fun s => Path.rev_chars s [])) in Heq.
  rewrite !rev_chars_app in Heq.
  simpl in He.
  destruct Hext as [-> | ->];
    repeat (destruct He as [<- | He]; [simpl in Heq; discriminate Heq |]);
    contradiction.
Qed.

Lemma allowed_extension_cases (ext : string) :
  In ext allowedExtensions ->
  (In ext schema_extensions /\
   exists e, ext = "." ++ e /\ In e [ "png"; "jpg"; "jpeg"; "gif"; "webp" ]
             /\ In e image_extensions)
  \/ ((ext = ".bmp" \/ ext = ".tiff") /\ ~ In ext schema_extensions /\
      exists e, ext = "." ++ e /\ In e image_extensions).
Proof.
  unfold allowedExtensions, schema_extensions, image_extensions. simpl.
  intros H.
  repeat (destruct H as [<- | H];
          [first [ left; split; [tauto |]; eexists; split; [reflexivity |]; tauto
                 | right; split; [tauto |]; split;
                   [ intros Hin; repeat (destruct Hin as [Hin | Hin];
                                         [discriminate Hin |]); contradiction
                   | eexists; split; [reflexivity |]; tauto ] ] |]).
  contradiction.
Qed.

(** The URL of a stored file: scheme, stem, extension. *)
Lemma uploaded_url_split timestamp bytes file origin :
  uploaded_url origin (mkUploadedFile file (storage_filename timestamp bytes file))
  = Some (protocol origin ++ "://" ++ url_stem origin timestamp bytes file
          ++ extension_of file).
Proof.
  unfold uploaded_url, generateImageUrl. simpl filename.
  rewrite storage_filename_truthy. simpl negb. cbv iota. f_equal.
  unfold url_stem, storage_filename, extension_of. cbv zeta. simpl Js.str.
  rewrite !append_assoc. reflexivity.
Qed.

Lemma url_stem_clean origin timestamp bytes file :
  clean_host origin ->
  Js.all_chars dot_char (url_stem origin timestamp bytes file) = true.
Proof.
  intros Hh. unfold url_stem. rewrite !all_chars_app.
  assert (Hn : forall s, Js.all_chars name_char s = true ->
                         Js.all_chars dot_char s = true).
  { intros s. apply all_chars_impl.
    intros c. destruct c as [[] [] [] [] [] [] [] []]; simpl; try reflexivity;
      intros Hc; discriminate Hc. }
  unfold clean_host in Hh. fold dot_char in Hh.
  rewrite Hh.
  rewrite (Hn _ (all_chars_take _ 20 _ (all_chars_sanitized _))).
  rewrite (Hn _ (pretty_Z_chars timestamp)), (Hn _ (hex_chars bytes)).
  reflexivity.
Qed.

Lemma validate_profilePicture_unlisted (stem ext : string) :
  ext = ".bmp" \/ ext = ".tiff" ->
  validate_profilePicture (stem ++ ext)
  = Some ((stem ++ ext) ++ " is not a valid image URL!").
Proof.
  intros Hext. unfold validate_profilePicture.
  destruct (Regex.matches profilePictureRegex (stem ++ ext)) eqn:Hm; [| reflexivity].
  exfalso. destruct (profilePictureRegex_inv _ Hm) as (y & e & Heq & He).
  exact (unknown_extension_mismatch y stem e ext He Hext (eq_sym Heq)).
Qed.

Lemma upload_url_assoc origin timestamp bytes file :
  protocol origin ++ "://" ++ url_stem origin timestamp bytes file
    ++ extension_of file
  = (protocol origin ++ "://" ++ url_stem origin timestamp bytes file)
    ++ extension_of file.
Proof. now rewrite !append_assoc. Qed.

(** ** The URL of a stored upload against the two URL patterns *)

(** X20. Behind an origin whose scheme is http or https and whose host
    holds no line terminator, the URL generated for any upload the
    middleware accepts passes [isValidImageUrl]. *)
Theorem upload_url_is_valid_image_url (origin : Origin) (timestamp : Z)
    (bytes : list N) (p : option FilePart) (f : UploadedFile) :
  uploadProfilePicture timestamp bytes p = inr (Some f) ->
  web_scheme origin ->
  clean_host origin ->
  exists url, uploaded_url origin f = Some url /\ isValidImageUrl url = true.
Proof.
  intros Hup Hs Hh.
  destruct (upload_accepted_inv _ _ _ _ Hup) as (file & -> & -> & _ & _ & Hext & _).
  rewrite uploaded_url_split. eexists. split; [reflexivity |].
  fold (extension_of file) in Hext.
  assert (He : exists e, extension_of file = "." ++ e /\ In e image_extensions).
  { destruct (allowed_extension_cases _ Hext)
      as [(_ & e & He1 & _ & He2) | (_ & _ & e & He1 & He2)]; eauto. }
  destruct He as (e & -> & He).
  unfold isValidImageUrl. rewrite imageUrlRegex_shape.
  apply url_pattern_intro;
    [ apply matches_LitI | reflexivity | exact Hs
    | now apply url_stem_clean | exact He ].
Qed.

Lemma upload_url_is_valid_image_url_witness :
  exists url,
    uploaded_url sample_origin
      (mkUploadedFile sample_bmp
         (storage_filename (now sample_env) (randomBytes sample_env) sample_bmp))
    = Some url /\ isValidImageUrl url = true.
Proof.
  apply (upload_url_is_valid_image_url sample_origin (now sample_env)
           (randomBytes sample_env) (Some sample_bmp)).
  - vm_compute. reflexivity.
  - left. reflexivity.
  - vm_compute. reflexivity.
Defined.

(** X21. The schema's validator of [profilePicture] accepts the URL
    generated for an accepted upload exactly when the file's extension,
    in lower case, is one of .png, .jpg, .jpeg, .gif and .webp: of the
    seven extensions the upload filter lets through, .bmp and .tiff are
    turned down by the schema. *)
Theorem schema_accepts_upload_url_iff (origin : Origin) (timestamp : Z)
    (bytes : list N) (file : FilePart) (f : UploadedFile) :
  uploadProfilePicture timestamp bytes (Some file) = inr (Some f) ->
  web_scheme origin ->
  clean_host origin ->
  exists url,
    uploaded_url origin f = Some url /\
    (validate_profilePicture url = None <-> In (extension_of file) schema_extensions).
Proof.
  intros Hup Hs Hh.
  destruct (upload_accepted_inv _ _ _ _ Hup) as (file' & Hf & -> & _ & _ & Hext & _).
  injection Hf as <-.
  rewrite uploaded_url_split. eexists. split; [reflexivity |].
  fold (extension_of file) in Hext.
  destruct (allowed_extension_cases _ Hext)
    as [(Hin & e & He1 & He2 & _) | (Hbad & Hnot & _)].
  - split; [intros _; exact Hin | intros _].
    rewrite He1. unfold validate_profilePicture.
    rewrite profilePictureRegex_shape.
    rewrite url_pattern_intro;
      [ reflexivity | apply matches_Lit | reflexivity | exact Hs
      | now apply url_stem_clean | exact He2 ].
  - rewrite upload_url_assoc, (validate_profilePicture_unlisted _ _ Hbad).
    split; [discriminate | contradiction].
Qed.

Lemma schema_accepts_upload_url_iff_witness :
  exists url,
    uploaded_url sample_origin
      (mkUploadedFile sample_tiff
         (storage_filename (now sample_env) (randomBytes sample_env) sample_tiff))
    = Some url /\
    (validate_profilePicture url = None
     <-> In (extension_of sample_tiff) schema_extensions).
Proof.
  apply (schema_accepts_upload_url_iff sample_origin (now sample_env)
           (randomBytes sample_env) sample_tiff).
  - vm_compute. reflexivity.
  - left. reflexivity.
  - vm_compute. reflexivity.
Defined.

Lemma collect_In (l : list (option string)) (m : string) :
  In (Some m) l -> In m (collect l).
Proof.
  induction l as [|o l IH]; [intros [] |].
  intros [-> | Hin]; rewrite collect_cons.
  - now left.
  - destruct o; [right |]; now apply IH.
Qed.

Lemma no_collision body (l : list Doc) :
  passes_input_checks body = true ->
  Forall (fun d => email d <> Js.toLowerCase (Js.str (reg_email body)) /\
                   username d <> Js.trim (Js.str (reg_username body))) l ->
  List.find (collides body) l = None.
Proof.
  intros Hv Hfree.
  destruct (passes_input_checks_inv body Hv) as (_ & _ & _ & _ & Hre).
  destruct (set_email_of_checked _ Hre) as [Hset _].
  apply find_none_Forall. eapply Forall_impl; [exact Hfree |].
  intros x [Hx1 Hx2]. unfold collides, set_username. rewrite Hset.
  apply orb_false_iff. split; now apply String.eqb_neq.
Qed.

(** ** Uploads the filter accepts and the schema turns down *)

(** X22. A registration that passes the input checks and collides with no
    record, sent with a file the upload middleware accepts but whose
    extension is not one of the schema's five (so .bmp or .tiff), is
    answered 400 "Validation error."; the messages include the one of the
    picture's validator about the generated URL; nothing is stored (the
    file itself has been written to disk by then). This holds for every
    origin. *)
Theorem register_with_unlisted_extension (env : Env) (origin : Origin)
    (body : RegisterBody) (file : FilePart) (f : UploadedFile) (w : World) :
  passes_input_checks body = true ->
  uploadProfilePicture (now env) (randomBytes env) (Some file) = inr (Some f) ->
  ~ In (extension_of file) schema_extensions ->
  Forall (fun d => email d <> Js.toLowerCase (Js.str (reg_email body)) /\
                   username d <> Js.trim (Js.str (reg_username body))) (db w) ->
  exists url messages,
    uploaded_url origin f = Some url /\
    In (url ++ " is not a valid image URL!") messages /\
    route env (PostRegister origin body (Some file)) w =
      (Returned (validation_error messages),
       mkWorld (db w) (trace w ++ [register_lookup body; OpSave (newObjectId env)])).
Proof.
  intros Hv Hup Hnot Hfree.
  pose proof (no_collision body (db w) Hv Hfree) as Hfind.
  simpl route. unfold with_upload. rewrite Hup.
  destruct (upload_accepted_inv _ _ _ _ Hup) as (file' & Hf & -> & _ & _ & Hext & _).
  injection Hf as <-. fold (extension_of file) in Hext.
  destruct (allowed_extension_cases _ Hext) as [(Hin & _) | (Hbad & _)];
    [contradiction |].
  rewrite (createAuth_after_lookup env origin body _ w Hv Hfind).
  rewrite uploaded_url_split, upload_url_assoc.
  set (url := (protocol origin ++ "://"
               ++ url_stem origin (now env) (randomBytes env) file)
              ++ extension_of file).
  exists url. unfold try_catch, bind. rewrite save_new_run.
  match goal with |- context [collect ?l] =>
    assert (Hmsg : In (url ++ " is not a valid image URL!") (collect l));
      [| destruct (collect l) as [| m ms] eqn:Hc] end.
  - apply collect_In. do 3 right. left.
    unfold new_Auth. simpl new_profilePicture.
    exact (validate_profilePicture_unlisted _ _ Hbad).
  - contradiction.
  - exists (m :: ms). split; [reflexivity |]. split; [exact Hmsg |].
    simpl. unfold ret, logged. simpl. now rewrite <- app_assoc.
Qed.

Lemma register_with_unlisted_extension_witness :
  exists url messages,
    uploaded_url sample_origin
      (mkUploadedFile sample_bmp
         (storage_filename (now sample_env) (randomBytes sample_env) sample_bmp))
    = Some url /\
    In (url ++ " is not a valid image URL!") messages /\
    route sample_env (PostRegister sample_origin carol_registration (Some sample_bmp))
      sample_world =
      (Returned (validation_error messages),
       mkWorld (db sample_world)
         (trace sample_world
          ++ [register_lookup carol_registration; OpSave (newObjectId sample_env)])).
Proof.
  apply (register_with_unlisted_extension sample_env sample_origin
           carol_registration sample_bmp).
  - vm_compute. reflexivity.
  - vm_compute. reflexivity.
  - vm_compute. intros H.
    repeat (destruct H as [H | H]; [discriminate H |]). exact H.
  - repeat (constructor; [split; discriminate |]). constructor.
Defined.

(** X23. A picture-only update for an existing user, sent with a file the
    upload middleware accepts but whose extension is not one of the
    schema's five, is answered 500 "Internal server error.": the schema's
    validation error is not told apart from other failures there. The
    record keeps its picture. *)
Theorem picture_update_with_unlisted_extension (env : Env) (origin : Origin)
    (userId : string) (file : FilePart) (f : UploadedFile) (user : Doc) (w : World) :
  uploadProfilePicture (now env) (randomBytes env) (Some file) = inr (Some f) ->
  ~ In (extension_of file) schema_extensions ->
  castObjectId userId = Some (_id user) ->
  List.find (has_id (_id user)) (db w) = Some user ->
  route env (PutUserPicture origin userId (Some file)) w =
    (Returned internal_error,
     mkWorld (db w) (trace w ++ [OpFindById userId; OpSave (_id user)])).
Proof.
  intros Hup Hnot Hcast Hfind.
  simpl route. unfold with_upload. rewrite Hup.
  destruct (upload_accepted_inv _ _ _ _ Hup) as (file' & Hf & -> & _ & _ & Hext & _).
  injection Hf as <-. fold (extension_of file) in Hext.
  destruct (allowed_extension_cases _ Hext) as [(Hin & _) | (Hbad & _)];
    [contradiction |].
  unfold updateProfilePicture, try_catch. unfold bind at 1.
  rewrite Auth_findById_run, Hcast, Hfind.
  rewrite uploaded_url_split, upload_url_assoc.
  unfold bind. rewrite save_run.
  match goal with |- context [collect ?l] =>
    assert (Hne : collect l <> []); [| destruct (collect l) as [| m ms] eqn:Hc] end.
  - eapply collect_nonempty. do 2 right. left.
    unfold set_profilePicture. simpl profilePicture.
    exact (validate_profilePicture_unlisted _ _ Hbad).
  - congruence.
  - simpl. unfold ret, logged. simpl. now rewrite <- app_assoc.
Qed.

Lemma picture_update_with_unlisted_extension_witness :
  route sample_env (PutUserPicture sample_origin alice_id (Some sample_tiff))
    sample_world =
    (Returned internal_error,
     mkWorld (db sample_world)
       (trace sample_world ++ [OpFindById alice_id; OpSave (_id alice)])).
Proof.
  apply (picture_update_with_unlisted_extension sample_env sample_origin alice_id
           sample_tiff
           (mkUploadedFile sample_tiff
              (storage_filename (now sample_env) (randomBytes sample_env) sample_tiff))
           alice sample_world).
  - vm_compute. reflexivity.
  - vm_compute. intros H.
    repeat (destruct H as [H | H]; [discriminate H |]). exact H.
  - vm_compute. reflexivity.
  - vm_compute. reflexivity.
Defined.

(** X24. A registration with a picture is created when it passes the input
    checks, its trimmed username has 3 to 20 characters, its role is
    absent or one of the three, it collides with no record, the identifier
    drawn is new, the upload middleware accepts the file, the file's
    extension is one of the schema's five, and the origin has a web scheme
    and a host without line terminators. The answer is 201 and the new
    record's picture is the URL generated for the stored file. *)
Theorem register_with_picture (env : Env) (origin : Origin) (body : RegisterBody)
    (file : FilePart) (f : UploadedFile) (w : World) :
  passes_input_checks body = true ->
  3 <= Js.len (Js.trim (Js.str (reg_username body))) <= 20 ->
  (Js.truthy (reg_role body) = false \/ In (Js.str (reg_role body)) role_enum) ->
  Forall (fun d => email d <> Js.toLowerCase (Js.str (reg_email body)) /\
                   username d <> Js.trim (Js.str (reg_username body))) (db w) ->
  Forall (fun d => _id d <> newObjectId env) (db w) ->
  uploadProfilePicture (now env) (randomBytes env) (Some file) = inr (Some f) ->
  In (extension_of file) schema_extensions ->
  web_scheme origin ->
  clean_host origin ->
  let d :=
    mkDoc (newObjectId env)
      (Js.trim (Js.str (reg_username body)))
      (Js.toLowerCase (Js.str (reg_email body)))
      (bcrypt_hash (bcryptSalt env) (Js.str (reg_password body)) 12)
      (protocol origin ++ "://" ++ Js.str (host origin)
       ++ "/uploads/profile-pictures/" ++ filename f)
      (if Js.truthy (reg_role body) then Js.str (reg_role body) else "student")
      (now env) (now env) in
  route env (PostRegister origin body (Some file)) w =
    (Returned (with_user 201 "User created successfully." d),
     mkWorld (db w ++ [d])
       (trace w ++ [register_lookup body; OpSave (newObjectId env)])).
Proof.
  intros Hv Hlen Hrole Hfree Hfresh Hup Hin Hs Hh d.
  simpl route. unfold with_upload. rewrite Hup.
  destruct (upload_accepted_inv _ _ _ _ Hup) as (file' & Hf & Hfeq & _ & _ & Hext & _).
  injection Hf as <-. fold (extension_of file) in Hext.
  assert (Hurl : uploaded_url origin f
                 = Some (protocol origin ++ "://" ++ Js.str (host origin)
                         ++ "/uploads/profile-pictures/" ++ filename f)).
  { rewrite Hfeq. unfold uploaded_url, generateImageUrl. simpl filename.
    now rewrite storage_filename_truthy. }
  assert (Hvalid : validate_profilePicture
                     (protocol origin ++ "://" ++ Js.str (host origin)
                      ++ "/uploads/profile-pictures/" ++ filename f) = None).
  { assert (Hsome : Some (protocol origin ++ "://" ++ Js.str (host origin)
                          ++ "/uploads/profile-pictures/" ++ filename f)
                    = Some (protocol origin ++ "://"
                            ++ url_stem origin (now env) (randomBytes env) file
                            ++ extension_of file)).
    { rewrite <- Hurl, Hfeq. apply uploaded_url_split. }
    injection Hsome as ->.
    destruct (allowed_extension_cases _ Hext)
      as [(_ & e & He1 & He2 & _) | (_ & Hnot & _)]; [| contradiction].
    rewrite He1. unfold validate_profilePicture. rewrite profilePictureRegex_shape.
    rewrite url_pattern_intro;
      [ reflexivity | apply matches_Lit | reflexivity | exact Hs
      | now apply url_stem_clean | exact He2 ]. }
  pose proof (createAuth_creates env origin body (Some f) w Hv Hlen Hrole Hfree Hfresh)
    as Hrun.
  cbv beta zeta iota in Hrun. rewrite Hurl in Hrun. simpl default in Hrun.
  exact (Hrun Hvalid).
Qed.

Lemma register_with_picture_witness :
  route sample_env (PostRegister sample_origin carol_registration (Some sample_png))
    sample_world =
    (Returned (with_user 201 "User created successfully." carol),
     mkWorld (db sample_world ++ [carol])
       (trace sample_world
        ++ [register_lookup carol_registration; OpSave (newObjectId sample_env)])).
Proof.
  apply (register_with_picture sample_env sample_origin carol_registration
           sample_png
           (mkUploadedFile sample_png
              (storage_filename (now sample_env) (randomBytes sample_env) sample_png))
           sample_world).
  - vm_compute. reflexivity.
  - vm_compute. split; discriminate.
  - left. reflexivity.
  - repeat (constructor; [split; discriminate |]). constructor.
  - repeat (constructor; [discriminate |]). constructor.
  - vm_compute. reflexivity.
  - vm_compute. tauto.
  - left. reflexivity.
  - vm_compute. reflexivity.
Defined.

(** ** Conflicts of a profile update *)

Lemma taken_eq env supplied current f w :
  taken env supplied current (Eq f (Js.str supplied)) w =
  (Returned (Js.truthy supplied && negb (String.eqb (Js.str supplied) current)
             && existsb (fun d => String.eqb (get_field f d)
                                    (cast_value f (Js.str supplied))) (db w)),
   if Js.truthy supplied && negb (String.eqb (Js.str supplied) current)
   then logged (OpFindOne (Eq f (Js.str supplied))) w else w).
Proof.
  unfold taken.
  destruct (Js.truthy supplied && negb (String.eqb (Js.str supplied) current));
    [| reflexivity].
  unfold bind. rewrite Auth_findOne_Eq. unfold ret. simpl. f_equal. f_equal.
  destruct (List.find _ (db w)) as [x |] eqn:Hf.
  - symmetry. apply existsb_exists. apply find_some in Hf. eauto.
  - symmetry. now apply find_existsb.
Qed.

Lemma held_spec f supplied current (docs : list Doc) :
  Js.truthy supplied && negb (String.eqb (Js.str supplied) current)
  && existsb (fun d => String.eqb (get_field f d)
                         (cast_value f (Js.str supplied))) docs = true
  <-> held f supplied current docs.
Proof.
  unfold held. rewrite !andb_true_iff, negb_true_iff, existsb_exists.
  split.
  - intros [[Ht Hn] (d & Hd & He)]. apply String.eqb_neq in Hn.
    apply String.eqb_eq in He. eauto.
  - intros (Ht & Hn & d & Hd & He). apply String.eqb_neq in Hn.
    split; [tauto |]. exists d. split; [exact Hd | now apply String.eqb_eq].
Qed.

Lemma update_tail_message env (d : Doc) w :
  exists resp,
    fst (try_catch
           (do saved <- save env d;
            ret (with_user 200 "Profile updated successfully." saved))
           (fun error =>
              match error with
              | ValidationError errorMessages => ret (validation_error errorMessages)
              | _ => ret internal_error
              end) w) = Returned resp /\
    message resp <> "Email is already taken." /\
    message resp <> "Username is already taken.".
Proof.
  unfold try_catch, bind. rewrite save_run.
  destruct (collect _) as [| m ms].
  - destruct (unique_violation _ _); cbv zeta; simpl;
      eexists; (split; [reflexivity |]); split; discriminate.
  - simpl. eexists. split; [reflexivity |]. split; discriminate.
Qed.

(** X25. When a profile update names an existing user, it is answered
    400 "Email is already taken." exactly when an email is supplied that
    differs as a string from the user's stored one and some record (the
    user's own included) holds it trimmed and in lower case; and 400
    "Username is already taken." exactly when that is not so and a
    username is supplied that differs from the stored one and some record
    holds it trimmed. *)
Theorem update_conflict_iff (env : Env) (origin : Origin) (userId : string)
    (body : UpdateBody) (file : option UploadedFile) (w : World) (user : Doc) :
  castObjectId userId = Some (_id user) ->
  List.find (has_id (_id user)) (db w) = Some user ->
  (fst (updateUserProfile env origin userId body file w)
     = Returned (reply 400 false "Email is already taken.")
   <-> held FEmail (upd_email body) (email user) (db w)) /\
  (fst (updateUserProfile env origin userId body file w)
     = Returned (reply 400 false "Username is already taken.")
   <-> ~ held FEmail (upd_email body) (email user) (db w) /\
       held FUsername (upd_username body) (username user) (db w)).
Proof.
  intros Hcast Hfind.
  rewrite <- (held_spec FEmail), <- (held_spec FUsername).
  unfold updateUserProfile.
  erewrite try_catch_bind; [| rewrite Auth_findById_run, Hcast, Hfind; reflexivity].
  cbv beta iota.
  erewrite try_catch_bind; [| apply taken_eq].
  change (db (logged (OpFindById userId) w)) with (db w).
  destruct (Js.truthy (upd_email body)
            && negb (String.eqb (Js.str (upd_email body)) (email user))
            && existsb _ (db w)) eqn:Hbe.
  { split; [split; reflexivity |].
    split; [intros H; discriminate H | intros [H _]; now elim H]. }
  erewrite try_catch_bind; [| apply taken_eq].
  match goal with |- context [db (if ?c then ?a else ?b)] =>
    replace (db (if c then a else b)) with (db w) by (destruct c; reflexivity) end.
  destruct (Js.truthy (upd_username body)
            && negb (String.eqb (Js.str (upd_username body)) (username user))
            && existsb _ (db w)) eqn:Hbu.
  { split; [split; intros H; discriminate H |].
    split; [intros _; split; [discriminate | reflexivity] | reflexivity]. }
  cbv zeta.
  match goal with |- context [try_catch ?m ?h ?w0] =>
    destruct (update_tail_message env
                (assign_role (upd_role body)
                   (assign_email (upd_email body)
                      (assign_username (upd_username body)
                         match file with
                         | Some f => set_profilePicture (uploaded_url origin f) user
                         | None => user
                         end))) w0) as (resp & Hr & Hm1 & Hm2) end.
  rewrite Hr.
  split; (split; [intros H; injection H as ->; exfalso;
                  first [now apply Hm1 | now apply Hm2] | ]).
  - intros H; discriminate H.
  - intros [_ H]; discriminate H.
Qed.

Lemma update_conflict_iff_witness :
  (fst (updateUserProfile sample_env sample_origin alice_id
          (mkUpdateBody None (Some "BOB@x.com ") None) None sample_world)
     = Returned (reply 400 false "Email is already taken.")
   <-> held FEmail (Some "BOB@x.com ") (email alice) (db sample_world)) /\
  (fst (updateUserProfile sample_env sample_origin alice_id
          (mkUpdateBody None (Some "BOB@x.com ") None) None sample_world)
     = Returned (reply 400 false "Username is already taken.")
   <-> ~ held FEmail (Some "BOB@x.com ") (email alice) (db sample_world) /\
       held FUsername None (username alice) (db sample_world)).
Proof.
  apply (update_conflict_iff sample_env sample_origin alice_id
           (mkUpdateBody None (Some "BOB@x.com ") None) None sample_world alice).
  - vm_compute. reflexivity.
  - vm_compute. reflexivity.
Defined.

(** ** Rejected uploads *)

(** X26. A request whose file part the upload middleware rejects never
    reaches its handler: no database operation is made and the store is
    as before. The answer is 400 with success false, and its error code
    follows the first test that fails: UNEXPECTED_FIELD for a field other
    than profilePicture, whatever the file is; else UPLOAD_ERROR with the
    message of the filter for a type or an extension outside the lists;
    else FILE_TOO_LARGE for a file of 5 MB or more. *)
Theorem rejected_upload_answer (env : Env) (r : Request) (file : FilePart)
    (e : UploadError) (w : World) :
  upload_part r = Some file ->
  uploadProfilePicture (now env) (randomBytes env) (Some file) = inl e ->
  route env r w = (Returned (handleMulterError e), w) /\
  status (handleMulterError e) = 400 /\
  success (handleMulterError e) = false /\
  handleMulterError e =
    if negb (String.eqb (fieldname file) "profilePicture")
    then upload_reply "Unexpected field name. Use 'profilePicture' as field name."
           "UNEXPECTED_FIELD"
    else if negb (Js.includes allowedMimeTypes (mimetype file)
                  && Js.includes allowedExtensions (extension_of file))
    then upload_reply invalid_file_type "UPLOAD_ERROR"
    else upload_reply "File size too large. Maximum size allowed is 5MB."
           "FILE_TOO_LARGE".
Proof.
  intros Hpart Hup.
  split.
  { destruct r; simpl in Hpart; try discriminate Hpart; subst;
      simpl route; unfold with_upload; now rewrite Hup. }
  destruct (handleMulterError_structured e) as (H400 & Hno & _).
  split; [exact H400 |]. split; [exact Hno |].
  unfold uploadProfilePicture in Hup.
  destruct (is_empty (originalname file)); [discriminate Hup |].
  destruct (negb (String.eqb (fieldname file) "profilePicture"));
    [injection Hup as <-; reflexivity |].
  unfold fileFilter in Hup. cbv zeta in Hup. fold (extension_of file) in Hup.
  destruct (Js.includes allowedMimeTypes (mimetype file)
            && Js.includes allowedExtensions (extension_of file));
    [| injection Hup as <-; reflexivity].
  destruct (fileSize <=? size file); [| discriminate Hup].
  injection Hup as <-. reflexivity.
Qed.

Lemma rejected_upload_answer_witness :
  route sample_env (PutUserPicture sample_origin alice_id (Some sample_pdf))
    sample_world
  = (Returned (handleMulterError (PlainError invalid_file_type)), sample_world) /\
  status (handleMulterError (PlainError invalid_file_type)) = 400 /\
  success (handleMulterError (PlainError invalid_file_type)) = false /\
  handleMulterError (PlainError invalid_file_type) =
    if negb (String.eqb (fieldname sample_pdf) "profilePicture")
    then upload_reply "Unexpected field name. Use 'profilePicture' as field name."
           "UNEXPECTED_FIELD"
    else if negb (Js.includes allowedMimeTypes (mimetype sample_pdf)
                  && Js.includes allowedExtensions (extension_of sample_pdf))
    then upload_reply invalid_file_type "UPLOAD_ERROR"
    else upload_reply "File size too large. Maximum size allowed is 5MB."
           "FILE_TOO_LARGE".
Proof.
  apply (rejected_upload_answer sample_env
           (PutUserPicture sample_origin alice_id (Some sample_pdf)) sample_pdf).
  - reflexivity.
  - vm_compute. reflexivity.
Defined.

(** ** Strings with code units outside ASCII

    The handlers at strings that hold letters of Latin-1 Supplement, a
    no-break space or a NUL. *)

(** The length of a password is counted in code units: eight here, so
    the registration is refused by the input check. The same holds of
    the schema: eleven accented letters pass as a username. *)
Example length_counts_code_units :
  Js.len passwort = 8 /\
  Js.len (Js.utf8 passwort) = 10 /\
  fst (createAuth sample_env sample_origin
         (mkRegisterBody (Some "dave") (Some "dave@x.com") (Some passwort) None)
         None sample_world)
    = Returned (reply 400 false "Password must be at least 9 characters long.") /\
  Js.len eleven_accents = 11 /\
  validate_username eleven_accents = None.
Proof. repeat split; vm_compute; reflexivity. Qed.

(** The lower case of a letter of Latin-1 Supplement is taken by the
    setter of [email]; a no-break space is white space for [trim] and for
    the class [\s] of the email pattern. *)
Example setters_outside_ascii :
  set_email ECOLE = ecole /\
  set_email ecole = ecole /\
  Js.trim (String nbsp (String "a" (String nbsp EmptyString))) = "a" /\
  Regex.matches emailRegex (String "a" (String nbsp "b@x.com")) = false.
Proof. repeat split; vm_compute; reflexivity. Qed.

(** A profile update to an email that another record holds in lower case
    is refused, in whatever case it is typed. *)
Example update_to_held_email_in_upper_case :
  fst (updateUserProfile sample_env sample_origin alice_id
         (mkUpdateBody None (Some ECOLE) None) None
         (mkWorld [alice; bob; eve] []))
    = Returned (reply 400 false "Email is already taken.").
Proof. vm_compute. reflexivity. Qed.

(** bcrypt reads the password, a NUL, and the password again: a password
    repeated after a NUL has the key of the password alone, and verifies
    against its digest; so does a password of more than 72 bytes against
    the digest of its first 72. *)
Example bcrypt_key_is_cyclic :
  bcrypt_key ("password1" ++ String zero "password1") = bcrypt_key "password1" /\
  bcrypt_compare ("password1" ++ String zero "password1")
    (bcrypt_hash "salt" "password1" 12) = true /\
  bcrypt_compare "password2" (bcrypt_hash "salt" "password1" 12) = false /\
  bcrypt_key
    ("0123456789012345678901234567890123456789012345678901234567890123456789012"
     ++ "tail")
  = bcrypt_key
      "012345678901234567890123456789012345678901234567890123456789012345678901".
Proof. repeat split; vm_compute; reflexivity. Qed.
